(** * WesternMeteorPyLib: kinematics of the Gural trajectory wrapper and MILIG ingestion

    A shallow embedding of the parts of
    - [wmpl/Trajectory/GuralTrajectory.py] ([fitLagIntercept], [calcVelocity],
      [calcLag], [calcAverages], [savePickle]) and
    - [wmpl/Formats/Milig.py] ([StationData], [loadMiligInput])
    that the specification speaks about, and the properties proved of them.

    Numbers.  The code computes with IEEE binary64 values.  They are idealised
    here as real numbers: rounding is not modelled.  What numpy does at a zero
    divisor (it yields [inf] or [nan] and carries on, it raises nothing) is
    modelled, see [npfloat].

    Exceptions.  Python code that can raise returns a [result]. *)

From Stdlib Require Import String Ascii.
From Stdlib Require Import Reals Lra Lia List ZArith Bool.
From Stdlib Require Import Permutation Sorted.
Import ListNotations.

Open Scope R_scope.

(* ================================================================= *)
(** ** Python values: exceptions, results *)

(** The exceptions that the modelled code can raise.  [DegenerateGeometry]
    is the one the projection of the specification raises; the others are
    Python's own. *)
Inductive exn : Type :=
| UnboundLocalError (name : string)
| TypeError
| ValueError
| IndexError
| DegenerateGeometry.

Inductive result (A : Type) : Type :=
| Ok (a : A)
| Raise (e : exn).

Arguments Ok {A} a.
Arguments Raise {A} e.

Definition bind {A B : Type} (m : result A) (k : A -> result B) : result B :=
  match m with
  | Ok a => k a
  | Raise e => Raise e
  end.

Notation "x <- m ;; k" := (bind m (fun x => k))
  (at level 61, m at next level, right associativity).
Notation "' p <- m ;; k" := (bind m (fun x => match x with p => k end))
  (at level 61, p pattern, m at next level, right associativity).

(** A [for] loop whose body can raise: the results of the iterations that
    ran, or the first exception. *)
Fixpoint mapM {A B : Type} (f : A -> result B) (l : list A) : result (list B) :=
  match l with
  | [] => Ok []
  | a :: l' => b <- f a ;; bs <- mapM f l' ;; Ok (b :: bs)
  end.

(** [seq[i]] for a non-negative index. *)
Definition getitem {A : Type} (l : list A) (i : nat) : result A :=
  match nth_error l i with
  | Some a => Ok a
  | None => Raise IndexError
  end.

(** [seq[-1]]. *)
Definition getlast {A : Type} (l : list A) : result A :=
  match rev l with
  | a :: _ => Ok a
  | [] => Raise IndexError
  end.

(* ================================================================= *)
(** ** numpy: float64 results and one-dimensional arrays *)

(** The value of a float64 computation: a number, an infinity or not-a-number. *)
Inductive npfloat : Type :=
| Fin (r : R)
| PInf
| NInf
| NaN.

(** [x / y] on float64 scalars or array entries.  numpy does not raise at a
    zero divisor: [0/0] is [nan], [x/0] is an infinity with the sign of [x]
    (a warning is printed). *)
Definition np_div (x y : R) : npfloat :=
  if Req_dec_T y 0 then
    if Req_dec_T x 0 then NaN
    else if Rlt_dec 0 x then PInf else NInf
  else Fin (x / y).

(** [np.finfo(np.float64).eps] *)
Definition float64_eps : R := / 2 ^ 52.

(** An entrywise operation [a op b] on two one-dimensional arrays: equal
    sizes pair up, an array of size one is broadcast, anything else raises
    [ValueError]. *)
Definition np_zipwith {A B C : Type} (f : A -> B -> C)
  (a : list A) (b : list B) : result (list C) :=
  if Nat.eqb (length a) (length b) then
    Ok (map (fun p => f (fst p) (snd p)) (combine a b))
  else
    match a, b with
    | [x], _ => Ok (map (fun y => f x y) b)
    | _, [y] => Ok (map (fun x => f x y) a)
    | _, _ => Raise ValueError
    end.

(** [np.r_[0, a][:-1]]: the array shifted one entry down, a zero first. *)
Definition shift_down (a : list R) : list R := removelast (0 :: a).

(** [a[a == 0] = eps] *)
Definition replace_zeros (eps : R) (a : list R) : list R :=
  map (fun d => if Req_dec_T d 0 then eps else d) a.

(** Python's [x % m] on floats, for a positive modulus: [x - floor(x/m)*m]. *)
Definition pymod (x m : R) : R := x - IZR (Int_part (x / m)) * m.

(* ================================================================= *)
(** ** Vectors in ECI space *)

Definition vec3 : Type := (R * R * R)%type.

Definition vsub (a b : vec3) : vec3 :=
  let '(ax, ay, az) := a in
  let '(bx, b_y, bz) := b in
  (ax - bx, ay - b_y, az - bz).

Definition vadd (a b : vec3) : vec3 :=
  let '(ax, ay, az) := a in
  let '(bx, b_y, bz) := b in
  (ax + bx, ay + b_y, az + bz).

Definition vscale (k : R) (a : vec3) : vec3 :=
  let '(ax, ay, az) := a in (k * ax, k * ay, k * az).

Definition vdot (a b : vec3) : R :=
  let '(ax, ay, az) := a in
  let '(bx, b_y, bz) := b in
  ax * bx + ay * b_y + az * bz.

(** Modelled from the spec: [vectMag] of [wmpl.Utils.Math], which is not among
    the sources.  The specification writes [|CPA[0] - CPA[i]|], the Euclidean
    length of a vector. *)
Definition vectMag (a : vec3) : R := sqrt (vdot a a).

(** Modelled from the spec: [lineFunc] of [wmpl.Utils.Math], which is not among
    the sources.  The specification writes the lag line as
    [v_begin * t + intercept]; the arguments are (x, slope, intercept), as at
    the call [lineFunc(x, v_init, intercept)]. *)
Definition lineFunc (x m k : R) : R := m * x + k.

(* ================================================================= *)
(** ** GuralTrajectory.calcVelocity: lengths and velocities of a station *)

(** The loop over [enumerate(rad_cpa_list)] of lines 909-921, with the loop
    index [i], the local [ref_point] (unbound before the first pass) and the
    two lists it appends to.  [beg_cpa] is [None] when no projected point was
    ever higher than [max_ht = 0]; subtracting an array from [None] raises
    [TypeError]. *)
Fixpoint lengths_loop (beg_cpa : option vec3) (i : nat) (ref_point : option vec3)
  (rad_cpa_list : list vec3) (radiant_distances state_vector_distance : list R)
  : result (list R * list R) :=
  match rad_cpa_list with
  | [] => Ok (radiant_distances, state_vector_distance)
  | rad_cpa :: rest =>
      let ref_point := if Nat.eqb i 0 then Some rad_cpa else ref_point in
      match ref_point with
      | None => Raise (UnboundLocalError "ref_point")
      | Some rp =>
          let dist := vectMag (vsub rp rad_cpa) in
          match beg_cpa with
          | None => Raise TypeError
          | Some bc =>
              let beg_dist := vectMag (vsub bc rad_cpa) in
              lengths_loop beg_cpa (S i) ref_point rest
                (radiant_distances ++ [dist])
                (state_vector_distance ++ [beg_dist])
          end
      end
  end.

Definition station_lengths (beg_cpa : option vec3) (rad_cpa_list : list vec3)
  : result (list R * list R) :=
  lengths_loop beg_cpa 0 None rad_cpa_list [] [].

(** Lines 933-951: the instantaneous velocity of one station from its time
    and length arrays. *)
Definition time_diffs_of (time_data : list R) : result (list R) :=
  let time_shifted := shift_down time_data in
  time_diffs <- np_zipwith Rminus time_data time_shifted ;;
  Ok (replace_zeros float64_eps time_diffs).

Definition station_velocity (time_data length : list R) : result (list npfloat) :=
  let dists_shifted := shift_down length in
  dists_diffs <- np_zipwith Rminus length dists_shifted ;;
  time_diffs <- time_diffs_of time_data ;;
  np_zipwith np_div dists_diffs time_diffs.

(* ================================================================= *)
(** ** Projection of a line of sight on the radiant line *)

(** Modelled from the spec: [findClosestPoints] of [wmpl.Utils.Math], which is
    not among the sources.  The specification (4.3) describes the classic
    minimum-distance problem of two lines, [P + s u] (the line of sight) and
    [Q + t v] (the radiant line), guarded by a configurable epsilon against a
    near-singular denominator: it fails with [DegenerateGeometry] when the
    directions are parallel within tolerance.  It returns the closest point on
    each line and their distance; [calcVelocity] keeps the second one. *)
Definition findClosestPoints (epsilon : R) (P u Q v : vec3)
  : result (vec3 * vec3 * R) :=
  let w := vsub P Q in
  let a := vdot u u in
  let b := vdot u v in
  let c := vdot v v in
  let d := vdot u w in
  let e := vdot v w in
  let denom := a * c - b * b in
  if Rle_dec (Rabs denom) epsilon then Raise DegenerateGeometry
  else
    let s := (b * e - c * d) / denom in
    let t := (a * e - b * d) / denom in
    let obs_cpa := vadd P (vscale s u) in
    let rad_cpa := vadd Q (vscale t v) in
    Ok (obs_cpa, rad_cpa, vectMag (vsub obs_cpa rad_cpa)).

(** Lines 881-895: the points of one station, threading [max_ht] and
    [beg_cpa]. *)
Fixpoint project_points (epsilon : R) (state_vect radiant_eci : vec3)
  (pts : list (vec3 * vec3)) (max_ht : R) (beg_cpa : option vec3)
  (rad_cpa_list : list vec3) : result (list vec3 * R * option vec3) :=
  match pts with
  | [] => Ok (rad_cpa_list, max_ht, beg_cpa)
  | (stat, meas) :: rest =>
      '(_, rad_cpa, _) <- findClosestPoints epsilon stat meas state_vect radiant_eci ;;
      let ht_center := vectMag rad_cpa in
      if Rlt_dec max_ht ht_center then
        project_points epsilon state_vect radiant_eci rest ht_center (Some rad_cpa)
          (rad_cpa_list ++ [rad_cpa])
      else
        project_points epsilon state_vect radiant_eci rest max_ht beg_cpa
          (rad_cpa_list ++ [rad_cpa])
  end.

(** Lines 871-897: all stations. *)
Fixpoint project_stations (epsilon : R) (state_vect radiant_eci : vec3)
  (stations : list (list vec3 * list vec3)) (max_ht : R) (beg_cpa : option vec3)
  (rad_cpa_all_stations : list (list vec3))
  : result (list (list vec3) * option vec3) :=
  match stations with
  | [] => Ok (rad_cpa_all_stations, beg_cpa)
  | (stat_eci_los, meas_eci_los) :: rest =>
      '(rad_cpa_list, max_ht', beg_cpa') <-
        project_points epsilon state_vect radiant_eci
          (combine stat_eci_los meas_eci_los) max_ht beg_cpa [] ;;
      project_stations epsilon state_vect radiant_eci rest max_ht' beg_cpa'
        (rad_cpa_all_stations ++ [rad_cpa_list])
  end.

(* ================================================================= *)
(** ** Measurement conventions *)

Section Conventions.

(** [raDec2AltAz_vect] of [wmpl.Utils.TrajConversions] is not among the
    sources and is taken as given: (ra, dec, jd, lat, lon) to (azim, elev). *)
Variable raDec2AltAz_vect : list R -> list R -> R -> R -> R -> list R * list R.

(** Lines 824-849: the [if]/[elif] chain on [self.meastype].  It has no
    [else]: for another code the locals [azim_data] and [elev_data] keep the
    binding they had before ([prev]), which is none on the first station. *)
Definition convert_measurements (meastype : Z) (jdt_ref : R)
  (prev : option (list R * list R)) (meas1 meas2 : list R) (lat lon : R)
  : option (list R * list R) :=
  if Z.eqb meastype 1 then
    let ra_data := meas1 in
    let dec_data := meas2 in
    Some (raDec2AltAz_vect ra_data dec_data jdt_ref lat lon)
  else if Z.eqb meastype 2 then
    Some (meas1, meas2)
  else if Z.eqb meastype 3 then
    Some (map (fun a => pymod (a + PI) (2 * PI)) meas1,
          map (fun z => PI / 2 - z) meas2)
  else if Z.eqb meastype 4 then
    Some (map (fun a => pymod (PI / 2 - a) (2 * PI)) meas1,
          map (fun z => PI / 2 - z) meas2)
  else prev.

(** [altAz2RADec_vect] and [raDec2ECI] of [wmpl.Utils.TrajConversions], not
    among the sources, taken as given. *)
Variable altAz2RADec_vect : list R -> list R -> list R -> R -> R -> list R * list R.
Variable raDec2ECI : list R -> list R -> list vec3.

(** Lines 820-861: the loop over the stations, which reads the locals bound
    by the chain and raises [UnboundLocalError] where they are not. *)
Fixpoint lines_of_sight (meastype : Z) (jdt_ref : R)
  (prev : option (list R * list R))
  (stations : list (list R * list R * list R * R * R))
  : result (list (list R * list R) * list (list vec3)) :=
  match stations with
  | [] => Ok ([], [])
  | (jd_data, meas1, meas2, lat, lon) :: rest =>
      match convert_measurements meastype jdt_ref prev meas1 meas2 lat lon with
      | None => Raise (UnboundLocalError "azim_data")
      | Some (azim_data, elev_data) =>
          let '(ra_data_los, dec_data_los) :=
            altAz2RADec_vect azim_data elev_data jd_data lat lon in
          let stat_los_eci := raDec2ECI ra_data_los dec_data_los in
          '(ra_dec_los_cameras, meas_eci_los_cameras) <-
            lines_of_sight meastype jdt_ref (Some (azim_data, elev_data)) rest ;;
          Ok ((ra_data_los, dec_data_los) :: ra_dec_los_cameras,
              stat_los_eci :: meas_eci_los_cameras)
      end
  end.

End Conventions.

(* ================================================================= *)
(** ** The robust begin velocity ("first half average") *)

(** [np.sqrt] and [<] on float64 results. *)
Definition np_sqrt (x : npfloat) : npfloat :=
  match x with
  | Fin r => if Rlt_dec r 0 then NaN else Fin (sqrt r)
  | PInf => PInf
  | NInf => NaN
  | NaN => NaN
  end.

Definition np_lt (x y : npfloat) : bool :=
  match x, y with
  | NaN, _ | _, NaN => false
  | Fin a, Fin b => if Rlt_dec a b then true else false
  | Fin _, PInf => true
  | Fin _, NInf => false
  | PInf, _ => false
  | NInf, NInf => false
  | NInf, _ => true
  end.

(** [np.c_[a, b]]: two columns of one size. *)
Definition np_c_ (a b : list R) : result (list (R * R)) :=
  if Nat.eqb (length a) (length b) then Ok (combine a b)
  else Raise ValueError.

(** [list.pop(k)] for a non-negative [k]. *)
Fixpoint list_pop (l : list nat) (k : nat) : result (list nat) :=
  match l, k with
  | [], _ => Raise IndexError
  | _ :: l', O => Ok l'
  | x :: l', S k' => l'' <- list_pop l' k' ;; Ok (x :: l'')
  end.

(** [[x for i, x in enumerate(xs) if i in use_indices]], counting from [i]. *)
Fixpoint filter_indices {A : Type} (use_indices : list nat) (i : nat) (xs : list A)
  : list A :=
  match xs with
  | [] => []
  | x :: xs' =>
      if existsb (Nat.eqb i) use_indices
      then x :: filter_indices use_indices (S i) xs'
      else filter_indices use_indices (S i) xs'
  end.

Section FirstHalfAverage.

(** [scipy.optimize.curve_fit(lineFunc, x, y)]: the fitted (slope, intercept)
    and the diagonal of the covariance matrix, (variance of the slope,
    variance of the intercept); it can raise.  Taken as given. *)
Variable curve_fit_line : list R -> list R -> result ((R * R) * (npfloat * npfloat)).

(** The rows of a two-column array reordered by [np.argsort] of the first
    column.  Taken as given; its default sort is not a stable one. *)
Variable argsort_rows : list (R * R) -> list (R * R).

(** Lines 968-972: the stations a candidate uses. *)
Definition use_indices_of (maxcameras i : nat) : result (list nat) :=
  let use_indices := seq 0 maxcameras in
  if Nat.ltb 2 maxcameras && negb (Nat.eqb i 0)
  then list_pop use_indices (i - 1)
  else Ok use_indices.

(** Lines 975-989: the points a candidate is fitted to. *)
Definition candidate_half (use_indices : list nat)
  (times state_vector_distances : list (list R)) : result (list R * list R) :=
  let filtered_times := filter_indices use_indices 0 times in
  let filtered_svs := filter_indices use_indices 0 state_vector_distances in
  let times := concat filtered_times in
  let sv_dists := concat filtered_svs in
  temp_arr <- np_c_ times sv_dists ;;
  let temp_arr := argsort_rows temp_arr in
  let times := map fst temp_arr in
  let sv_dists := map snd temp_arr in
  let half_index := Nat.div (length times) 2 in
  Ok (firstn half_index times, firstn half_index sv_dists).

(** Lines 968-992: the fit of the candidate of loop index [i]. *)
Definition candidate_fit (maxcameras : nat) (times state_vector_distances : list (list R))
  (i : nat) : result ((R * R) * (npfloat * npfloat)) :=
  use_indices <- use_indices_of maxcameras i ;;
  '(times_half, sv_dists_half) <-
    candidate_half use_indices times state_vector_distances ;;
  curve_fit_line times_half sv_dists_half.

(** Lines 966-1005: the loop over [range(1, maxcameras + 1)], here over the
    values of [i] still to come, with [best_stddev] and [best_solution]. *)
Fixpoint fha_loop (maxcameras : nat) (times state_vector_distances : list (list R))
  (i_values : list nat) (best_stddev : npfloat) (best_solution : option (R * R))
  : result (option (R * R)) :=
  match i_values with
  | [] => Ok best_solution
  | i :: rest =>
      '(popt, pcov_diag) <- candidate_fit maxcameras times state_vector_distances i ;;
      let intercept_stddev := np_sqrt (snd pcov_diag) in
      let '(best_stddev, best_solution) :=
        if np_lt intercept_stddev best_stddev
        then (intercept_stddev, Some popt)
        else (best_stddev, best_solution) in
      if Nat.eqb maxcameras 2 then Ok best_solution
      else fha_loop maxcameras times state_vector_distances rest
             best_stddev best_solution
  end.

(** Lines 962-1009: the begin velocity, in km/s.  [best_solution[0]] raises
    [TypeError] when no candidate was kept. *)
Definition fha_vbegin (maxcameras : nat) (times state_vector_distances : list (list R))
  : result R :=
  best_solution <-
    fha_loop maxcameras times state_vector_distances (seq 1 maxcameras) PInf None ;;
  match best_solution with
  | None => Raise TypeError
  | Some popt => Ok (fst popt / 1000)
  end.

End FirstHalfAverage.

(* ================================================================= *)
(** ** GuralTrajectory.calcVelocity as a whole *)

(** The attributes of the object that [calcVelocity], [calcLag] and
    [calcAverages] read, as [run] sets them from the solver's output. *)
Record TrajInput : Type := {
  maxcameras : nat;
  jdt_ref : R;
  velmodel : Z;
  fha_velocity : bool;
  meastype : Z;
  camera_lat : list R;
  camera_lon : list R;
  camera_hkm : list R;
  meas1 : list (list R);
  meas2 : list (list R);
  dtime : list (list R);
  tref_offsets : list R;
  state_vect : vec3;
  radiant_eci : vec3;
  vbegin : R
}.

(** The attributes that [calcVelocity] writes. *)
Record VelocityOutput : Type := {
  times : list (list R);
  JD_data_cameras : list (list R);
  stations_eci_cameras : list (list vec3);
  ra_dec_los_cameras : list (list R * list R);
  meas_eci_los_cameras : list (list vec3);
  lengths : list (list R);
  state_vector_distances : list (list R);
  velocities : list (list npfloat);
  vbegin_out : R;
  vavg_out : option R
}.

Fixpoint zip3 {A B C : Type} (a : list A) (b : list B) (c : list C)
  : list (A * B * C) :=
  match a, b, c with
  | x :: a', y :: b', z :: c' => (x, y, z) :: zip3 a' b' c'
  | _, _, _ => []
  end.

Fixpoint zip5 {A B C D E : Type} (a : list A) (b : list B) (c : list C)
  (d : list D) (e : list E) : list (A * B * C * D * E) :=
  match a, b, c, d, e with
  | x :: a', y :: b', z :: c', u :: d', v :: e' =>
      (x, y, z, u, v) :: zip5 a' b' c' d' e'
  | _, _, _, _, _ => []
  end.

Section CalcVelocity.

(** [geo2Cartesian] of [wmpl.Utils.TrajConversions] (lat, lon, height in
    metres, Julian date), not among the sources, taken as given. *)
Variable geo2Cartesian : R -> R -> R -> R -> vec3.
Variable raDec2AltAz_vect : list R -> list R -> R -> R -> R -> list R * list R.
Variable altAz2RADec_vect : list R -> list R -> list R -> R -> R -> list R * list R.
Variable raDec2ECI : list R -> list R -> list vec3.
Variable curve_fit_line : list R -> list R -> result ((R * R) * (npfloat * npfloat)).
Variable argsort_rows : list (R * R) -> list (R * R).

(** The tolerance of the projection: [calcVelocity] passes none, the
    configured one applies. *)
Variable cpa_epsilon : R.

(** Lines 788-811: times, Julian dates and ECI positions of every station. *)
Fixpoint station_positions (self : TrajInput) (kmeas : nat) (cams : list (R * R * R))
  : result (list (list R) * list (list R) * list (list vec3)) :=
  match cams with
  | [] => Ok ([], [], [])
  | (lat, lon, hkm) :: rest =>
      dt <- getitem (dtime self) kmeas ;;
      off <- getitem (tref_offsets self) kmeas ;;
      let time_data := map (fun t => t + off) dt in
      let jd_data := map (fun t => jdt_ref self + t / 86400) time_data in
      let station_pos := map (fun jd => geo2Cartesian lat lon (hkm * 1000) jd) jd_data in
      '(ts, jds, poss) <- station_positions self (S kmeas) rest ;;
      Ok (time_data :: ts, jd_data :: jds, station_pos :: poss)
  end.

(** Lines 901-951: lengths, state-vector distances and velocities of every
    station. *)
Fixpoint stations_kinematics (times : list (list R)) (beg_cpa : option vec3)
  (kmeas : nat) (rad_cpa_all_stations : list (list vec3))
  : result (list (list R) * list (list R) * list (list npfloat)) :=
  match rad_cpa_all_stations with
  | [] => Ok ([], [], [])
  | rad_cpa_list :: rest =>
      time_data <- getitem times kmeas ;;
      '(length, state_vector_distance) <- station_lengths beg_cpa rad_cpa_list ;;
      velocity <- station_velocity time_data length ;;
      '(ls, svs, vs) <- stations_kinematics times beg_cpa (S kmeas) rest ;;
      Ok (length :: ls, state_vector_distance :: svs, velocity :: vs)
  end.

Definition calcVelocity (self : TrajInput) : result VelocityOutput :=
  '(times, JD_data_cameras, stations_eci_cameras) <-
    station_positions self 0
      (zip3 (camera_lat self) (camera_lon self) (camera_hkm self)) ;;
  '(ra_dec_los_cameras, meas_eci_los_cameras) <-
    lines_of_sight raDec2AltAz_vect altAz2RADec_vect raDec2ECI
      (meastype self) (jdt_ref self) None
      (zip5 JD_data_cameras (meas1 self) (meas2 self)
         (camera_lat self) (camera_lon self)) ;;
  '(rad_cpa_all_stations, beg_cpa) <-
    project_stations cpa_epsilon (state_vect self) (radiant_eci self)
      (combine stations_eci_cameras meas_eci_los_cameras) 0 None [] ;;
  '(lengths, state_vector_distances, velocities) <-
    stations_kinematics times beg_cpa 0 rad_cpa_all_stations ;;
  if fha_velocity self then
    let vavg := if Z.eqb (velmodel self) 0 then Some (vbegin self) else None in
    vb <- fha_vbegin curve_fit_line argsort_rows (maxcameras self)
            times state_vector_distances ;;
    Ok {| times := times; JD_data_cameras := JD_data_cameras;
          stations_eci_cameras := stations_eci_cameras;
          ra_dec_los_cameras := ra_dec_los_cameras;
          meas_eci_los_cameras := meas_eci_los_cameras;
          lengths := lengths; state_vector_distances := state_vector_distances;
          velocities := velocities; vbegin_out := vb; vavg_out := vavg |}
  else
    Ok {| times := times; JD_data_cameras := JD_data_cameras;
          stations_eci_cameras := stations_eci_cameras;
          ra_dec_los_cameras := ra_dec_los_cameras;
          meas_eci_los_cameras := meas_eci_los_cameras;
          lengths := lengths; state_vector_distances := state_vector_distances;
          velocities := velocities; vbegin_out := vbegin self; vavg_out := None |}.

End CalcVelocity.

(* ================================================================= *)
(** ** fitLagIntercept, calcLag and the average velocity of calcAverages *)

(** [int(0.25*len(time))], and all points when that is fewer than four. *)
Definition quart_size_of (n : nat) : nat :=
  let quart_size := Nat.div n 4 in
  if Nat.ltb quart_size 4 then n else quart_size.

Section Lag.

(** [scipy.optimize.curve_fit(f, x, y, p0=[p])] for a model [f x p] of one
    parameter: the fitted parameter and its variance; it can raise.  Taken as
    given. *)
Variable curve_fit1 : (R -> R -> R) -> list R -> list R -> R -> result (R * npfloat).

Definition fitLagIntercept (time length : list R) (v_init initial_intercept : R)
  : result (R * R) :=
  let quart_size := quart_size_of (List.length time) in
  let quart_length := firstn quart_size length in
  let quart_time := firstn quart_size time in
  '(lag_intercept, _) <-
    curve_fit1 (fun x intercept => lineFunc x v_init intercept)
      quart_time quart_length initial_intercept ;;
  Ok (v_init, lag_intercept).

(** The lag of one station, the body of the loop of [calcLag]. *)
Definition station_lag (vbegin : R) (time_data length : list R) : result (list R) :=
  '(m, k) <- fitLagIntercept time_data length (vbegin * 1000) 0 ;;
  np_zipwith Rminus length (map (fun t => lineFunc t m k) time_data).

Definition calcLag (vbegin : R) (times lengths : list (list R))
  : result (list (list R)) :=
  mapM (fun p => station_lag vbegin (fst p) (snd p)) (combine times lengths).

End Lag.

(** Line 1066: the average velocity of one station. *)
Definition station_average_velocity (length time_data : list R) : result npfloat :=
  l_last <- getlast length ;;
  l_first <- getitem length 0 ;;
  t_last <- getlast time_data ;;
  t_first <- getitem time_data 0 ;;
  Ok (np_div (l_last - l_first) (t_last - t_first)).

(** Lines 1060-1066: the list of the stations' average velocities (the ECI
    coordinates that the same loop computes are left out). *)
Fixpoint v_avg_list_of (lengths times : list (list R)) (kmeas_values : list nat)
  : result (list npfloat) :=
  match kmeas_values with
  | [] => Ok []
  | kmeas :: rest =>
      length <- getitem lengths kmeas ;;
      time_data <- getitem times kmeas ;;
      v <- station_average_velocity length time_data ;;
      vs <- v_avg_list_of lengths times rest ;;
      Ok (v :: vs)
  end.

(* ================================================================= *)
(** ** Formats/Milig.py: StationData and loadMiligInput *)

(** *** Text: slices, [strip], [float] and [int] *)

(** [s[a:b]] for [0 <= a <= b]; like Python's, it stops at the end of [s]. *)
Definition slice (s : string) (a b : nat) : string := substring a (b - a) s.

(** [s[a:]] *)
Definition slice_from (s : string) (a : nat) : string :=
  substring a (String.length s - a) s.

Definition is_space (c : ascii) : bool :=
  let n := nat_of_ascii c in
  Nat.eqb n 32 || (Nat.leb 9 n && Nat.leb n 13).

Definition is_digit (c : ascii) : bool :=
  let n := nat_of_ascii c in Nat.leb 48 n && Nat.leb n 57.

Fixpoint lstrip (s : list ascii) : list ascii :=
  match s with
  | c :: s' => if is_space c then lstrip s' else s
  | [] => []
  end.

(** [s.strip()] *)
Definition strip_chars (s : list ascii) : list ascii :=
  rev (lstrip (rev (lstrip s))).

Definition strip (s : string) : string :=
  string_of_list_ascii (strip_chars (list_ascii_of_string s)).

(** The digits at the head of [s]: their value continuing [acc], how many
    there are, and what follows them. *)
Fixpoint read_digits (s : list ascii) (acc : Z) (count : nat)
  : Z * nat * list ascii :=
  match s with
  | c :: s' =>
      if is_digit c
      then read_digits s' (10 * acc + Z.of_nat (nat_of_ascii c - 48))%Z (S count)
      else (acc, count, s)
  | [] => (acc, count, [])
  end.

(** A sign at the head of [s]: [true] for a minus. *)
Definition read_sign (s : list ascii) : bool * list ascii :=
  match s with
  | c :: s' =>
      if Ascii.eqb c "-" then (true, s')
      else if Ascii.eqb c "+" then (false, s')
      else (false, s)
  | [] => (false, [])
  end.

(** A fixed-point number: the integer [mantissa] and the number of decimals,
    [mantissa / 10^decimals]. *)
Definition decimal : Type := (Z * nat)%type.

(** The fixed-point literals that [float] accepts: blanks around, a sign,
    digits, a point, digits, with a digit on one side of the point at least.
    MILIG files hold such literals.  The other spellings that Python accepts
    (exponents, [inf], [nan], underscores) are not modelled and give [None]. *)
Definition parse_decimal (s : string) : option decimal :=
  let '(neg, s1) := read_sign (strip_chars (list_ascii_of_string s)) in
  let '(ip, n_int, s2) := read_digits s1 0%Z 0 in
  let '(m, n_frac, s3) :=
    match s2 with
    | c :: s2' => if Ascii.eqb c "." then read_digits s2' ip 0 else (ip, 0%nat, s2)
    | [] => (ip, 0%nat, [])
    end in
  match s3 with
  | [] =>
      if Nat.eqb (n_int + n_frac) 0 then None
      else Some (if neg then (- m)%Z else m, n_frac)
  | _ :: _ => None
  end.

(** [int(s)] for a decimal literal with blanks around and a sign. *)
Definition py_int (s : string) : result Z :=
  let '(neg, s1) := read_sign (strip_chars (list_ascii_of_string s)) in
  let '(n, count, s2) := read_digits s1 0%Z 0 in
  match s2 with
  | [] =>
      if Nat.eqb count 0 then Raise ValueError
      else Ok (if neg then (- n)%Z else n)
  | _ :: _ => Raise ValueError
  end.

Definition decimal_to_R (d : decimal) : R := IZR (fst d) / 10 ^ snd d.

(** [float(s)] *)
Definition py_float (s : string) : result R :=
  match parse_decimal s with
  | Some d => Ok (decimal_to_R d)
  | None => Raise ValueError
  end.

(** [np.radians] *)
Definition radians (deg : R) : R := deg * PI / 180.

(** *** StationData *)

Record StationData : Type := {
  station_id : string;
  lon : R;
  lat : R;
  height : R;
  time_data : list R;
  azim_data : list R;
  zangle_data : list R;
  ignore_picks : list Z
}.

(** [StationData.__init__(self, station_id, lon, lat, height)] *)
Definition StationData_init (station_id : string) (lon lat height : R) : StationData :=
  {| station_id := station_id;
     lon := lon;
     lat := lat;
     height := height;
     time_data := [];
     azim_data := [];
     zangle_data := [];
     ignore_picks := [] |}.

(** The four [append]s of lines 164-167 on one station. *)
Definition add_pick (st : StationData) (time azim zangle : R) (bad_pick : Z)
  : StationData :=
  {| station_id := station_id st;
     lon := lon st;
     lat := lat st;
     height := height st;
     time_data := time_data st ++ [time];
     azim_data := azim_data st ++ [azim];
     zangle_data := zangle_data st ++ [zangle];
     ignore_picks := ignore_picks st ++ [bad_pick] |}.

(** [l[i] = f(l[i])] on a list that holds index [i]. *)
Fixpoint update_at {A : Type} (l : list A) (i : nat) (f : A -> A) : result (list A) :=
  match l, i with
  | [], _ => Raise IndexError
  | x :: l', O => Ok (f x :: l')
  | x :: l', S i' => l'' <- update_at l' i' f ;; Ok (x :: l'')
  end.

(** *** loadMiligInput *)

(** Lines 107-138: a station header line.  The call of line 130 passes
    [(station_id, lat, lon, height)] by position. *)
Definition read_station_line (line : string) : result StationData :=
  let station_id := strip (slice line 0 3) in
  lat_deg <- py_float (slice line 3 13) ;;
  let lat := radians lat_deg in
  lon_deg <- py_float (slice line 13 23) ;;
  let lon := radians lon_deg in
  height_km <- py_float (slice line 23 28) ;;
  let height := height_km * 1000 in
  Ok (StationData_init station_id lat lon height).

(** Lines 140-167: a pick line; its result is the pick and whether it was
    the last one of its station. *)
Definition read_pick_line (line : string) : result (R * R * R * Z * bool) :=
  azim_deg <- py_float (slice line 0 9) ;;
  let azim := radians azim_deg in
  zangle_deg <- py_float (slice line 9 17) ;;
  let zangle := radians zangle_deg in
  last_pick <- py_int (slice line 17 20) ;;
  bad_pick <- py_int (slice line 20 23) ;;
  time <- py_float (slice line 23 31) ;;
  Ok (time, azim, zangle, bad_pick, Z.eqb last_pick 9).

(** [line.replace('\n', '').replace('\r', '')] *)
Definition drop_newlines (line : string) : string :=
  string_of_list_ascii
    (filter (fun c => negb (Nat.eqb (nat_of_ascii c) 10 || Nat.eqb (nat_of_ascii c) 13))
       (list_ascii_of_string line)).

(** Lines 100-167: the loop over the lines after the first one, with the
    locals [stations], [stat_ind] and [new_station]. *)
Fixpoint read_lines (lines : list string) (stations : list StationData)
  (stat_ind : nat) (new_station : bool) : result (list StationData) :=
  match lines with
  | [] => Ok stations
  | line :: rest =>
      if String.eqb (drop_newlines line) "-1" then Ok stations
      else if new_station then
        station <- read_station_line line ;;
        let stations := stations ++ [station] in
        let stat_ind := (length stations - 1)%nat in
        read_lines rest stations stat_ind false
      else
        '(time, azim, zangle, bad_pick, last) <- read_pick_line line ;;
        stations <- update_at stations stat_ind
                      (fun st => add_pick st time azim zangle bad_pick) ;;
        read_lines rest stations stat_ind last
  end.

(** The lines of a text, each with its newline, as iterating over a file
    gives them. *)
Fixpoint split_lines (s : list ascii) (cur : list ascii) : list string :=
  match s with
  | [] => match cur with [] => [] | _ => [string_of_list_ascii (rev cur)] end
  | c :: s' =>
      if Nat.eqb (nat_of_ascii c) 10
      then string_of_list_ascii (rev (c :: cur)) :: split_lines s' []
      else split_lines s' (c :: cur)
  end.

Section LoadMilig.

(** [date2JD] of [wmpl.Utils.TrajConversions] (year, month, day, hour,
    minute, second), not among the sources, taken as given. *)
Variable date2JD : R -> R -> R -> R -> R -> R -> R.

(** [loadMiligInput] on the text of the file: the first line gives the
    reference time, the others the stations. *)
Definition loadMiligInput (text : string) : result (R * list StationData) :=
  let fireball_date := slice text 0 8 in
  let fireball_time := slice text 8 16 in
  year <- py_float (slice fireball_date 0 4) ;;
  month <- py_float (slice fireball_date 4 6) ;;
  date <- py_float (slice fireball_date 6 8) ;;
  hh <- py_float (slice fireball_time 0 2) ;;
  mm <- py_float (slice fireball_time 2 4) ;;
  ss <- py_float (slice_from fireball_time 4) ;;
  let jdt_ref := date2JD year month date hh mm ss in
  gst <- py_float (slice text 16 26) ;;
  match split_lines (list_ascii_of_string (slice_from text 36)) [] with
  | [] => Ok (jdt_ref, [])
  | _ :: lines =>
      stations <- read_lines lines [] 0 true ;;
      Ok (jdt_ref, stations)
  end.

End LoadMilig.

(* ================================================================= *)
(** ** Utils/Pickling.py and GuralTrajectory.savePickle *)

(** The values an attribute can be bound to, as far as their truth value
    goes: [None], booleans, integers, floats, strings, and references to
    other objects, which are true unless their class says otherwise (the
    ctypes library handle and structure that [traj_lib] and [traj] hold
    are). *)
Inductive pyval : Type :=
| PNone
| PBool (b : bool)
| PInt (z : Z)
| PFloat (r : R)
| PStr (s : string)
| PRef (addr : nat).

(** [bool(v)], what [if v:] tests. *)
Definition truthy (v : pyval) : bool :=
  match v with
  | PNone => false
  | PBool b => b
  | PInt z => negb (Z.eqb z 0)
  | PFloat r => if Req_dec_T r 0 then false else true
  | PStr s => negb (String.eqb s "")
  | PRef _ => true
  end.

(** The instance dictionary of an object, in insertion order. *)
Definition attrs : Type := list (string * pyval).

Fixpoint getattr (self : attrs) (name : string) : option pyval :=
  match self with
  | [] => None
  | (k, v) :: rest => if String.eqb k name then Some v else getattr rest name
  end.

(** [del self.name], where the attribute exists. *)
Fixpoint delattr (self : attrs) (name : string) : attrs :=
  match self with
  | [] => []
  | (k, v) :: rest =>
      if String.eqb k name then rest else (k, v) :: delattr rest name
  end.

(** [self.name = v]: in place when the attribute exists, at the end
    otherwise. *)
Fixpoint setattr (self : attrs) (name : string) (v : pyval) : attrs :=
  match self with
  | [] => [(name, v)]
  | (k, w) :: rest =>
      if String.eqb k name then (k, v) :: rest else (k, w) :: setattr rest name v
  end.

(** Lines 1641-1645 and 1647-1651: [try: backup = self.name; del self.name]
    with [except AttributeError: backup = None]. *)
Definition backup_and_remove (self : attrs) (name : string) : pyval * attrs :=
  match getattr self name with
  | Some v => (v, delattr self name)
  | None => (PNone, self)
  end.

Section SavePickle.

(** The file system, and what the module does to it through [mkdirP] (of
    [wmpl.Utils.OSTools], not among the sources), [os.path.join], and
    [open] with [pickle.dump], all taken as given.  Pickling reads the
    object and does not change it. *)
Variable FS : Type.
Variable mkdirP : string -> FS -> result FS.
Variable path_join : string -> string -> string.
Variable dump_to_file : string -> attrs -> FS -> result FS.

(** [Pickling.savePickle(obj, dir_path, file_name)] *)
Definition Pickling_savePickle (obj : attrs) (dir_path file_name : string) (fs : FS)
  : result FS :=
  fs1 <- mkdirP dir_path fs ;;
  dump_to_file (path_join dir_path file_name) obj fs1.

(** [GuralTrajectory.savePickle(self, dir_path, file_name)]: the object and
    the file system after the call has returned. *)
Definition GuralTrajectory_savePickle (self : attrs) (dir_path file_name : string)
  (fs : FS) : result (attrs * FS) :=
  let '(backup_traj_lib, self) := backup_and_remove self "traj_lib" in
  let '(backup_traj, self) := backup_and_remove self "traj" in
  fs' <- Pickling_savePickle self dir_path file_name fs ;;
  let self := if truthy backup_traj_lib
              then setattr self "traj_lib" backup_traj_lib else self in
  let self := if truthy backup_traj
              then setattr self "traj" backup_traj else self in
  Ok (self, fs').

End SavePickle.

(* ================================================================= *)
(** ** What the specification says, and instances of the routines taken as given *)

(** The entry before index [i], zero before the first: [length[-1] := 0]
    and [t[-1] := 0] of the specification (4.4). *)
Definition previous (a : list R) (i : nat) : R :=
  match i with
  | O => 0
  | S j => nth j a 0
  end.

(** What [time_diffs[time_diffs == 0] = eps] leaves of a difference. *)
Definition guarded (d : R) : R := if Req_dec_T d 0 then float64_eps else d.

(** The size of the fitted prefix as the specification words it (4.4): the
    first quarter of the points, four points at least. *)
Definition quart_size_spec (n : nat) : nat := Nat.max 4 (Nat.div n 4).

(** [fitLagIntercept] as the specification words it: the same fit on a
    prefix of [quart_size_spec] points. *)
Definition fitLagIntercept_spec
  (curve_fit1 : (R -> R -> R) -> list R -> list R -> R -> result (R * npfloat))
  (time length : list R) (v_init initial_intercept : R) : result (R * R) :=
  let quart_size := quart_size_spec (List.length time) in
  '(lag_intercept, _) <-
    curve_fit1 (fun x intercept => lineFunc x v_init intercept)
      (firstn quart_size time) (firstn quart_size length) initial_intercept ;;
  Ok (v_init, lag_intercept).

(** The sum of the squared residuals of the line of slope [v] and
    intercept [b] on the points [(x, y)]. *)
Fixpoint sum_sq_residuals (v b : R) (pts : list (R * R)) : R :=
  match pts with
  | [] => 0
  | (x, y) :: rest => (y - lineFunc x v b) ^ 2 + sum_sq_residuals v b rest
  end.

Fixpoint Rsum (l : list R) : R :=
  match l with
  | [] => 0
  | x :: l' => x + Rsum l'
  end.

(** The mean of [y - f x 0] over the points: for [f x k = v*x + k] it is the
    least-squares intercept. *)
Definition mean_offset (f : R -> R -> R) (xs ys : list R) : R :=
  Rsum (map (fun p => snd p - f (fst p) 0) (combine xs ys)) / INR (length xs).

(** An exact one-parameter fit for models [f x k = g x + k]; it refuses
    empty data and columns of different sizes. *)
Definition exact_intercept_fit (f : R -> R -> R) (xs ys : list R) (p0 : R)
  : result (R * npfloat) :=
  match xs with
  | [] => Raise ValueError
  | _ :: _ =>
      if Nat.eqb (length xs) (length ys)
      then Ok (mean_offset f xs ys, Fin 0)
      else Raise ValueError
  end.

(** Insertion sort of rows by their first column. *)
Fixpoint insert_row (r : R * R) (rows : list (R * R)) : list (R * R) :=
  match rows with
  | [] => [r]
  | r' :: rest =>
      if Rle_dec (fst r) (fst r') then r :: rows else r' :: insert_row r rest
  end.

Fixpoint sort_rows (rows : list (R * R)) : list (R * R) :=
  match rows with
  | [] => []
  | r :: rest => insert_row r (sort_rows rest)
  end.

(** The standard deviation of the intercept of a fit, line 995. *)
Definition stddev_of (f : (R * R) * (npfloat * npfloat)) : npfloat :=
  np_sqrt (snd (snd f)).

(** The comparisons of lines 998-1000 over the fits of the candidates, in
    the order of the loop, from the best standard deviation and solution so
    far. *)
Fixpoint keep_lowest (fits : list ((R * R) * (npfloat * npfloat)))
  (best_stddev : npfloat) (best_solution : option (R * R))
  : npfloat * option (R * R) :=
  match fits with
  | [] => (best_stddev, best_solution)
  | (popt, pcov_diag) :: rest =>
      if np_lt (np_sqrt (snd pcov_diag)) best_stddev
      then keep_lowest rest (np_sqrt (snd pcov_diag)) (Some popt)
      else keep_lowest rest best_stddev best_solution
  end.

(** A variance that a covariance matrix can hold: a non-negative number, or
    the infinity that [curve_fit] writes when it cannot estimate it. *)
Definition np_nonneg (x : npfloat) : Prop :=
  match x with
  | Fin r => 0 <= r
  | PInf => True
  | NInf | NaN => False
  end.

(** Rows in the order of their times. *)
Definition by_time (a b : R * R) : Prop := fst a <= fst b.

(** A fit that looks at nothing. *)
Definition constant_line_fit (ts ds : list R) : result ((R * R) * (npfloat * npfloat)) :=
  Ok ((20000, 0), (Fin 1, Fin 4)).

(** The candidates of the first-half-average mode as the specification
    words them (4.5).  The stations of a candidate: all of them, or all but
    the excluded one. *)
Definition without_station {A : Type} (excluded : option nat) (stations : list A)
  : list A :=
  match excluded with
  | Some k => firstn k stations ++ skipn (S k) stations
  | None => stations
  end.

(** The (time, state-vector distance) pairs of the stations of a candidate,
    pooled. *)
Definition pooled_pairs (excluded : option nat) (times svd : list (list R))
  : list (R * R) :=
  concat (map (fun station => combine (fst station) (snd station))
            (without_station excluded (combine times svd))).

(** The earliest half of rows that are in the order of their times. *)
Definition earliest_half (sorted : list (R * R)) : list (R * R) :=
  firstn (Nat.div (length sorted) 2) sorted.

(** The fit of a candidate: the pooled pairs are sorted by time and a line
    is fitted to their earliest half. *)
Definition fit_earliest_half
  (curve_fit_line : list R -> list R -> result ((R * R) * (npfloat * npfloat)))
  (argsort_rows : list (R * R) -> list (R * R)) (pool : list (R * R))
  : result ((R * R) * (npfloat * npfloat)) :=
  let half := earliest_half (argsort_rows pool) in
  curve_fit_line (map fst half) (map snd half).

(** A fit that looks at its data, for examples: the line through the first
    and the last point, with the sum of the squared residuals as the
    variance of the intercept. *)
Definition secant_line (ts ds : list R) : (R * R) * (npfloat * npfloat) :=
  let slope := (last ds 0 - hd 0 ds) / (last ts 0 - hd 0 ts) in
  let intercept := hd 0 ds - slope * hd 0 ts in
  ((slope, intercept), (Fin 0, Fin (sum_sq_residuals slope intercept (combine ts ds)))).

Definition secant_line_fit (ts ds : list R) : result ((R * R) * (npfloat * npfloat)) :=
  Ok (secant_line ts ds).

(** Three stations of three points each, on the line of slope 10 but for
    the first point of the first station. *)
Definition three_station_times : list (list R) := [[0; 3; 6]; [1; 4; 7]; [2; 5; 8]].

Definition three_station_distances : list (list R) :=
  [[6; 30; 60]; [10; 40; 70]; [20; 50; 80]].

(** The object that is pickled: [self] once the two [try] blocks have run. *)
Definition without_solver_handles (self : attrs) : attrs :=
  snd (backup_and_remove (snd (backup_and_remove self "traj_lib")) "traj").

(** What an attribute is bound to once [savePickle] has returned: what it
    was bound to before, except that a [traj_lib] or [traj] bound to a value
    that is false is gone. *)
Definition restored_value (self : attrs) (name : string) : option pyval :=
  match getattr self name with
  | Some v =>
      if (String.eqb "traj_lib" name || String.eqb "traj" name) && negb (truthy v)
      then None else Some v
  | None => None
  end.

(** An object as [__init__] leaves it, with a library handle and a solver
    structure. *)
Definition loaded_trajectory : attrs :=
  [("maxcameras", PInt 2); ("traj_lib", PRef 1); ("traj", PRef 2)]%string.

(** A file system that keeps, for every path written, the object pickled
    there; directories always exist. *)
Definition mem_fs : Type := list (string * attrs).

Definition mem_mkdirP (dir_path : string) (fs : mem_fs) : result mem_fs := Ok fs.

Definition mem_path_join (dir_path file_name : string) : string :=
  (dir_path ++ "/" ++ file_name)%string.

Definition mem_dump (path : string) (obj : attrs) (fs : mem_fs) : result mem_fs :=
  Ok ((path, obj) :: fs).

(** A station of twelve points whose length stays at zero for four samples
    and is twelve afterwards. *)
Definition twelve_times : list R := [0; 1; 2; 3; 4; 5; 6; 7; 8; 9; 10; 11].

Definition twelve_lengths : list R := [0; 0; 0; 0; 12; 12; 12; 12; 12; 12; 12; 12].

(** A MILIG file of one station, 0.3 km high, whose header line holds 45 in
    columns 3-13 and 100 in columns 13-23, with one pick. *)
Definition newline : string := String "010" EmptyString.

Definition milig_station_line : string :=
  ("  1" ++ " 45.000000" ++ "100.000000" ++ "0.300" ++ " 1.00" ++ newline)%string.

Definition milig_example : string :=
  ("20161007" ++ "052749.0" ++ "   100.000" ++ "     1.000" ++ newline
   ++ milig_station_line
   ++ " 10.00000" ++ "20.00000" ++ "  9" ++ "  0" ++ "0.500000" ++ newline
   ++ "-1" ++ newline)%string.



(** An object whose [traj] attribute is bound to [None], as after a caller
    has released the solver structure by hand. *)
Definition released_trajectory : attrs :=
  [("maxcameras", PInt 2); ("traj_lib", PRef 1); ("traj", PNone); ("vbegin", PRef 2)]%string.

(* ================================================================= *)
(** ** Further definitions for the properties of the rest of the code *)

(** The four lists of picks of a station have one length. *)
Definition picks_aligned (st : StationData) : Prop :=
  length (azim_data st) = length (time_data st) /\
  length (zangle_data st) = length (time_data st) /\
  length (ignore_picks st) = length (time_data st).

(** [st'] is [st] with picks appended: the header fields are the same. *)
Definition same_station (st st' : StationData) : Prop :=
  station_id st' = station_id st /\ lon st' = lon st /\ lat st' = lat st /\
  height st' = height st /\
  exists more, time_data st' = time_data st ++ more.


(** A pick line: azimuth 10, zenith angle 20, last pick of its station, not
    a bad pick, at 0.5 s. *)
Definition milig_pick_line : string :=
  (" 10.00000" ++ "20.00000" ++ "  9" ++ "  0" ++ "0.500000" ++ newline)%string.

(** What the loops of lines 871-897 keep true of the points projected so
    far, of [max_ht] and of [beg_cpa]. *)
Definition begin_point_invariant (seen : list vec3) (max_ht : R) (beg_cpa : option vec3)
  : Prop :=
  (forall c, In c seen -> vectMag c <= max_ht) /\
  match beg_cpa with
  | Some b => In b seen /\ vectMag b = max_ht
  | None => max_ht = 0
  end.

(** *** Utils/Pickling.py: loadPickle *)

(** [hasattr(p, name)], on the instance dictionary. *)
Definition hasattr (p : attrs) (name : string) : bool :=
  match getattr p name with
  | Some _ => true
  | None => false
  end.

(** What the two spellings of [uncertainties] are bound to after the tests of
    lines 54-58: the value of the right spelling, else that of the typo. *)
Definition uncertainties_value (p : attrs) : option pyval :=
  match getattr p "uncertainties" with
  | Some v => Some v
  | None => getattr p "uncertanties"
  end.

Section LoadPickle.

(** The values that lines 69 and 73 assign, here parameters (the code
    assigns the floats [1.0] and [0.0], that is [PFloat 1] and [PFloat 0]),
    the method [fixMissingParameters] of the orbit object, and [pickle.load]
    on an opened file, taken as given. *)
Variable gravity_factor_default : pyval.
Variable v0z_default : pyval.
Variable fixMissingParameters : pyval -> result unit.
Variable FS : Type.
Variable path_join : string -> string -> string.
Variable load_file : string -> FS -> result attrs.

(** Lines 52-74: what [loadPickle] does to the object it has unpickled. *)
Definition loadPickle_fixups (p : attrs) : result attrs :=
  let p := match getattr p "uncertainties" with
           | Some v => setattr p "uncertanties" v
           | None => p
           end in
  let p := match getattr p "uncertanties" with
           | Some v => setattr p "uncertainties" v
           | None => p
           end in
  if hasattr p "orbit" && hasattr p "observations" then
    _ <- match getattr p "orbit" with
         | Some PNone | None => Ok tt
         | Some orbit => fixMissingParameters orbit
         end ;;
    let p := if hasattr p "gravity_factor" then p
             else setattr p "gravity_factor" gravity_factor_default in
    let p := if hasattr p "v0z" then p else setattr p "v0z" v0z_default in
    Ok p
  else Ok p.

Definition loadPickle (dir_path file_name : string) (fs : FS) : result attrs :=
  p <- load_file (path_join dir_path file_name) fs ;;
  loadPickle_fixups p.

End LoadPickle.

(** A trajectory pickled by an old version: the typo spelling only, no
    gravity factor, no [v0z]. *)
Definition old_trajectory_pickle : attrs :=
  [("orbit", PRef 1); ("observations", PRef 2); ("uncertanties", PRef 3)]%string.

(** *** GuralTrajectory.savePickle: the object when the call has ended *)

Section SavePickleOutcome.

Variable FS : Type.
Variable mkdirP : string -> FS -> result FS.
Variable path_join : string -> string -> string.
Variable dump_to_file : string -> attrs -> FS -> result FS.

(** [GuralTrajectory.savePickle] with the object as the call leaves it,
    also when [Pickling.savePickle] raises: nothing catches that exception,
    and the restoring lines are not reached. *)
Definition GuralTrajectory_savePickle_outcome (self : attrs)
  (dir_path file_name : string) (fs : FS) : attrs * result FS :=
  let '(backup_traj_lib, self) := backup_and_remove self "traj_lib" in
  let '(backup_traj, self) := backup_and_remove self "traj" in
  match Pickling_savePickle FS mkdirP path_join dump_to_file self dir_path file_name fs with
  | Raise e => (self, Raise e)
  | Ok fs' =>
      let self := if truthy backup_traj_lib
                  then setattr self "traj_lib" backup_traj_lib else self in
      let self := if truthy backup_traj
                  then setattr self "traj" backup_traj else self in
      (self, Ok fs')
  end.

End SavePickleOutcome.

(** A file system in which no pickle can be written: [pickle.dump] raises
    [TypeError], as it does on an object it cannot pickle. *)
Definition failing_dump (path : string) (obj : attrs) (fs : mem_fs) : result mem_fs :=
  Raise TypeError.

(** *** GuralTrajectory.calcAverages *)

(** [+] on float64 results. *)
Definition np_add (x y : npfloat) : npfloat :=
  match x, y with
  | NaN, _ | _, NaN => NaN
  | PInf, NInf | NInf, PInf => NaN
  | PInf, _ | _, PInf => PInf
  | NInf, _ | _, NInf => NInf
  | Fin a, Fin b => Fin (a + b)
  end.

(** [np.mean] of a list of float64 results: the sum over the count, [nan]
    for an empty list (a warning is printed). *)
Definition np_mean (l : list npfloat) : npfloat :=
  match l with
  | [] => NaN
  | _ :: _ =>
      match fold_left np_add l (Fin 0) with
      | Fin s => Fin (s / INR (length l))
      | other => other
      end
  end.

Definition np_mean_R (l : list R) : npfloat := np_mean (map Fin l).

(** The attributes that [calcAverages] reads besides those of
    [VelocityOutput]. *)
Record ModelArrays : Type := {
  nummeas_lst : list nat;
  model_lat : list (list R);
  model_lon : list (list R);
  model_hkm : list (list R)
}.

Section CalcAverages.

Variable geo2Cartesian : R -> R -> R -> R -> vec3.

(** Lines 1072-1075: the ECI coordinates of the model points of station
    [kmeas]. *)
Fixpoint model_eci_list (m : ModelArrays) (JD_data_cameras : list (list R))
  (kmeas : nat) (js : list nat) : result (list vec3) :=
  match js with
  | [] => Ok []
  | j :: rest =>
      lats <- getitem (model_lat m) kmeas ;;
      la <- getitem lats j ;;
      lons <- getitem (model_lon m) kmeas ;;
      lo <- getitem lons j ;;
      hkms <- getitem (model_hkm m) kmeas ;;
      h <- getitem hkms j ;;
      jds <- getitem JD_data_cameras kmeas ;;
      jd <- getitem jds j ;;
      eci <- model_eci_list m JD_data_cameras kmeas rest ;;
      Ok (geo2Cartesian la lo (1000 * h) jd :: eci)
  end.

(** Lines 1060-1080: the loop over [range(self.maxcameras)]. *)
Fixpoint averages_loop (m : ModelArrays) (lengths times JD_data_cameras : list (list R))
  (kmeas_values : list nat) : result (list npfloat * list (list vec3)) :=
  match kmeas_values with
  | [] => Ok ([], [])
  | kmeas :: rest =>
      length <- getitem lengths kmeas ;;
      time_data <- getitem times kmeas ;;
      v <- station_average_velocity length time_data ;;
      n <- getitem (nummeas_lst m) kmeas ;;
      eci_list <- model_eci_list m JD_data_cameras kmeas (seq 0 n) ;;
      '(vs, ecis) <- averages_loop m lengths times JD_data_cameras rest ;;
      Ok (v :: vs, eci_list :: ecis)
  end.

(** [calcAverages]: the average velocity, the average ECI position and the
    average Julian date. *)
Definition calcAverages (maxcameras : nat) (m : ModelArrays)
  (lengths times JD_data_cameras : list (list R))
  : result (npfloat * (npfloat * npfloat * npfloat) * npfloat) :=
  '(v_avg_list, model_eci_cameras) <-
    averages_loop m lengths times JD_data_cameras (seq 0 maxcameras) ;;
  let v_avg := np_mean v_avg_list in
  let eci_x := map (fun e => fst (fst e)) (concat model_eci_cameras) in
  let eci_y := map (fun e => snd (fst e)) (concat model_eci_cameras) in
  let eci_z := map (fun e => snd e) (concat model_eci_cameras) in
  let eci_avg := (np_mean_R eci_x, np_mean_R eci_y, np_mean_R eci_z) in
  let jd_avg := np_mean (map np_mean_R JD_data_cameras) in
  Ok (v_avg, eci_avg, jd_avg).

End CalcAverages.

(** *** The arrays read back from the solver *)

(** [arr[i] = v] on a one-dimensional array. *)
Fixpoint np_setitem (arr : list R) (i : nat) (v : R) : result (list R) :=
  match arr, i with
  | [], _ => Raise IndexError
  | _ :: rest, O => Ok (v :: rest)
  | x :: rest, S i' => rest' <- np_setitem rest i' v ;; Ok (x :: rest')
  end.

(** The loop [for i in range(n): arr[i] = ptr[i]], over the values of [i]
    still to come.  A ctypes pointer is read at any index: it is a function
    of the index. *)
Fixpoint copy_from_pointer (ptr : nat -> R) (i_values : list nat) (arr : list R)
  : result (list R) :=
  match i_values with
  | [] => Ok arr
  | i :: rest => arr' <- np_setitem arr i (ptr i) ;; copy_from_pointer ptr rest arr'
  end.

(** [double1pointerToArray(ptr, n)], lines 238-257. *)
Definition double1pointerToArray (ptr : nat -> R) (n : nat) : result (list R) :=
  let arr := repeat 0 n in
  copy_from_pointer ptr (seq 0 n) arr.



(** *** The velocity model of the constructor and of solveTrajectoryMILIG *)




(** [solver[-1]] as a string; [IndexError] on the empty string. *)
Definition last_char (s : string) : result string :=
  match rev (list_ascii_of_string s) with
  | c :: _ => Ok (String c EmptyString)
  | [] => Raise IndexError
  end.

(** The solver object that [solveTrajectoryMILIG] builds: [Trajectory], or
    [GuralTrajectory] with its velocity model. *)
Inductive milig_solver : Type :=
| OriginalSolver
| GuralSolver (velmodel : Z).

(** Lines 200-214 of [solveTrajectoryMILIG]: the local [traj] after the
    [if solver == 'original'] / [elif solver.startswith('gural')] chain.
    The chain has no [else]: for another name [traj] stays unbound.  In the
    second branch the velocity model is [int(solver[-1])], and 3 when that
    raises anything. *)
Definition solveTrajectoryMILIG_traj (solver : string) : option milig_solver :=
  if String.eqb solver "original" then Some OriginalSolver
  else if prefix "gural" solver then
    let velmodel :=
      match (c <- last_char solver ;; py_int c) with
      | Ok velmodel => velmodel
      | Raise _ => 3%Z
      end in
    Some (GuralSolver velmodel)
  else None.

(** The solver that line 258 runs, the constructors and [infillTrajectory]
    taken as returning.  An unbound [traj] raises [UnboundLocalError] where
    it is first read, at line 246 or at line 258. *)
Definition solveTrajectoryMILIG_solver (solver : string) : result milig_solver :=
  match solveTrajectoryMILIG_traj solver with
  | Some traj => Ok traj
  | None => Raise (UnboundLocalError "traj")
  end.

(* ================================================================= *)
(** * Properties *)

(** ** Arrays *)

Lemma removelast_length {A : Type} (x : A) (l : list A) :
  length (removelast (x :: l)) = length l.
Proof.
  revert x; induction l as [|y l IH]; intros x; [reflexivity|].
  change (removelast (x :: y :: l)) with (x :: removelast (y :: l)).
  cbn [length]. now rewrite IH.
Qed.

Lemma shift_down_length (a : list R) : length (shift_down a) = length a.
Proof. apply removelast_length. Qed.

Lemma removelast_nth {A : Type} (d : A) (l : list A) (i : nat) :
  (S i < length l)%nat -> nth i (removelast l) d = nth i l d.
Proof.
  revert i; induction l as [|x l IH]; intros i Hi; [simpl in Hi; lia|].
  destruct l as [|y l]; [simpl in Hi; lia|].
  change (removelast (x :: y :: l)) with (x :: removelast (y :: l)).
  destruct i as [|i]; [reflexivity|].
  simpl nth. apply IH. simpl in *. lia.
Qed.

Lemma shift_down_nth (a : list R) (i : nat) :
  (i < length a)%nat -> nth i (shift_down a) 0 = previous a i.
Proof.
  intros Hi. unfold shift_down.
  rewrite removelast_nth by (simpl; lia).
  destruct i; reflexivity.
Qed.

Lemma np_zipwith_same {A B C : Type} (f : A -> B -> C) (a : list A) (b : list B) :
  length a = length b ->
  np_zipwith f a b = Ok (map (fun p => f (fst p) (snd p)) (combine a b)).
Proof.
  intros H. unfold np_zipwith. now rewrite H, Nat.eqb_refl.
Qed.

Lemma zip_nth {A B C : Type} (f : A -> B -> C) (a : list A) (b : list B)
  (da : A) (db : B) (dc : C) (i : nat) :
  length a = length b -> (i < length a)%nat ->
  nth i (map (fun p => f (fst p) (snd p)) (combine a b)) dc = f (nth i a da) (nth i b db).
Proof.
  intros Hl Hi.
  rewrite (nth_indep _ dc (f da db)) by (rewrite length_map, length_combine; lia).
  change (f da db) with ((fun p => f (fst p) (snd p)) (da, db)).
  rewrite map_nth, combine_nth by assumption. reflexivity.
Qed.

Lemma zip_length {A B C : Type} (f : A -> B -> C) (a : list A) (b : list B) :
  length a = length b ->
  length (map (fun p => f (fst p) (snd p)) (combine a b)) = length a.
Proof. intros H. rewrite length_map, length_combine. lia. Qed.

(** ** The guard on the time differences *)

Lemma float64_eps_pos : 0 < float64_eps.
Proof. unfold float64_eps. apply Rinv_0_lt_compat, pow_lt. lra. Qed.

Lemma guarded_nonzero (d : R) : guarded d <> 0.
Proof.
  unfold guarded. destruct (Req_dec_T d 0) as [_|H]; [|exact H].
  pose proof float64_eps_pos. lra.
Qed.

Lemma np_div_nonzero (x y : R) : y <> 0 -> np_div x y = Fin (x / y).
Proof.
  intros H. unfold np_div. destruct (Req_dec_T y 0); [contradiction|reflexivity].
Qed.

Lemma time_diffs_of_ok (time_data : list R) :
  time_diffs_of time_data =
    Ok (replace_zeros float64_eps
          (map (fun p => fst p - snd p) (combine time_data (shift_down time_data)))).
Proof.
  unfold time_diffs_of.
  rewrite np_zipwith_same by (now rewrite shift_down_length). reflexivity.
Qed.

Lemma replace_zeros_nth (a : list R) (i : nat) :
  (i < length a)%nat -> nth i (replace_zeros float64_eps a) 0 = guarded (nth i a 0).
Proof.
  intros Hi. unfold replace_zeros, guarded.
  set (f := fun d : R => if Req_dec_T d 0 then float64_eps else d).
  rewrite (nth_indep _ 0 (f 0)) by (now rewrite length_map).
  now rewrite map_nth.
Qed.

(** C5.  For a station whose time array has repeated timestamps, or a first
    sample at [t = 0], the velocity computation divides by no zero: every
    zero time difference has been replaced by the machine epsilon, every
    other difference is kept, every entry of the velocity array is the
    finite quotient of the length difference by the guarded time difference,
    and the array has one entry for each measurement. *)
Theorem velocity_guards_zero_time_deltas (time_data length_data : list R) :
  length length_data = length time_data ->
  exists velocity,
    station_velocity time_data length_data = Ok velocity /\
    length velocity = length time_data /\
    forall i, (i < length time_data)%nat ->
      let dt := nth i time_data 0 - previous time_data i in
      guarded dt <> 0 /\
      (dt = 0 -> guarded dt = float64_eps) /\
      (dt <> 0 -> guarded dt = dt) /\
      nth i velocity NaN =
        Fin ((nth i length_data 0 - previous length_data i) / guarded dt).
Proof.
  intros Hlen.
  unfold station_velocity.
  rewrite np_zipwith_same by (now rewrite shift_down_length).
  rewrite time_diffs_of_ok. cbn [bind].
  set (dd := map (fun p => fst p - snd p) (combine length_data (shift_down length_data))).
  set (td := map (fun p => fst p - snd p) (combine time_data (shift_down time_data))).
  assert (Hdd : length dd = length time_data).
  { unfold dd. rewrite zip_length by (now rewrite shift_down_length). exact Hlen. }
  assert (Htd : length td = length time_data).
  { unfold td. now rewrite zip_length by (now rewrite shift_down_length). }
  assert (Hrz : length (replace_zeros float64_eps td) = length time_data).
  { unfold replace_zeros. now rewrite length_map. }
  rewrite np_zipwith_same by congruence.
  eexists. split; [reflexivity|]. split.
  { rewrite zip_length; congruence. }
  intros i Hi. set (dt := nth i time_data 0 - previous time_data i).
  split; [apply guarded_nonzero|].
  split; [intros H0; unfold guarded; now destruct (Req_dec_T dt 0)|].
  split; [intros H0; unfold guarded; now destruct (Req_dec_T dt 0)|].
  rewrite (zip_nth np_div dd (replace_zeros float64_eps td) 0 0 NaN i)
    by (congruence || lia).
  rewrite replace_zeros_nth by lia.
  unfold dd, td.
  rewrite (zip_nth Rminus length_data (shift_down length_data) 0 0 0 i)
    by (rewrite ?shift_down_length; lia).
  rewrite (zip_nth Rminus time_data (shift_down time_data) 0 0 0 i)
    by (rewrite ?shift_down_length; lia).
  rewrite !shift_down_nth by lia.
  fold dt. apply np_div_nonzero, guarded_nonzero.
Qed.

(** A station that starts at [t = 0] and repeats that timestamp. *)
Lemma velocity_guards_zero_time_deltas_witness :
  exists velocity,
    station_velocity [0; 0; 1] [0; 5; 7] = Ok velocity /\
    length velocity = 3%nat /\
    forall i, (i < 3)%nat ->
      let dt := nth i [0; 0; 1] 0 - previous [0; 0; 1] i in
      guarded dt <> 0 /\
      (dt = 0 -> guarded dt = float64_eps) /\
      (dt <> 0 -> guarded dt = dt) /\
      nth i velocity NaN =
        Fin ((nth i [0; 5; 7] 0 - previous [0; 5; 7] i) / guarded dt).
Proof.
  apply (velocity_guards_zero_time_deltas [0; 0; 1] [0; 5; 7]). reflexivity.
Defined.

(** ** Along-track lengths *)

Lemma vectMag_self (c : vec3) : vectMag (vsub c c) = 0.
Proof.
  destruct c as [[x y] z]. unfold vectMag, vsub, vdot.
  replace ((x - x) * (x - x) + (y - y) * (y - y) + (z - z) * (z - z)) with 0 by ring.
  apply sqrt_0.
Qed.

Lemma vectMag_nonneg (a : vec3) : 0 <= vectMag a.
Proof. apply sqrt_pos. Qed.

(** After the first pass the loop is two maps over the remaining points. *)
Lemma lengths_loop_later (bc rp : vec3) (l : list vec3) :
  forall (i : nat) (a1 a2 : list R),
    lengths_loop (Some bc) (S i) (Some rp) l a1 a2 =
      Ok (a1 ++ map (fun c => vectMag (vsub rp c)) l,
          a2 ++ map (fun c => vectMag (vsub bc c)) l).
Proof.
  induction l as [|c l IH]; intros i a1 a2.
  - simpl. now rewrite !app_nil_r.
  - cbn [lengths_loop Nat.eqb]. rewrite IH.
    now rewrite <- !app_assoc.
Qed.

Lemma station_lengths_ok (bc c0 : vec3) (rest : list vec3) :
  station_lengths (Some bc) (c0 :: rest) =
    Ok (map (fun c => vectMag (vsub c0 c)) (c0 :: rest),
        map (fun c => vectMag (vsub bc c)) (c0 :: rest)).
Proof.
  unfold station_lengths. cbn [lengths_loop Nat.eqb].
  now rewrite lengths_loop_later.
Qed.

(** C8.  For a station with at least one projected point, the length array is
    [length[i] = |CPA[0] - CPA[i]|], measured from the station's own first
    point, so [length[0]] is zero; and lengths need not grow with the index:
    a station whose third point lies between its first two has a smaller
    third length than second.  (The same loop measures the distance from the
    begin point of the trajectory; where the run has found none, it raises
    and no length array is stored.) *)
Theorem along_track_length_from_first_point :
  (forall (beg_cpa c0 : vec3) (rest : list vec3),
      exists length_data svd,
        station_lengths (Some beg_cpa) (c0 :: rest) = Ok (length_data, svd) /\
        length length_data = length (c0 :: rest) /\
        (forall i, (i < length (c0 :: rest))%nat ->
           nth i length_data 0 = vectMag (vsub c0 (nth i (c0 :: rest) c0))) /\
        nth 0 length_data 1 = 0) /\
  (forall (c0 : vec3) (rest : list vec3),
      station_lengths None (c0 :: rest) = Raise TypeError) /\
  (exists (beg_cpa : vec3) (cpas : list vec3) length_data svd,
      station_lengths (Some beg_cpa) cpas = Ok (length_data, svd) /\
      nth 2 length_data 0 < nth 1 length_data 0).
Proof.
  split; [|split; [reflexivity|]].
  - intros bc c0 rest. rewrite station_lengths_ok.
    eexists; eexists. split; [reflexivity|]. split; [now rewrite length_map|]. split.
    + intros i Hi.
      rewrite (nth_indep _ 0 ((fun c => vectMag (vsub c0 c)) c0))
        by (now rewrite length_map).
      now rewrite (map_nth (fun c => vectMag (vsub c0 c))).
    + cbn [map nth]. apply vectMag_self.
  - exists (0, 0, 0), [(0, 0, 0); (2, 0, 0); (1, 0, 0)].
    rewrite station_lengths_ok.
    eexists; eexists. split; [reflexivity|].
    cbn [map nth]. unfold vectMag, vsub, vdot.
    apply sqrt_lt_1_alt. lra.
Qed.

(** ** Least squares on the intercept *)

(** The offsets [y - v*x] of the points from the line through the origin. *)
Lemma sum_sq_residuals_shift (v b b' : R) (pts : list (R * R)) :
  sum_sq_residuals v b pts =
    sum_sq_residuals v b' pts
    + 2 * (b' - b) * (Rsum (map (fun p => snd p - lineFunc (fst p) v 0) pts)
                      - INR (length pts) * b')
    + INR (length pts) * (b - b') ^ 2.
Proof.
  induction pts as [|[x y] pts IH].
  - simpl. ring.
  - cbn [sum_sq_residuals map Rsum length fst snd]. rewrite IH, S_INR.
    unfold lineFunc. ring.
Qed.

(** The mean offset of a non-empty set of points is a least-squares
    intercept, and the only one. *)
Lemma mean_is_least_squares (v m : R) (pts : list (R * R)) :
  INR (length pts) * m = Rsum (map (fun p => snd p - lineFunc (fst p) v 0) pts) ->
  forall b, sum_sq_residuals v m pts <= sum_sq_residuals v b pts.
Proof.
  intros Hm b. rewrite (sum_sq_residuals_shift v b m pts), <- Hm.
  pose proof (pos_INR (length pts)) as Hn.
  pose proof (pow2_ge_0 (b - m)) as Hsq.
  nra.
Qed.

Lemma least_squares_is_mean (v m b : R) (pts : list (R * R)) :
  pts <> [] ->
  INR (length pts) * m = Rsum (map (fun p => snd p - lineFunc (fst p) v 0) pts) ->
  (forall b', sum_sq_residuals v b pts <= sum_sq_residuals v b' pts) ->
  b = m.
Proof.
  intros Hne Hm Hmin. specialize (Hmin m).
  rewrite (sum_sq_residuals_shift v b m pts), <- Hm in Hmin.
  assert (Hn : 0 < INR (length pts)).
  { apply lt_0_INR. destruct pts; [contradiction|simpl; lia]. }
  assert (Hsq : (b - m) ^ 2 <= 0) by nra.
  pose proof (pow2_ge_0 (b - m)).
  assert (H0 : (b - m) ^ 2 = 0) by lra.
  simpl in H0. rewrite Rmult_1_r in H0.
  apply Rmult_integral in H0. lra.
Qed.

Lemma quart_size_of_cases (n : nat) :
  ((16 <= n)%nat -> quart_size_of n = Nat.div n 4) /\
  ((n < 16)%nat -> quart_size_of n = n).
Proof.
  unfold quart_size_of. split; intros H.
  - assert (4 <= n / 4)%nat by (apply (Nat.div_le_lower_bound n 4 4); lia).
    destruct (Nat.ltb_spec (n / 4) 4); [lia|reflexivity].
  - assert (n / 4 < 4)%nat by (apply Nat.Div0.div_lt_upper_bound; lia).
    destruct (Nat.ltb_spec (n / 4) 4); [reflexivity|lia].
Qed.

Lemma quart_size_of_pos (n : nat) : (0 < n)%nat -> (0 < quart_size_of n <= n)%nat.
Proof.
  intros Hn. unfold quart_size_of.
  destruct (Nat.ltb_spec (n / 4) 4); [lia|].
  split; [lia|]. apply Nat.Div0.div_le_upper_bound. lia.
Qed.

(** The exact fit meets what is asked of [curve_fit] below. *)
Lemma exact_intercept_fit_least_squares (v : R) (xs ys : list R) (p0 b : R) (var : npfloat) :
  exact_intercept_fit (fun x k => lineFunc x v k) xs ys p0 = Ok (b, var) ->
  forall b', sum_sq_residuals v b (combine xs ys) <= sum_sq_residuals v b' (combine xs ys).
Proof.
  unfold exact_intercept_fit. destruct xs as [|x xs]; [discriminate|].
  destruct (Nat.eqb_spec (length (x :: xs)) (length ys)) as [Hl|]; [|discriminate].
  intros H; injection H as <- _.
  apply mean_is_least_squares.
  unfold mean_offset. rewrite length_combine, <- Hl, Nat.min_id.
  field. apply not_0_INR. simpl; lia.
Qed.

Lemma exact_intercept_fit_returns (v : R) (xs ys : list R) (p0 : R) :
  xs <> [] -> length xs = length ys ->
  exists b var, exact_intercept_fit (fun x k => lineFunc x v k) xs ys p0 = Ok (b, var).
Proof.
  intros Hne Hl. unfold exact_intercept_fit.
  destruct xs as [|x xs]; [contradiction|].
  rewrite Hl, Nat.eqb_refl. eauto.
Qed.

(** ** The intercept of the lag line *)

Section LagIntercept.

Variable curve_fit1 : (R -> R -> R) -> list R -> list R -> R -> result (R * npfloat).

(** What [curve_fit] is relied on for: on a line of fixed slope it returns a
    least-squares intercept, and it returns one for every non-empty pair of
    columns of one size. *)
Hypothesis curve_fit1_least_squares :
  forall (v : R) (xs ys : list R) (p0 b : R) (var : npfloat),
    curve_fit1 (fun x k => lineFunc x v k) xs ys p0 = Ok (b, var) ->
    forall b', sum_sq_residuals v b (combine xs ys) <= sum_sq_residuals v b' (combine xs ys).

Hypothesis curve_fit1_returns :
  forall (v : R) (xs ys : list R) (p0 : R),
    xs <> [] -> length xs = length ys ->
    exists b var, curve_fit1 (fun x k => lineFunc x v k) xs ys p0 = Ok (b, var).

(** The fit of [fitLagIntercept]: which points it uses and what it returns. *)
Lemma fitLagIntercept_ok (time length_data : list R) (v_init p0 : R) :
  time <> [] -> length length_data = length time ->
  let pts := firstn (quart_size_of (length time)) (combine time length_data) in
  exists b,
    fitLagIntercept curve_fit1 time length_data v_init p0 = Ok (v_init, b) /\
    pts <> [] /\
    (forall b', sum_sq_residuals v_init b pts <= sum_sq_residuals v_init b' pts) /\
    INR (length pts) * b = Rsum (map (fun p => snd p - lineFunc (fst p) v_init 0) pts).
Proof.
  intros Hne Hlen pts.
  assert (Hn : (0 < length time)%nat) by (destruct time; [contradiction|simpl; lia]).
  pose proof (quart_size_of_pos _ Hn) as Hq.
  set (q := quart_size_of (length time)) in *.
  assert (Hpts : pts = combine (firstn q time) (firstn q length_data)).
  { unfold pts. now rewrite combine_firstn. }
  assert (Hqt : firstn q time <> []).
  { intros H0. apply (f_equal (@length R)) in H0.
    rewrite length_firstn in H0. simpl in H0. lia. }
  assert (Hql : length (firstn q time) = length (firstn q length_data)).
  { rewrite !length_firstn. lia. }
  destruct (curve_fit1_returns v_init _ _ p0 Hqt Hql) as (b & var & Hfit).
  exists b. unfold fitLagIntercept. fold q. rewrite Hfit. cbn [bind].
  pose proof (curve_fit1_least_squares _ _ _ _ _ _ Hfit) as Hls.
  rewrite <- Hpts in Hls.
  assert (Hpne : pts <> []).
  { rewrite Hpts. intros H0. apply (f_equal (@length (R * R))) in H0.
    rewrite length_combine, <- Hql, Nat.min_id, length_firstn in H0. simpl in H0. lia. }
  split; [reflexivity|]. split; [exact Hpne|]. split; [exact Hls|].
  set (m := Rsum (map (fun p => snd p - lineFunc (fst p) v_init 0) pts) / INR (length pts)).
  assert (Hm : INR (length pts) * m =
               Rsum (map (fun p => snd p - lineFunc (fst p) v_init 0) pts)).
  { unfold m. field. apply not_0_INR. destruct pts; [contradiction|simpl; lia]. }
  rewrite (least_squares_is_mean v_init m b pts Hpne Hm Hls). exact Hm.
Qed.

(** C1, as the code has it.  For a station with [n >= 1] points, the
    intercept of the lag line is the least-squares intercept of the line of
    slope [vbegin*1000] (the begin velocity in m/s) on a prefix of the
    station's (time, length) points: the first [n/4] points when that is four
    or more ([n >= 16]), and all [n] points otherwise.  It is the mean of
    [length - slope*time] over that prefix, and the lag is
    [length[i] - (slope*t[i] + intercept)]. *)
Theorem lag_intercept_fitted_on_prefix (vbegin : R) (time length_data : list R) :
  time <> [] -> length length_data = length time ->
  let n := length time in
  let v := vbegin * 1000 in
  let pts := firstn (quart_size_of n) (combine time length_data) in
  ((16 <= n)%nat -> length pts = Nat.div n 4) /\
  ((n < 16)%nat -> pts = combine time length_data) /\
  exists intercept,
    fitLagIntercept curve_fit1 time length_data v 0 = Ok (v, intercept) /\
    (forall b', sum_sq_residuals v intercept pts <= sum_sq_residuals v b' pts) /\
    INR (length pts) * intercept = Rsum (map (fun p => snd p - v * fst p) pts) /\
    station_lag curve_fit1 vbegin time length_data =
      Ok (map (fun p => snd p - (v * fst p + intercept)) (combine time length_data)).
Proof.
  intros Hne Hlen n v pts.
  assert (Hn : (0 < n)%nat) by (unfold n; destruct time; [contradiction|simpl; lia]).
  destruct (quart_size_of_cases n) as [Hbig Hsmall].
  pose proof (quart_size_of_pos n Hn) as Hq.
  split.
  { intros H16. unfold pts. rewrite length_firstn, length_combine, Hlen, Nat.min_id.
    fold n. rewrite (Hbig H16). lia. }
  split.
  { intros H16. unfold pts. rewrite (Hsmall H16).
    apply firstn_all2. rewrite length_combine. fold n. lia. }
  destruct (fitLagIntercept_ok time length_data v 0 Hne Hlen) as (b & Hfit & _ & Hls & Hmean).
  fold n in Hls, Hmean. fold pts in Hls, Hmean.
  exists b. split; [exact Hfit|]. split; [exact Hls|]. split.
  { rewrite Hmean. f_equal. apply map_ext. intros p. unfold lineFunc. ring. }
  unfold station_lag. fold v. rewrite Hfit. cbn [bind].
  rewrite np_zipwith_same by (now rewrite length_map).
  f_equal. clear -Hlen. revert time Hlen.
  induction length_data as [|y l IH]; intros [|t time] Hl; simpl in *; try discriminate;
    try reflexivity.
  unfold lineFunc at 1. f_equal. apply IH. lia.
Qed.

End LagIntercept.

(** A station of two points, fitted exactly. *)
Lemma lag_intercept_fitted_on_prefix_witness :
  exists intercept,
    fitLagIntercept exact_intercept_fit [0; 1] [0; 3] (1 * 1000) 0
      = Ok (1 * 1000, intercept) /\
    INR 2 * intercept = Rsum (map (fun p => snd p - 1 * 1000 * fst p) [(0, 0); (1, 3)]).
Proof.
  destruct (lag_intercept_fitted_on_prefix exact_intercept_fit
              exact_intercept_fit_least_squares exact_intercept_fit_returns
              1 [0; 1] [0; 3]) as (_ & _ & b & Hfit & _ & Hmean & _).
  - discriminate.
  - reflexivity.
  - exists b. split; [exact Hfit|exact Hmean].
Defined.

(** C1 fails as it is worded.  On the station [twelve_times],
    [twelve_lengths], fitted with slope zero: a quarter of the points is
    three, fewer than four, and the code then fits all twelve points
    (intercept 8), not the first four (intercept 0). *)
Lemma lag_intercept_prefix_is_not_four_points :
  quart_size_of 12 = 12%nat /\
  quart_size_spec 12 = 4%nat /\
  fitLagIntercept exact_intercept_fit twelve_times twelve_lengths 0 0 = Ok (0, 8) /\
  fitLagIntercept_spec exact_intercept_fit twelve_times twelve_lengths 0 0 = Ok (0, 0) /\
  fitLagIntercept exact_intercept_fit twelve_times twelve_lengths 0 0
    <> fitLagIntercept_spec exact_intercept_fit twelve_times twelve_lengths 0 0.
Proof.
  assert (H1 : fitLagIntercept exact_intercept_fit twelve_times twelve_lengths 0 0
               = Ok (0, 8)).
  { unfold fitLagIntercept, exact_intercept_fit, mean_offset, twelve_times, twelve_lengths.
    cbn [length quart_size_of firstn combine map Rsum fst snd Nat.eqb Nat.ltb Nat.leb
         Nat.div Nat.divmod bind].
    replace (INR 12) with 12 by (simpl; lra).
    unfold lineFunc. do 2 f_equal. lra. }
  assert (H2 : fitLagIntercept_spec exact_intercept_fit twelve_times twelve_lengths 0 0
               = Ok (0, 0)).
  { unfold fitLagIntercept_spec, exact_intercept_fit, mean_offset, twelve_times,
      twelve_lengths.
    cbn [length quart_size_spec firstn combine map Rsum fst snd Nat.eqb Nat.max
         Nat.div Nat.divmod bind].
    replace (INR 4) with 4 by (simpl; lra).
    unfold lineFunc. do 2 f_equal. lra. }
  split; [reflexivity|]. split; [reflexivity|]. split; [exact H1|]. split; [exact H2|].
  rewrite H1, H2. intros H. injection H as H. lra.
Qed.

(** ** Stations of a single point *)

Lemma single_point_velocity (t0 : R) : station_velocity [t0] [0] = Ok [Fin 0].
Proof.
  unfold station_velocity, time_diffs_of, shift_down, np_zipwith, replace_zeros.
  cbn [removelast length Nat.eqb combine map fst snd bind].
  rewrite np_div_nonzero.
  - do 3 f_equal. unfold Rdiv. ring.
  - apply (guarded_nonzero (t0 - 0)).
Qed.

Lemma single_point_average_velocity (t0 : R) : station_average_velocity [0] [t0] = Ok NaN.
Proof.
  unfold station_average_velocity, getlast, getitem. cbn [rev app nth_error bind].
  unfold np_div.
  destruct (Req_dec_T (t0 - t0) 0) as [_|H]; [|exfalso; apply H; ring].
  destruct (Req_dec_T (0 - 0) 0) as [_|H]; [reflexivity|exfalso; apply H; ring].
Qed.

Lemma single_point_kinematics (t0 : R) (beg_cpa c : vec3) :
  stations_kinematics [[t0]] (Some beg_cpa) 0 [[c]] =
    Ok ([[0]], [[vectMag (vsub beg_cpa c)]], [[Fin 0]]).
Proof.
  cbn [stations_kinematics getitem nth_error bind].
  rewrite station_lengths_ok. cbn [map bind].
  rewrite vectMag_self, single_point_velocity. reflexivity.
Qed.

Section SinglePoint.

Variable curve_fit1 : (R -> R -> R) -> list R -> list R -> R -> result (R * npfloat).

Hypothesis curve_fit1_least_squares :
  forall (v : R) (xs ys : list R) (p0 b : R) (var : npfloat),
    curve_fit1 (fun x k => lineFunc x v k) xs ys p0 = Ok (b, var) ->
    forall b', sum_sq_residuals v b (combine xs ys) <= sum_sq_residuals v b' (combine xs ys).

Hypothesis curve_fit1_returns :
  forall (v : R) (xs ys : list R) (p0 : R),
    xs <> [] -> length xs = length ys ->
    exists b var, curve_fit1 (fun x k => lineFunc x v k) xs ys p0 = Ok (b, var).

(** C4, as the code has it.  A station of a single point is given numbers,
    not a mark of unavailable data: its length array is [0], its velocity
    array is [0], its lag array is [0] (the fitted line goes through the one
    point); its average velocity is the float64 value of 0/0, not-a-number.
    The code checks no minimum number of points. *)
Theorem single_point_station_gets_numbers (vbegin t0 : R) (beg_cpa c : vec3) :
  stations_kinematics [[t0]] (Some beg_cpa) 0 [[c]] =
    Ok ([[0]], [[vectMag (vsub beg_cpa c)]], [[Fin 0]]) /\
  station_lag curve_fit1 vbegin [t0] [0] = Ok [0] /\
  station_average_velocity [0] [t0] = Ok NaN.
Proof.
  split; [apply single_point_kinematics|].
  split; [|apply single_point_average_velocity].
  assert (Hne : [t0] <> []) by discriminate.
  destruct (fitLagIntercept_ok curve_fit1 curve_fit1_least_squares curve_fit1_returns
              [t0] [0] (vbegin * 1000) 0 Hne eq_refl) as (b & Hfit & _ & _ & Hmean).
  unfold station_lag. rewrite Hfit. cbn [bind].
  cbn [length quart_size_of Nat.div Nat.divmod Nat.ltb Nat.leb fst snd
       firstn combine map Rsum] in Hmean.
  unfold np_zipwith. cbn [length map Nat.eqb combine fst snd].
  do 2 f_equal. unfold lineFunc in *. simpl in Hmean. lra.
Qed.

End SinglePoint.

(** The station of one point at [t = 1], fitted exactly. *)
Lemma single_point_station_gets_numbers_witness :
  stations_kinematics [[1]] (Some (1, 0, 0)) 0 [[(1, 0, 0)]] =
    Ok ([[0]], [[vectMag (vsub (1, 0, 0) (1, 0, 0))]], [[Fin 0]]) /\
  station_lag exact_intercept_fit 30 [1] [0] = Ok [0] /\
  station_average_velocity [0] [1] = Ok NaN.
Proof.
  exact (single_point_station_gets_numbers exact_intercept_fit
           exact_intercept_fit_least_squares exact_intercept_fit_returns
           30 1 (1, 0, 0) (1, 0, 0)).
Defined.

(** C4 fails as it is worded: the one point of a station gets the velocity
    zero and the lag zero, which are numbers. *)
Lemma single_point_station_is_not_unavailable :
  stations_kinematics [[1]] (Some (1, 0, 0)) 0 [[(1, 0, 0)]] =
    Ok ([[0]], [[0]], [[Fin 0]]) /\
  station_lag exact_intercept_fit 30 [1] [0] = Ok [0].
Proof.
  split.
  - rewrite single_point_kinematics, vectMag_self. reflexivity.
  - unfold station_lag, fitLagIntercept, exact_intercept_fit, mean_offset.
    cbn [length quart_size_of Nat.div Nat.divmod Nat.ltb Nat.leb fst snd
         firstn combine map Rsum Nat.eqb bind].
    unfold np_zipwith. cbn [length map Nat.eqb combine fst snd].
    do 2 f_equal. unfold lineFunc. simpl. field.
Qed.

(** ** Measurement conventions *)

Lemma pymod_range (x m : R) : 0 < m -> 0 <= pymod x m < m.
Proof.
  intros Hm. unfold pymod.
  destruct (base_Int_part (x / m)) as [Hle Hgt].
  set (k := IZR (Int_part (x / m))) in *.
  assert (Hx : x = x / m * m) by (field; lra).
  split.
  - assert (k * m <= x / m * m) by (apply Rmult_le_compat_r; lra). lra.
  - assert (x / m * m < (k + 1) * m) by (apply Rmult_lt_compat_r; lra). lra.
Qed.

Lemma pymod_small (x m : R) : 0 <= x < m -> pymod x m = x.
Proof.
  intros [H0 Hm]. unfold pymod.
  assert (Hq : 0 <= x / m < 1).
  { split.
    - apply Rmult_le_pos; [lra|]. apply Rlt_le, Rinv_0_lt_compat. lra.
    - apply (Rmult_lt_reg_r m); [lra|]. replace (x / m * m) with x by (field; lra). lra. }
  rewrite <- (Int_part_spec (x / m) 0) by (simpl; lra).
  simpl. ring.
Qed.

(** C7.  Under convention 3 (azimuth west of south, zenith angle) every pair
    of measurement arrays is turned into the azimuth east of north
    [(meas1 + pi) mod 2 pi], which lies in [[0, 2 pi)] and differs from
    [meas1 + pi] by a whole number of turns, and the elevation
    [pi/2 - meas2]; the input [(0, pi/2)] gives azimuth [pi] and elevation 0. *)
Theorem azimuth_west_of_south_zenith
  (raDec2AltAz_vect : list R -> list R -> R -> R -> R -> list R * list R)
  (jdt_ref : R) (prev : option (list R * list R)) (lat lon : R) :
  (forall meas1 meas2,
      convert_measurements raDec2AltAz_vect 3 jdt_ref prev meas1 meas2 lat lon =
        Some (map (fun a => pymod (a + PI) (2 * PI)) meas1,
              map (fun z => PI / 2 - z) meas2)) /\
  (forall a, 0 <= pymod (a + PI) (2 * PI) < 2 * PI /\
             exists k : Z, a + PI = pymod (a + PI) (2 * PI) + IZR k * (2 * PI)) /\
  convert_measurements raDec2AltAz_vect 3 jdt_ref prev [0] [PI / 2] lat lon =
    Some ([PI], [0]).
Proof.
  pose proof PI_RGT_0 as Hpi.
  split; [reflexivity|]. split.
  - intros a. split; [apply pymod_range; lra|].
    exists (Int_part ((a + PI) / (2 * PI))). unfold pymod. ring.
  - cbn [convert_measurements Z.eqb Pos.eqb map].
    rewrite Rplus_0_l, pymod_small by lra.
    do 3 f_equal. lra.
Qed.

Section UnrecognizedConvention.

Variable raDec2AltAz_vect : list R -> list R -> R -> R -> R -> list R * list R.
Variable altAz2RADec_vect : list R -> list R -> list R -> R -> R -> list R * list R.
Variable raDec2ECI : list R -> list R -> list vec3.

Lemma convert_measurements_unrecognized (meastype : Z) (jdt_ref : R)
  (prev : option (list R * list R)) (meas1 meas2 : list R) (lat lon : R) :
  meastype <> 1%Z -> meastype <> 2%Z -> meastype <> 3%Z -> meastype <> 4%Z ->
  convert_measurements raDec2AltAz_vect meastype jdt_ref prev meas1 meas2 lat lon = prev.
Proof.
  intros H1 H2 H3 H4. unfold convert_measurements.
  destruct (Z.eqb_spec meastype 1); [contradiction|].
  destruct (Z.eqb_spec meastype 2); [contradiction|].
  destruct (Z.eqb_spec meastype 3); [contradiction|].
  destruct (Z.eqb_spec meastype 4); [contradiction|].
  reflexivity.
Qed.

(** C3, as the code has it.  For a convention code other than 1, 2, 3 and 4
    the chain of tests binds no angles, so with one station or more the
    conversion raises Python's [UnboundLocalError] at the first station (the
    code has no error of its own for this) and no code is taken for a default
    convention; with no station there is nothing to convert and nothing is
    raised. *)
Theorem unrecognized_convention_raises (meastype : Z) (jdt_ref : R)
  (stations : list (list R * list R * list R * R * R)) :
  meastype <> 1%Z -> meastype <> 2%Z -> meastype <> 3%Z -> meastype <> 4%Z ->
  (forall meas1 meas2 lat lon,
      convert_measurements raDec2AltAz_vect meastype jdt_ref None meas1 meas2 lat lon
        = None) /\
  (stations <> [] ->
   lines_of_sight raDec2AltAz_vect altAz2RADec_vect raDec2ECI meastype jdt_ref None stations
     = Raise (UnboundLocalError "azim_data")) /\
  lines_of_sight raDec2AltAz_vect altAz2RADec_vect raDec2ECI meastype jdt_ref None []
    = Ok ([], []).
Proof.
  intros H1 H2 H3 H4.
  split; [intros; now apply convert_measurements_unrecognized|].
  split; [|reflexivity].
  intros Hne. destruct stations as [|[[[[jd m1] m2] lat] lon] rest]; [contradiction|].
  cbn [lines_of_sight].
  now rewrite convert_measurements_unrecognized.
Qed.

End UnrecognizedConvention.

(** Convention code 5 and one station of one measurement. *)
Lemma unrecognized_convention_raises_witness :
  lines_of_sight (fun _ _ _ _ _ => ([], [])) (fun _ _ _ _ _ => ([], [])) (fun _ _ => [])
    5 0 None [([0], [0], [0], 0, 0)]
    = Raise (UnboundLocalError "azim_data").
Proof.
  apply (unrecognized_convention_raises
           (fun _ _ _ _ _ => ([], [])) (fun _ _ _ _ _ => ([], [])) (fun _ _ => [])
           5 0 [([0], [0], [0], 0, 0)]); discriminate.
Defined.

(** C3 fails as it is worded: for the code 5 the conversion of no station
    returns, and that of one station raises [UnboundLocalError]; the
    routines taken as given are never reached. *)
Lemma unrecognized_convention_is_not_InvalidConvention :
  lines_of_sight (fun _ _ _ _ _ => ([], [])) (fun _ _ _ _ _ => ([], [])) (fun _ _ => [])
    5 0 None [] = Ok ([], []) /\
  lines_of_sight (fun _ _ _ _ _ => ([], [])) (fun _ _ _ _ _ => ([], [])) (fun _ _ => [])
    5 0 None [([0], [0], [0], 0, 0)] = Raise (UnboundLocalError "azim_data").
Proof. split; reflexivity. Qed.

(** ** Degenerate geometry *)

Lemma vdot_cauchy_schwarz (u v : vec3) : vdot u v * vdot u v <= vdot u u * vdot v v.
Proof.
  destruct u as [[ux uy] uz], v as [[vx vy] vz]. unfold vdot.
  pose proof (pow2_ge_0 (ux * vy - uy * vx)).
  pose proof (pow2_ge_0 (ux * vz - uz * vx)).
  pose proof (pow2_ge_0 (uy * vz - uz * vy)).
  nra.
Qed.

(** C9.  For a line of sight whose unit direction is parallel to the unit
    radiant direction within the tolerance (their dot product is within
    [epsilon/2] of 1), the projection fails with [DegenerateGeometry]: no
    point is returned, and the loop over the station's points ends with
    that failure at this point. *)
Theorem parallel_line_of_sight_is_degenerate (epsilon : R)
  (stat meas state_vect radiant_eci : vec3) (rest : list (vec3 * vec3))
  (max_ht : R) (beg_cpa : option vec3) (rad_cpa_list : list vec3) :
  vdot meas meas = 1 -> vdot radiant_eci radiant_eci = 1 ->
  1 - epsilon / 2 <= vdot meas radiant_eci ->
  findClosestPoints epsilon stat meas state_vect radiant_eci = Raise DegenerateGeometry /\
  project_points epsilon state_vect radiant_eci ((stat, meas) :: rest)
    max_ht beg_cpa rad_cpa_list = Raise DegenerateGeometry.
Proof.
  intros Hu Hv Hdot.
  assert (Hfcp : findClosestPoints epsilon stat meas state_vect radiant_eci
                 = Raise DegenerateGeometry).
  { unfold findClosestPoints. cbv zeta. rewrite Hu, Hv.
    pose proof (vdot_cauchy_schwarz meas radiant_eci) as Hcs. rewrite Hu, Hv in Hcs.
    set (b := vdot meas radiant_eci) in *.
    destruct (Rle_dec (Rabs (1 * 1 - b * b)) epsilon) as [_|Hn]; [reflexivity|].
    exfalso. apply Hn. rewrite Rabs_pos_eq by nra. nra. }
  split; [exact Hfcp|].
  cbn [project_points]. now rewrite Hfcp.
Qed.

(** A line of sight along the radiant itself. *)
Lemma parallel_line_of_sight_is_degenerate_witness :
  findClosestPoints (/ 1000000) (0, 0, 0) (1, 0, 0) (0, 1, 0) (1, 0, 0)
    = Raise DegenerateGeometry.
Proof.
  apply (parallel_line_of_sight_is_degenerate (/ 1000000)
           (0, 0, 0) (1, 0, 0) (0, 1, 0) (1, 0, 0) [] 0 None []);
    unfold vdot; lra.
Defined.

(** ** savePickle and the attributes of the object *)

Lemma getattr_setattr (self : attrs) (k name : string) (v : pyval) :
  getattr (setattr self k v) name = if String.eqb k name then Some v else getattr self name.
Proof.
  induction self as [|[k' w] self IH]; cbn [setattr getattr].
  - reflexivity.
  - destruct (String.eqb_spec k' k) as [->|Hk]; cbn [getattr].
    + now destruct (String.eqb k name).
    + rewrite IH. destruct (String.eqb_spec k' name) as [->|]; [|reflexivity].
      destruct (String.eqb_spec k name); [congruence|reflexivity].
Qed.

Lemma getattr_not_in (self : attrs) (name : string) :
  ~ In name (map fst self) -> getattr self name = None.
Proof.
  induction self as [|[k v] self IH]; intros Hn; [reflexivity|].
  cbn [getattr]. destruct (String.eqb_spec k name) as [->|].
  - exfalso. apply Hn. now left.
  - apply IH. intros H. apply Hn. now right.
Qed.

Lemma getattr_delattr (self : attrs) (k name : string) :
  NoDup (map fst self) ->
  getattr (delattr self k) name = if String.eqb k name then None else getattr self name.
Proof.
  induction self as [|[k' w] self IH]; intros Hnd; cbn [delattr getattr].
  - now destruct (String.eqb k name).
  - inversion Hnd as [|? ? Hnotin Hnd']; subst.
    destruct (String.eqb_spec k' k) as [->|Hk].
    + destruct (String.eqb_spec k name) as [E|E]; [|reflexivity].
      subst name. now apply getattr_not_in.
    + cbn [getattr]. rewrite IH by assumption.
      destruct (String.eqb_spec k' name) as [->|]; [|reflexivity].
      destruct (String.eqb_spec k name); [congruence|reflexivity].
Qed.

Lemma delattr_keys_NoDup (self : attrs) (k : string) :
  NoDup (map fst self) -> NoDup (map fst (delattr self k)).
Proof.
  induction self as [|[k' w] self IH]; intros Hnd; cbn [delattr]; [constructor|].
  inversion Hnd as [|? ? Hnotin Hnd']; subst.
  destruct (String.eqb k' k); [assumption|].
  cbn [map fst]. constructor; [|now apply IH].
  intros Hin. apply Hnotin. clear -Hin.
  induction self as [|[k'' w'] self IH]; [contradiction|].
  cbn [delattr] in Hin. destruct (String.eqb k'' k).
  - now right.
  - destruct Hin as [<-|Hin]; [now left|right; now apply IH].
Qed.

Lemma backup_and_remove_spec (self : attrs) (k : string) :
  NoDup (map fst self) ->
  forall backup self',
    backup_and_remove self k = (backup, self') ->
    NoDup (map fst self') /\
    (forall name, getattr self' name = if String.eqb k name then None else getattr self name) /\
    (getattr self k = None /\ backup = PNone \/ getattr self k = Some backup).
Proof.
  intros Hnd backup self'. unfold backup_and_remove.
  destruct (getattr self k) as [v|] eqn:Hget; intros H; injection H as <- <-.
  - split; [now apply delattr_keys_NoDup|]. split; [|now right].
    intros name. now apply getattr_delattr.
  - split; [assumption|]. split; [|now left].
    intros name. destruct (String.eqb_spec k name) as [<-|]; [assumption|reflexivity].
Qed.

Section SavePickleFrame.

Variable FS : Type.
Variable mkdirP : string -> FS -> result FS.
Variable path_join : string -> string -> string.
Variable dump_to_file : string -> attrs -> FS -> result FS.

(** When the pickle of the object without its solver handles is written,
    [savePickle] returns, and then every attribute is bound as
    [restored_value] says; the pickled object has neither [traj_lib] nor
    [traj]. *)
Lemma savePickle_attributes (self : attrs) (dir_path file_name : string)
  (fs fs' : FS) :
  NoDup (map fst self) ->
  Pickling_savePickle FS mkdirP path_join dump_to_file
    (without_solver_handles self) dir_path file_name fs = Ok fs' ->
  exists self',
    GuralTrajectory_savePickle FS mkdirP path_join dump_to_file self dir_path file_name fs
      = Ok (self', fs') /\
    (forall name, getattr self' name = restored_value self name) /\
    getattr (without_solver_handles self) "traj_lib" = None /\
    getattr (without_solver_handles self) "traj" = None.
Proof.
  intros Hnd. unfold GuralTrajectory_savePickle, without_solver_handles.
  destruct (backup_and_remove self "traj_lib") as [b1 s1] eqn:H1. cbn [snd].
  destruct (backup_and_remove s1 "traj") as [b2 s2] eqn:H2. cbn [snd].
  destruct (backup_and_remove_spec _ _ Hnd _ _ H1) as (Hnd1 & Hg1 & Hb1).
  destruct (backup_and_remove_spec _ _ Hnd1 _ _ H2) as (_ & Hg2 & Hb2).
  intros Hpick. rewrite Hpick. cbn [bind].
  eexists. split; [reflexivity|].
  assert (Hb2' : getattr self "traj" = None /\ b2 = PNone \/ getattr self "traj" = Some b2).
  { rewrite Hg1 in Hb2. exact Hb2. }
  split; [|split].
  - intros name. unfold restored_value.
    assert (Hstep1 : getattr (if truthy b1 then setattr s2 "traj_lib" b1 else s2) name
                     = if String.eqb "traj" name then None
                       else if String.eqb "traj_lib" name
                            then (if truthy b1 then Some b1 else None)
                            else getattr self name).
    { destruct (truthy b1); [rewrite getattr_setattr|]; rewrite Hg2, Hg1;
        destruct (String.eqb_spec "traj" name) as [E|E];
        destruct (String.eqb_spec "traj_lib" name) as [E'|E']; try reflexivity.
      subst name. discriminate. }
    assert (Hfinal : getattr (if truthy b2
                              then setattr (if truthy b1 then setattr s2 "traj_lib" b1 else s2)
                                     "traj" b2
                              else (if truthy b1 then setattr s2 "traj_lib" b1 else s2)) name
                     = if String.eqb "traj" name
                       then (if truthy b2 then Some b2 else None)
                       else if String.eqb "traj_lib" name
                            then (if truthy b1 then Some b1 else None)
                            else getattr self name).
    { destruct (truthy b2); [rewrite getattr_setattr|]; rewrite Hstep1;
        destruct (String.eqb_spec "traj" name); reflexivity. }
    rewrite Hfinal.
    destruct (String.eqb_spec "traj" name) as [E|E].
    + subst name. cbn [String.eqb Ascii.eqb Bool.eqb orb andb].
      destruct Hb2' as [ [ -> -> ] | -> ]; [reflexivity|].
      now destruct (truthy b2).
    + destruct (String.eqb_spec "traj_lib" name) as [E'|E'].
      * subst name. cbn [orb andb].
        destruct Hb1 as [ [ -> -> ] | -> ]; [reflexivity|].
        now destruct (truthy b1).
      * cbn [orb andb]. now destruct (getattr self name).
  - rewrite Hg2, Hg1. reflexivity.
  - rewrite Hg2. reflexivity.
Qed.

Lemma restored_value_of_true_handles (self : attrs) (name : string) :
  (forall v, getattr self "traj_lib" = Some v -> truthy v = true) ->
  (forall v, getattr self "traj" = Some v -> truthy v = true) ->
  restored_value self name = getattr self name.
Proof.
  intros Hlib Htraj. unfold restored_value.
  destruct (getattr self name) as [v|] eqn:Hget; [|reflexivity].
  destruct (String.eqb_spec "traj_lib" name) as [E|E].
  - subst name. rewrite (Hlib v Hget). reflexivity.
  - destruct (String.eqb_spec "traj" name) as [E'|E']; [|reflexivity].
    subst name. rewrite (Htraj v Hget). reflexivity.
Qed.

(** C10.  [traj_lib] and [traj] are bound by the class to the library handle
    and to the solver structure only (lines 645 and 707), which are true
    values, or deleted (lines 1569-1570).  On such an object, when the pickle
    is written, [savePickle] returns with every attribute bound as before the
    call: [traj_lib] and [traj] are present exactly when they were and bound
    to the same objects, and no other attribute is modified.  The object that
    was pickled has neither of the two, and the file system is what
    [Pickling.savePickle] of that object has made it. *)
Theorem savePickle_leaves_state_unchanged (self : attrs) (dir_path file_name : string)
  (fs fs' : FS) :
  NoDup (map fst self) ->
  (forall v, getattr self "traj_lib" = Some v -> truthy v = true) ->
  (forall v, getattr self "traj" = Some v -> truthy v = true) ->
  Pickling_savePickle FS mkdirP path_join dump_to_file
    (without_solver_handles self) dir_path file_name fs = Ok fs' ->
  exists self',
    GuralTrajectory_savePickle FS mkdirP path_join dump_to_file self dir_path file_name fs
      = Ok (self', fs') /\
    (forall name, getattr self' name = getattr self name) /\
    getattr (without_solver_handles self) "traj_lib" = None /\
    getattr (without_solver_handles self) "traj" = None.
Proof.
  intros Hnd Hlib Htraj Hpick.
  destruct (savePickle_attributes self dir_path file_name fs fs' Hnd Hpick)
    as (self' & Hcall & Hattrs & Hno_lib & Hno_traj).
  exists self'. split; [exact Hcall|]. split; [|split; assumption].
  intros name. rewrite Hattrs. now apply restored_value_of_true_handles.
Qed.

End SavePickleFrame.

(** The object [loaded_trajectory], pickled in the file system kept in
    memory. *)
Lemma savePickle_leaves_state_unchanged_witness :
  exists self',
    GuralTrajectory_savePickle mem_fs mem_mkdirP mem_path_join mem_dump
      loaded_trajectory "out" "traj.pickle" []
      = Ok (self', [(mem_path_join "out" "traj.pickle", [("maxcameras", PInt 2)]%string)]) /\
    (forall name, getattr self' name = getattr loaded_trajectory name).
Proof.
  destruct (savePickle_leaves_state_unchanged mem_fs mem_mkdirP mem_path_join mem_dump
              loaded_trajectory "out" "traj.pickle" []
              [(mem_path_join "out" "traj.pickle", [("maxcameras", PInt 2)]%string)])
    as (self' & Hcall & Hattrs & _).
  - repeat constructor; cbn [map fst In]; intuition discriminate.
  - intros v H. cbn in H. injection H as <-. reflexivity.
  - intros v H. cbn in H. injection H as <-. reflexivity.
  - reflexivity.
  - exists self'. split; [exact Hcall|exact Hattrs].
Defined.

(** The condition on the two handles is needed.  On an object whose [traj]
    attribute has been bound to [None], [savePickle] returns with that
    attribute deleted: the restoring test [if backup_traj:] takes the [None]
    that was there for the [None] that stands for an absent attribute.  The
    other attributes, [traj_lib] among them, are as before. *)
Lemma savePickle_drops_false_traj :
  exists self' fs',
    GuralTrajectory_savePickle mem_fs mem_mkdirP mem_path_join mem_dump
      released_trajectory "out" "traj.pickle" [] = Ok (self', fs') /\
    getattr released_trajectory "traj" = Some PNone /\
    getattr self' "traj" = None /\
    getattr self' "traj_lib" = getattr released_trajectory "traj_lib" /\
    getattr self' "maxcameras" = getattr released_trajectory "maxcameras" /\
    getattr self' "vbegin" = getattr released_trajectory "vbegin".
Proof.
  eexists; eexists. split; [reflexivity|]. repeat split.
Qed.

(** ** loadMiligInput: which attribute gets the latitude *)

(** Evaluate the text processing of a goal; it involves no real number. *)
Ltac eval_text :=
  repeat match goal with
    | |- context [parse_decimal ?s] =>
        let v := eval vm_compute in (parse_decimal s) in
        change (parse_decimal s) with v
    | |- context [py_int ?s] =>
        let v := eval vm_compute in (py_int s) in
        change (py_int s) with v
    | |- context [split_lines ?s ?c] =>
        let v := eval vm_compute in (split_lines s c) in
        change (split_lines s c) with v
    | |- context [String.eqb (drop_newlines ?s) ?t] =>
        let v := eval vm_compute in (String.eqb (drop_newlines s) t) in
        change (String.eqb (drop_newlines s) t) with v
    | |- context [strip ?s] =>
        let v := eval vm_compute in (strip s) in
        change (strip s) with v
    end.


Lemma update_at_spec {A : Type} (f : A -> A) (l : list A) :
  forall i l', update_at l i f = Ok l' ->
    exists x, nth_error l i = Some x /\ l' = firstn i l ++ f x :: skipn (S i) l.
Proof.
  induction l as [|y l IH]; intros i l' H; cbn [update_at] in H; [discriminate|].
  destruct i as [|i].
  - injection H as <-. exists y. split; reflexivity.
  - destruct (update_at l i f) as [l''|e] eqn:Hu; [|discriminate].
    cbn [bind] in H. injection H as <-.
    destruct (IH _ _ Hu) as (x & Hx & ->).
    exists x. split; [exact Hx|reflexivity].
Qed.

Lemma Forall_firstn_skipn {A : Type} (P : A -> Prop) (i : nat) (l : list A) :
  Forall P l -> Forall P (firstn i l) /\ Forall P (skipn i l).
Proof. intros H. rewrite <- (firstn_skipn i l) in H. now apply Forall_app in H. Qed.

Lemma add_pick_same_station (st : StationData) (time azim zangle : R) (bad_pick : Z) :
  same_station st (add_pick st time azim zangle bad_pick).
Proof. unfold same_station, add_pick. cbn. repeat split. now exists [time]. Qed.

Lemma same_station_refl (st : StationData) : same_station st st.
Proof. unfold same_station. repeat split. exists []. now rewrite app_nil_r. Qed.

Lemma same_station_trans (a b c : StationData) :
  same_station a b -> same_station b c -> same_station a c.
Proof.
  intros (H1 & H2 & H3 & H4 & m1 & H5) (G1 & G2 & G3 & G4 & m2 & G5).
  unfold same_station. repeat split; try congruence.
  exists (m1 ++ m2). rewrite G5, H5. now rewrite app_assoc.
Qed.







(** ** The first-half-average candidates *)

Lemma list_pop_seq (k : nat) :
  forall a n, (k < n)%nat ->
    list_pop (seq a n) k = Ok (seq a k ++ seq (a + S k) (n - S k)).
Proof.
  induction k as [|k IH]; intros a n Hk; destruct n as [|n]; try lia.
  - cbn [seq list_pop app].
    replace (a + 1)%nat with (S a) by lia. replace (S n - 1)%nat with n by lia.
    reflexivity.
  - cbn [seq list_pop]. rewrite IH by lia. cbn [bind app].
    replace (S a + S k)%nat with (a + S (S k))%nat by lia.
    replace (S n - S (S k))%nat with (n - S k)%nat by lia. reflexivity.
Qed.

Lemma use_indices_of_many (N i : nat) :
  (3 <= N)%nat -> (1 <= i <= N)%nat ->
  use_indices_of N i = Ok (seq 0 (i - 1) ++ seq i (N - i)).
Proof.
  intros HN Hi. unfold use_indices_of.
  destruct (Nat.ltb_spec 2 N); [|lia].
  destruct (Nat.eqb_spec i 0); [lia|]. cbn [andb negb].
  rewrite list_pop_seq by lia. cbn [Nat.add].
  replace (S (i - 1)) with i by lia. reflexivity.
Qed.

Lemma use_indices_of_few (N i : nat) :
  (N <= 2)%nat -> use_indices_of N i = Ok (seq 0 N).
Proof.
  intros HN. unfold use_indices_of.
  destruct (Nat.ltb_spec 2 N); [lia|]. reflexivity.
Qed.

Lemma existsb_eqb_In (j : nat) (l : list nat) :
  existsb (Nat.eqb j) l = true <-> In j l.
Proof.
  rewrite existsb_exists. split.
  - intros (x & Hin & Heq). apply Nat.eqb_eq in Heq. now subst.
  - intros Hin. exists j. split; [assumption|apply Nat.eqb_refl].
Qed.

Lemma filter_indices_app {A : Type} (use : list nat) (xs ys : list A) :
  forall i, filter_indices use i (xs ++ ys) =
            filter_indices use i xs ++ filter_indices use (i + length xs) ys.
Proof.
  induction xs as [|x xs IH]; intros i; cbn [app filter_indices length].
  - now rewrite Nat.add_0_r.
  - rewrite IH, Nat.add_succ_comm. now destruct (existsb (Nat.eqb i) use).
Qed.

Lemma filter_indices_all {A : Type} (use : list nat) (xs : list A) :
  forall i, (forall j, (i <= j < i + length xs)%nat -> In j use) ->
            filter_indices use i xs = xs.
Proof.
  induction xs as [|x xs IH]; intros i Hall; [reflexivity|].
  cbn [filter_indices].
  assert (Hi : existsb (Nat.eqb i) use = true).
  { apply existsb_eqb_In, Hall. simpl. lia. }
  rewrite Hi. f_equal. apply IH. intros j Hj. apply Hall. simpl. lia.
Qed.

(** The candidate that drops index [k] pools every station but the one at
    [k]. *)
Lemma filter_indices_all_but {A : Type} (N k : nat) (xs : list A) :
  length xs = N -> (k < N)%nat ->
  filter_indices (seq 0 k ++ seq (S k) (N - S k)) 0 xs = firstn k xs ++ skipn (S k) xs.
Proof.
  intros Hlen Hk.
  set (use := seq 0 k ++ seq (S k) (N - S k)).
  assert (Huse : forall j, In j use <-> (j < N /\ j <> k)%nat).
  { intros j. unfold use. rewrite in_app_iff, !in_seq. lia. }
  assert (Hsplit : xs = firstn k xs ++ firstn 1 (skipn k xs) ++ skipn (S k) xs).
  { rewrite <- (firstn_skipn k xs) at 1. f_equal.
    rewrite <- (firstn_skipn 1 (skipn k xs)) at 1. f_equal.
    rewrite skipn_skipn. f_equal. }
  assert (Hl1 : length (firstn k xs) = k) by (rewrite length_firstn; lia).
  assert (Hl2 : length (firstn 1 (skipn k xs)) = 1%nat).
  { rewrite length_firstn, length_skipn. lia. }
  rewrite Hsplit at 1.
  rewrite !filter_indices_app, Hl1, Hl2. cbn [Nat.add].
  rewrite (filter_indices_all use (firstn k xs) 0)
    by (intros j Hj; apply Huse; lia).
  rewrite (filter_indices_all use (skipn (S k) xs) (k + 1))
    by (intros j Hj; apply Huse; rewrite length_skipn in Hj; lia).
  f_equal.
  destruct (firstn 1 (skipn k xs)) as [|x [|? ?]]; try discriminate.
  cbn [filter_indices].
  destruct (existsb (Nat.eqb k) use) eqn:Hex; [|reflexivity].
  apply existsb_eqb_In, Huse in Hex. lia.
Qed.

(** ** Comparing standard deviations *)

Lemma np_lt_irrefl (x : npfloat) : np_lt x x = false.
Proof.
  destruct x as [r| | |]; cbn [np_lt]; try reflexivity.
  destruct (Rlt_dec r r); [lra|reflexivity].
Qed.

Lemma np_lt_not_below (x b b' : npfloat) :
  np_lt x b = false -> np_lt b' b = true -> np_lt x b' = false.
Proof.
  destruct x as [x| | |], b as [b| | |], b' as [b'| | |]; cbn [np_lt];
    repeat match goal with |- context [Rlt_dec ?a ?c] => destruct (Rlt_dec a c) end;
    intros; try reflexivity; try discriminate; lra.
Qed.

Lemma np_lt_sqrt (x y : npfloat) :
  np_nonneg x -> np_nonneg y -> np_lt (np_sqrt x) (np_sqrt y) = np_lt x y.
Proof.
  destruct x as [x| | |], y as [y| | |]; cbn [np_nonneg np_sqrt];
    intros Hx Hy; try contradiction; try reflexivity.
  - destruct (Rlt_dec x 0); [lra|]. destruct (Rlt_dec y 0); [lra|]. cbn [np_lt].
    destruct (Rlt_dec x y) as [Hlt|Hge].
    + destruct (Rlt_dec (sqrt x) (sqrt y)) as [_|Hn]; [reflexivity|].
      exfalso. apply Hn. apply sqrt_lt_1_alt. lra.
    + destruct (Rlt_dec (sqrt x) (sqrt y)) as [Hlt|_]; [|reflexivity].
      exfalso. apply Hge. apply sqrt_lt_0_alt. exact Hlt.
  - destruct (Rlt_dec x 0); [lra|]. reflexivity.
  - destruct (Rlt_dec y 0); [lra|]. reflexivity.
Qed.

Lemma np_lt_trans (x y z : npfloat) :
  np_lt x y = true -> np_lt y z = true -> np_lt x z = true.
Proof.
  destruct x as [x| | |], y as [y| | |], z as [z| | |]; cbn [np_lt];
    repeat match goal with |- context [Rlt_dec ?a ?c] => destruct (Rlt_dec a c) end;
    intros; try reflexivity; try discriminate; lra.
Qed.

Lemma keep_lowest_spec (fits : list ((R * R) * (npfloat * npfloat))) :
  forall sd sol sd' sol',
    keep_lowest fits sd sol = (sd', sol') ->
    (forall f, In f fits -> np_lt (stddev_of f) sd' = false) /\
    (np_lt sd' sd = true \/ sd' = sd) /\
    (sd' = sd /\ sol' = sol \/
     exists f, In f fits /\ sd' = stddev_of f /\ sol' = Some (fst f) /\
               np_lt sd' sd = true).
Proof.
  induction fits as [|[popt pcov] rest IH]; intros sd sol sd' sol' Hk.
  - cbn [keep_lowest] in Hk. injection Hk as <- <-.
    split; [intros f []|]. split; [now right|now left].
  - cbn [keep_lowest] in Hk.
    change (np_sqrt (snd pcov)) with (stddev_of (popt, pcov)) in Hk.
    set (f0 := (popt, pcov)) in *.
    destruct (np_lt (stddev_of f0) sd) eqn:Hlt.
    + destruct (IH _ _ _ _ Hk) as (Hall & Hle & Hfrom).
      assert (Hbelow : np_lt sd' sd = true).
      { destruct Hle as [Hle| ->]; [|exact Hlt]. exact (np_lt_trans _ _ _ Hle Hlt). }
      split; [|split; [now left|right]].
      * intros f [<-|Hin]; [|now apply Hall].
        destruct Hle as [Hle| ->]; [|apply np_lt_irrefl].
        exact (np_lt_not_below _ _ _ (np_lt_irrefl _) Hle).
      * destruct Hfrom as [[-> ->]|(f & Hin & Hsd & Hsol & _)].
        -- exists f0. repeat split; [now left|exact Hlt].
        -- exists f. repeat split; [now right|assumption..].
    + destruct (IH _ _ _ _ Hk) as (Hall & Hle & Hfrom).
      split; [|split; [exact Hle|]].
      * intros f [<-|Hin]; [|now apply Hall].
        destruct Hle as [Hle| ->]; [|exact Hlt].
        exact (np_lt_not_below _ _ _ Hlt Hle).
      * destruct Hfrom as [?|(f & Hin & Hsd & Hsol & Hb)]; [now left|right].
        exists f. repeat split; [now right|assumption..].
Qed.

(** ** Sorting rows by time *)

Lemma insert_row_perm (r : R * R) (rows : list (R * R)) :
  Permutation (insert_row r rows) (r :: rows).
Proof.
  induction rows as [|r' rows IH]; cbn [insert_row]; [reflexivity|].
  destruct (Rle_dec (fst r) (fst r')); [reflexivity|].
  rewrite IH. apply perm_swap.
Qed.

Lemma sort_rows_perm (rows : list (R * R)) : Permutation (sort_rows rows) rows.
Proof.
  induction rows as [|r rows IH]; cbn [sort_rows]; [reflexivity|].
  rewrite insert_row_perm. now constructor.
Qed.

Lemma insert_row_sorted (r : R * R) (rows : list (R * R)) :
  Sorted by_time rows -> Sorted by_time (insert_row r rows).
Proof.
  induction rows as [|r' rows IH]; intros Hs; cbn [insert_row].
  - repeat constructor.
  - destruct (Rle_dec (fst r) (fst r')) as [Hle|Hgt].
    + constructor; [assumption|]. constructor. exact Hle.
    + inversion Hs as [|? ? Hs' Hhd]; subst.
      constructor; [now apply IH|].
      destruct rows as [|r'' rows]; cbn [insert_row].
      * constructor. unfold by_time. lra.
      * destruct (Rle_dec (fst r) (fst r'')).
        -- constructor. unfold by_time. lra.
        -- inversion Hhd; subst. now constructor.
Qed.

Lemma sort_rows_sorted (rows : list (R * R)) : Sorted by_time (sort_rows rows).
Proof.
  induction rows as [|r rows IH]; cbn [sort_rows]; [constructor|].
  now apply insert_row_sorted.
Qed.

(** ** The first-half-average begin velocity *)

Lemma combine_fst_snd {A B : Type} (l : list (A * B)) :
  combine (map fst l) (map snd l) = l.
Proof. induction l as [|[a b] l IH]; [reflexivity|]. cbn. now rewrite IH. Qed.

Lemma StronglySorted_app_le {A : Type} (Rel : A -> A -> Prop) (l1 l2 : list A) :
  StronglySorted Rel (l1 ++ l2) ->
  forall a b, In a l1 -> In b l2 -> Rel a b.
Proof.
  induction l1 as [|x l1 IH]; intros Hs a b Ha Hb; [contradiction|].
  cbn [app] in Hs. inversion Hs as [|? ? Hs' Hall]; subst.
  destruct Ha as [<-|Ha].
  - rewrite Forall_forall in Hall. apply Hall, in_or_app. now right.
  - now apply IH.
Qed.

Lemma combine_app_same {A B : Type} (a a' : list A) (b b' : list B) :
  length a = length b -> combine (a ++ a') (b ++ b') = combine a b ++ combine a' b'.
Proof.
  revert b. induction a as [|x a IH]; intros [|y b] H; cbn in H; try discriminate.
  - reflexivity.
  - cbn [app combine]. f_equal. apply IH. lia.
Qed.

Lemma firstn_combine {A B : Type} (n : nat) :
  forall (a : list A) (b : list B),
    firstn n (combine a b) = combine (firstn n a) (firstn n b).
Proof.
  induction n as [|n IH]; intros [|x a] [|y b]; cbn [firstn combine]; try reflexivity.
  f_equal. apply IH.
Qed.

Lemma skipn_combine {A B : Type} (n : nat) :
  forall (a : list A) (b : list B),
    skipn n (combine a b) = combine (skipn n a) (skipn n b).
Proof.
  induction n as [|n IH]; intros [|x a] [|y b]; cbn [skipn combine]; try reflexivity.
  - now rewrite combine_nil.
  - apply IH.
Qed.

Lemma Forall2_firstn {A B : Type} (P : A -> B -> Prop) (n : nat) :
  forall a b, Forall2 P a b -> Forall2 P (firstn n a) (firstn n b).
Proof.
  induction n as [|n IH]; intros a b H; [constructor|].
  destruct H; cbn [firstn]; constructor; auto.
Qed.

Lemma Forall2_skipn {A B : Type} (P : A -> B -> Prop) (n : nat) :
  forall a b, Forall2 P a b -> Forall2 P (skipn n a) (skipn n b).
Proof.
  induction n as [|n IH]; intros a b H; [exact H|].
  destruct H; cbn [skipn]; [constructor|auto].
Qed.

Lemma without_station_combine {A B : Type} (excluded : option nat)
  (a : list A) (b : list B) :
  length a = length b ->
  combine (without_station excluded a) (without_station excluded b) =
  without_station excluded (combine a b).
Proof.
  intros Hlen. destruct excluded as [k|]; [|reflexivity]. cbn [without_station].
  rewrite combine_app_same by (rewrite !length_firstn; lia).
  now rewrite firstn_combine, skipn_combine.
Qed.

Lemma without_station_Forall2 {A B : Type} (P : A -> B -> Prop)
  (excluded : option nat) (a : list A) (b : list B) :
  Forall2 P a b -> Forall2 P (without_station excluded a) (without_station excluded b).
Proof.
  intros H. destruct excluded as [k|]; [|exact H]. cbn [without_station].
  apply Forall2_app; [now apply Forall2_firstn|now apply Forall2_skipn].
Qed.

(** Pooling the times and the distances apart, as the code does, pairs them
    as pooling the pairs does, where every station has as many times as
    distances. *)
Lemma combine_concat (a b : list (list R)) :
  Forall2 (fun t d => length t = length d) a b ->
  length (concat a) = length (concat b) /\
  combine (concat a) (concat b) =
    concat (map (fun station => combine (fst station) (snd station)) (combine a b)).
Proof.
  induction 1 as [|t d a b Hlen Hall [IHlen IHeq]]; [split; reflexivity|].
  cbn [concat combine map fst snd]. split.
  - rewrite !length_app. lia.
  - rewrite combine_app_same by exact Hlen. now rewrite IHeq.
Qed.

Section FirstHalfAverageProps.

Variable curve_fit_line : list R -> list R -> result ((R * R) * (npfloat * npfloat)).
Variable argsort_rows : list (R * R) -> list (R * R).

(** The points of a candidate whose stations are those of the specification. *)
Lemma candidate_half_pooled (use_indices : list nat) (excluded : option nat)
  (times svd : list (list R)) :
  Forall2 (fun t d => length t = length d) times svd ->
  filter_indices use_indices 0 times = without_station excluded times ->
  filter_indices use_indices 0 svd = without_station excluded svd ->
  candidate_half argsort_rows use_indices times svd =
    Ok (map fst (earliest_half (argsort_rows (pooled_pairs excluded times svd))),
        map snd (earliest_half (argsort_rows (pooled_pairs excluded times svd)))).
Proof.
  intros Hall Ht Hs. unfold candidate_half, np_c_. rewrite Ht, Hs.
  destruct (combine_concat _ _ (without_station_Forall2 _ excluded _ _ Hall))
    as [Hlen Heq].
  rewrite Hlen, Nat.eqb_refl. cbn [bind]. rewrite Heq.
  rewrite without_station_combine by exact (Forall2_length Hall).
  fold (pooled_pairs excluded times svd).
  unfold earliest_half. now rewrite length_map, !firstn_map.
Qed.

Lemma candidate_fit_excluding (N : nat) (times svd : list (list R)) (i : nat) :
  length times = N -> length svd = N ->
  Forall2 (fun t d => length t = length d) times svd ->
  (3 <= N)%nat -> (1 <= i <= N)%nat ->
  candidate_fit curve_fit_line argsort_rows N times svd i =
    fit_earliest_half curve_fit_line argsort_rows
      (pooled_pairs (Some (i - 1)%nat) times svd).
Proof.
  intros Ht Hs Hall HN Hi. unfold candidate_fit.
  rewrite use_indices_of_many by assumption. cbn [bind].
  destruct i as [|k]; [lia|]. replace (S k - 1)%nat with k by lia.
  rewrite (candidate_half_pooled _ (Some k)); [reflexivity|exact Hall| |];
    apply filter_indices_all_but; (assumption || lia).
Qed.

Lemma candidate_fit_all (N : nat) (times svd : list (list R)) (i : nat) :
  length times = N -> length svd = N ->
  Forall2 (fun t d => length t = length d) times svd ->
  (N <= 2)%nat ->
  candidate_fit curve_fit_line argsort_rows N times svd i =
    fit_earliest_half curve_fit_line argsort_rows (pooled_pairs None times svd).
Proof.
  intros Ht Hs Hall HN. unfold candidate_fit.
  rewrite use_indices_of_few by assumption. cbn [bind].
  rewrite (candidate_half_pooled _ None); [reflexivity|exact Hall| |];
    cbn [without_station]; apply filter_indices_all; intros j Hj; apply in_seq; lia.
Qed.

Lemma fha_loop_keep_lowest (N : nat) (times svd : list (list R))
  (fit : nat -> (R * R) * (npfloat * npfloat)) (i_values : list nat) :
  N <> 2%nat ->
  forall sd sol,
    (forall i, In i i_values ->
               candidate_fit curve_fit_line argsort_rows N times svd i = Ok (fit i)) ->
    fha_loop curve_fit_line argsort_rows N times svd i_values sd sol
      = Ok (snd (keep_lowest (map fit i_values) sd sol)).
Proof.
  intros HN. induction i_values as [|i rest IH]; intros sd sol Hfit; [reflexivity|].
  cbn [fha_loop map keep_lowest]. rewrite (Hfit i) by now left. cbn [bind].
  destruct (fit i) as [popt pcov].
  destruct (Nat.eqb_spec N 2); [contradiction|].
  destruct (np_lt (np_sqrt (snd pcov)) sd); apply IH; intros j Hj; apply Hfit; now right.
Qed.

Lemma fha_vbegin_two (times svd : list (list R)) :
  fha_vbegin curve_fit_line argsort_rows 2 times svd =
    ('(popt, pcov_diag) <- candidate_fit curve_fit_line argsort_rows 2 times svd 1 ;;
     if np_lt (np_sqrt (snd pcov_diag)) PInf
     then Ok (fst popt / 1000) else Raise TypeError).
Proof.
  unfold fha_vbegin. cbn [seq fha_loop].
  destruct (candidate_fit curve_fit_line argsort_rows 2 times svd 1) as [[popt pcov]|e];
    [|reflexivity].
  cbn [bind Nat.eqb]. now destruct (np_lt (np_sqrt (snd pcov)) PInf).
Qed.

(** What [np.argsort] is relied on for: the rows come back rearranged, in
    the order of their times. *)
Hypothesis argsort_rows_perm : forall rows, Permutation (argsort_rows rows) rows.
Hypothesis argsort_rows_sorted : forall rows, Sorted by_time (argsort_rows rows).

Lemma earliest_half_is_earliest (pool : list (R * R)) :
  Permutation
    (earliest_half (argsort_rows pool)
       ++ skipn (Nat.div (length pool) 2) (argsort_rows pool)) pool /\
  length (earliest_half (argsort_rows pool)) = Nat.div (length pool) 2 /\
  forall kept left_out,
    In kept (earliest_half (argsort_rows pool)) ->
    In left_out (skipn (Nat.div (length pool) 2) (argsort_rows pool)) ->
    fst kept <= fst left_out.
Proof.
  unfold earliest_half.
  rewrite (Permutation_length (argsort_rows_perm pool)).
  set (h := Nat.div (length pool) 2). set (rows := argsort_rows pool).
  split; [rewrite firstn_skipn; apply argsort_rows_perm|]. split.
  - rewrite length_firstn. unfold rows.
    rewrite (Permutation_length (argsort_rows_perm pool)).
    assert (h <= length pool)%nat by (apply Nat.Div0.div_le_upper_bound; lia). lia.
  - intros kept left_out Hk Hl.
    assert (Hss : StronglySorted by_time (firstn h rows ++ skipn h rows)).
    { rewrite firstn_skipn. apply Sorted_StronglySorted; [|apply argsort_rows_sorted].
      intros a b c Hab Hbc. unfold by_time in *. lra. }
    exact (StronglySorted_app_le by_time _ _ Hss kept left_out Hk Hl).
Qed.

(** C6.  In first-half-average mode, with the times and state-vector
    distances of [N] stations, every station with as many times as
    distances:
    - when [N >= 3], the candidate of each [i] in [1..N] is fitted to the
      pairs of every station but the one at index [i - 1]: each candidate
      excludes exactly one station;
    - when [N <= 2], every candidate is fitted to the pairs of all the
      stations, and when [N = 2] the loop ends after the first: the begin
      velocity is the slope over 1000 of that one fit, provided its
      intercept deviation is below infinity;
    - the fit of a candidate is [curve_fit] on the earliest half of the
      (time, distance) pairs of its stations, pooled and put in the order of
      their times ([fit_earliest_half] on [pooled_pairs]): half of the pooled
      points, rounded down, none of them later than a point left out;
    - when [N >= 3] and every candidate is fitted, one of them at least with
      an intercept deviation below infinity, the begin velocity is the slope
      over 1000 of a candidate than which none has a lower intercept
      deviation, nor a lower intercept variance. *)
Theorem first_half_average_selects_lowest_variance (N : nat)
  (times svd : list (list R)) :
  length times = N -> length svd = N ->
  Forall2 (fun t d => length t = length d) times svd ->
  ((3 <= N)%nat -> forall i, (1 <= i <= N)%nat ->
     candidate_fit curve_fit_line argsort_rows N times svd i =
       fit_earliest_half curve_fit_line argsort_rows
         (pooled_pairs (Some (i - 1)%nat) times svd)) /\
  ((N <= 2)%nat -> forall i,
     candidate_fit curve_fit_line argsort_rows N times svd i =
       fit_earliest_half curve_fit_line argsort_rows (pooled_pairs None times svd)) /\
  (N = 2%nat ->
     fha_vbegin curve_fit_line argsort_rows N times svd =
       ('(popt, pcov_diag) <-
          fit_earliest_half curve_fit_line argsort_rows (pooled_pairs None times svd) ;;
        if np_lt (np_sqrt (snd pcov_diag)) PInf
        then Ok (fst popt / 1000) else Raise TypeError)) /\
  (forall pool,
     Permutation
       (earliest_half (argsort_rows pool)
          ++ skipn (Nat.div (length pool) 2) (argsort_rows pool)) pool /\
     length (earliest_half (argsort_rows pool)) = Nat.div (length pool) 2 /\
     forall kept left_out,
       In kept (earliest_half (argsort_rows pool)) ->
       In left_out (skipn (Nat.div (length pool) 2) (argsort_rows pool)) ->
       fst kept <= fst left_out) /\
  ((3 <= N)%nat ->
   forall fit : nat -> (R * R) * (npfloat * npfloat),
     (forall i, (1 <= i <= N)%nat ->
                fit_earliest_half curve_fit_line argsort_rows
                  (pooled_pairs (Some (i - 1)%nat) times svd) = Ok (fit i)) ->
     (exists i, (1 <= i <= N)%nat /\ np_lt (stddev_of (fit i)) PInf = true) ->
     exists i, (1 <= i <= N)%nat /\
       fha_vbegin curve_fit_line argsort_rows N times svd = Ok (fst (fst (fit i)) / 1000) /\
       forall j, (1 <= j <= N)%nat ->
         np_lt (stddev_of (fit j)) (stddev_of (fit i)) = false /\
         (np_nonneg (snd (snd (fit j))) -> np_nonneg (snd (snd (fit i))) ->
          np_lt (snd (snd (fit j))) (snd (snd (fit i))) = false)).
Proof.
  intros Ht Hs Hall. split; [|split; [|split; [|split]]].
  - intros HN i Hi. now apply candidate_fit_excluding.
  - intros HN i. now apply candidate_fit_all.
  - intros ->. rewrite fha_vbegin_two.
    now rewrite (candidate_fit_all 2 times svd 1 Ht Hs Hall (le_n 2)).
  - apply earliest_half_is_earliest.
  - intros HN fit Hfit (i0 & Hi0 & Hfinite).
    assert (Hcand : forall i, In i (seq 1 N) ->
              candidate_fit curve_fit_line argsort_rows N times svd i = Ok (fit i)).
    { intros i Hin. apply in_seq in Hin.
      rewrite candidate_fit_excluding by (assumption || lia). apply Hfit. lia. }
    assert (Hloop := fha_loop_keep_lowest N times svd fit (seq 1 N) ltac:(lia) PInf None Hcand).
    unfold fha_vbegin. rewrite Hloop.
    destruct (keep_lowest (map fit (seq 1 N)) PInf None) as [sd' sol'] eqn:Hk.
    destruct (keep_lowest_spec _ _ _ _ _ Hk) as (Hlow_all & _ & Hfrom).
    assert (Hin0 : In (fit i0) (map fit (seq 1 N))).
    { apply in_map, in_seq. lia. }
    destruct Hfrom as [[-> _]|(f & Hin & Hsd & Hsol & _)].
    { rewrite (Hlow_all _ Hin0) in Hfinite. discriminate. }
    apply in_map_iff in Hin as (i & <- & Hin). apply in_seq in Hin.
    exists i. split; [lia|]. subst sd' sol'. cbn [bind snd].
    split; [reflexivity|].
    intros j Hj.
    assert (Hlow : np_lt (stddev_of (fit j)) (stddev_of (fit i)) = false).
    { apply Hlow_all, in_map, in_seq. lia. }
    split; [exact Hlow|].
    intros Hnj Hni. unfold stddev_of in Hlow. now rewrite np_lt_sqrt in Hlow.
Qed.

End FirstHalfAverageProps.

(** *** Three stations, the first with a point off the line *)

Ltac eval_sort_rows :=
  cbn [sort_rows insert_row fst];
  repeat (match goal with
          | |- context [Rle_dec ?a ?b] =>
              destruct (Rle_dec a b); [try (exfalso; lra)|try (exfalso; lra)]
          end; cbn [insert_row fst]).

Ltac eval_pool :=
  unfold fit_earliest_half, pooled_pairs, without_station,
    three_station_times, three_station_distances;
  cbn [combine firstn skipn app map concat fst snd Nat.sub];
  eval_sort_rows;
  unfold earliest_half; cbn [length];
  change (Nat.div 6 2) with 3%nat; cbn [firstn map fst snd].

Lemma three_station_fit_1 :
  fit_earliest_half secant_line_fit sort_rows
    (pooled_pairs (Some 0%nat) three_station_times three_station_distances)
  = Ok ((10, 0), (Fin 0, Fin 0)).
Proof.
  eval_pool. unfold secant_line_fit, secant_line.
  cbn [hd last combine sum_sq_residuals]. unfold lineFunc.
  f_equal. f_equal; [f_equal; field|f_equal; f_equal; field].
Qed.

Lemma three_station_fit_2 :
  fit_earliest_half secant_line_fit sort_rows
    (pooled_pairs (Some 1%nat) three_station_times three_station_distances)
  = Ok ((8, 6), (Fin 0, Fin 4)).
Proof.
  eval_pool. unfold secant_line_fit, secant_line.
  cbn [hd last combine sum_sq_residuals]. unfold lineFunc.
  f_equal. f_equal; [f_equal; field|f_equal; f_equal; field].
Qed.

Lemma three_station_fit_3 :
  fit_earliest_half secant_line_fit sort_rows
    (pooled_pairs (Some 2%nat) three_station_times three_station_distances)
  = Ok ((8, 6), (Fin 0, Fin 16)).
Proof.
  eval_pool. unfold secant_line_fit, secant_line.
  cbn [hd last combine sum_sq_residuals]. unfold lineFunc.
  f_equal. f_equal; [f_equal; field|f_equal; f_equal; field].
Qed.

(** Three stations of three points each, sorted by insertion and fitted by
    the line through the end points of the half: the candidates that keep
    the first station have the slope 8 and the intercept variances 4 and
    16, the candidate that excludes it has the slope 10 and the variance 0,
    and sets the begin velocity. *)
Lemma first_half_average_selects_lowest_variance_witness :
  fha_vbegin secant_line_fit sort_rows 3 three_station_times three_station_distances
    = Ok (10 / 1000).
Proof.
  destruct (first_half_average_selects_lowest_variance secant_line_fit sort_rows
              sort_rows_perm sort_rows_sorted 3
              three_station_times three_station_distances eq_refl eq_refl)
    as (_ & _ & _ & _ & Hsel).
  { repeat constructor. }
  destruct (Hsel (le_n 3)
              (fun i => match i with
                        | 1%nat => ((10, 0), (Fin 0, Fin 0))
                        | 2%nat => ((8, 6), (Fin 0, Fin 4))
                        | _ => ((8, 6), (Fin 0, Fin 16))
                        end)) as (i & Hi & Hv & Hlow).
  - intros i Hi.
    assert (Hcases : i = 1%nat \/ i = 2%nat \/ i = 3%nat) by lia.
    destruct Hcases as [ -> | [ -> | -> ] ];
      [exact three_station_fit_1|exact three_station_fit_2|exact three_station_fit_3].
  - exists 1%nat. split; [lia|].
    unfold stddev_of, np_sqrt. cbn [snd].
    destruct (Rlt_dec 0 0); [lra|reflexivity].
  - destruct (Hlow 1%nat ltac:(lia)) as (_ & Hvar).
    assert (Hcases : i = 1%nat \/ i = 2%nat \/ i = 3%nat) by lia.
    destruct Hcases as [ -> | [ -> | -> ] ]; cbn [fst snd] in *.
    + exact Hv.
    + exfalso. assert (H := Hvar (Rle_refl 0) ltac:(cbn; lra)).
      cbn [np_lt] in H. destruct (Rlt_dec 0 4); [discriminate|lra].
    + exfalso. assert (H := Hvar (Rle_refl 0) ltac:(cbn; lra)).
      cbn [np_lt] in H. destruct (Rlt_dec 0 16); [discriminate|lra].
Defined.

(* ================================================================= *)
(** * Further properties *)

(** ** loadMiligInput: the loop over the lines *)

Lemma add_pick_aligned (st : StationData) (time azim zangle : R) (bad_pick : Z) :
  picks_aligned st -> picks_aligned (add_pick st time azim zangle bad_pick).
Proof.
  intros (Ha & Hz & Hi). unfold picks_aligned, add_pick. cbn.
  rewrite !length_app. cbn. lia.
Qed.

Lemma read_station_line_aligned (line : string) (st : StationData) :
  read_station_line line = Ok st -> picks_aligned st.
Proof.
  unfold read_station_line.
  destruct (py_float (slice line 3 13)); [|discriminate].
  destruct (py_float (slice line 13 23)); [|discriminate].
  destruct (py_float (slice line 23 28)); [|discriminate].
  cbn [bind]. intros H; injection H as <-. repeat split.
Qed.

Lemma read_lines_picks_aligned (lines : list string) :
  forall stations stat_ind new_station res,
    Forall picks_aligned stations ->
    read_lines lines stations stat_ind new_station = Ok res ->
    Forall picks_aligned res.
Proof.
  induction lines as [|line rest IH]; intros stations i b res Hall H; cbn [read_lines] in H.
  - now injection H as <-.
  - destruct (String.eqb (drop_newlines line) "-1"); [now injection H as <-|].
    destruct b.
    + destruct (read_station_line line) as [st|e] eqn:Hst; [|discriminate].
      cbn [bind] in H. apply IH in H; [exact H|].
      apply Forall_app. split; [exact Hall|].
      constructor; [|constructor]. now apply read_station_line_aligned in Hst.
    + destruct (read_pick_line line) as [[[[[t az] z] bp] last]|e]; [|discriminate].
      cbn [bind] in H.
      destruct (update_at stations i _) as [stations'|e] eqn:Hu; [|discriminate].
      cbn [bind] in H. apply IH in H; [exact H|].
      destruct (update_at_spec _ _ _ _ Hu) as (x & Hx & ->).
      assert (Hin : picks_aligned x).
      { rewrite Forall_forall in Hall. apply Hall. now apply nth_error_In in Hx. }
      apply Forall_app. split; [now apply Forall_firstn_skipn|].
      constructor; [now apply add_pick_aligned|now apply Forall_firstn_skipn].
Qed.

Lemma milig_example_loads (date2JD : R -> R -> R -> R -> R -> R -> R) :
  exists jdt_ref st, loadMiligInput date2JD milig_example = Ok (jdt_ref, [st]).
Proof.
  unfold loadMiligInput, py_float. eval_text. cbn [bind].
  cbn [read_lines]. eval_text. cbn iota.
  unfold read_station_line, py_float. eval_text. cbn [bind app length Nat.sub].
  cbn [read_lines]. eval_text. cbn iota.
  unfold read_pick_line, py_float. eval_text.
  cbn [bind update_at app Z.eqb Pos.eqb]. cbn [read_lines]. eval_text. cbn iota.
  eexists; eexists. reflexivity.
Qed.

(** Every station that [loadMiligInput] returns has as many azimuths, zenith
    angles and ignore flags as it has times. *)
Theorem loadMiligInput_picks_aligned (date2JD : R -> R -> R -> R -> R -> R -> R)
  (text : string) (jdt_ref : R) (stations : list StationData) :
  loadMiligInput date2JD text = Ok (jdt_ref, stations) ->
  Forall picks_aligned stations.
Proof.
  unfold loadMiligInput.
  repeat match goal with
         | |- context [py_float ?s] => destruct (py_float s); [cbn [bind]|discriminate]
         end.
  destruct (split_lines _ _) as [|first lines].
  - intros H; injection H as _ <-. constructor.
  - destruct (read_lines lines [] 0 true) as [res|e] eqn:Hr; [|discriminate].
    cbn [bind]. intros H; injection H as _ <-.
    now apply (read_lines_picks_aligned lines [] 0%nat true).
Qed.

Lemma loadMiligInput_picks_aligned_witness :
  exists jdt_ref st,
    loadMiligInput (fun _ _ _ _ _ _ => 0) milig_example = Ok (jdt_ref, [st]) /\
    Forall picks_aligned [st].
Proof.
  destruct (milig_example_loads (fun _ _ _ _ _ _ => 0)) as (jd & st & H).
  exists jd, st. split; [exact H|].
  exact (loadMiligInput_picks_aligned _ _ _ _ H).
Defined.



(** The loop keeps [stat_ind] at the last station: the stations opened
    before it are returned as they were, and the last one with the same
    identifier, position and height, its picks only added to. *)
Theorem read_lines_appends_to_last_station (lines : list string) :
  forall stations new_station res,
    read_lines lines stations (length stations - 1) new_station = Ok res ->
    (length stations <= length res)%nat /\
    firstn (length stations - 1) res = firstn (length stations - 1) stations /\
    forall st, nth_error stations (length stations - 1) = Some st ->
      exists st', nth_error res (length stations - 1) = Some st' /\ same_station st st'.
Proof.
  induction lines as [|line rest IH]; intros stations b res H; cbn [read_lines] in H.
  - injection H as <-. split; [lia|]. split; [reflexivity|].
    intros st Hst. exists st. split; [exact Hst|apply same_station_refl].
  - destruct (String.eqb (drop_newlines line) "-1").
    { injection H as <-. split; [lia|]. split; [reflexivity|].
      intros st Hst. exists st. split; [exact Hst|apply same_station_refl]. }
    destruct b.
    + destruct (read_station_line line) as [new_st|e]; [|discriminate].
      cbn [bind] in H. apply IH in H. destruct H as (Hlen & Hpre & _).
      rewrite length_app in Hlen, Hpre. cbn [length] in Hlen, Hpre.
      replace (length stations + 1 - 1)%nat with (length stations) in Hpre by lia.
      rewrite firstn_app, Nat.sub_diag, firstn_all in Hpre. cbn [firstn] in Hpre.
      rewrite app_nil_r in Hpre.
      split; [lia|]. split.
      * transitivity (firstn (length stations - 1) (firstn (length stations) res));
          [|now rewrite Hpre].
        rewrite firstn_firstn. f_equal. lia.
      * intros st Hst. exists st. split; [|apply same_station_refl].
        assert (Hi : (length stations - 1 < length stations)%nat).
        { apply nth_error_Some. rewrite Hst. discriminate. }
        pose proof (nth_error_firstn (length stations) res (length stations - 1)) as Hn.
        rewrite Hpre in Hn.
        destruct (Nat.ltb_spec (length stations - 1) (length stations)); [|lia].
        now rewrite <- Hn.
    + destruct (read_pick_line line) as [[[[[t az] z] bp] last]|e]; [|discriminate].
      cbn [bind] in H.
      destruct (update_at stations _ _) as [stations'|e] eqn:Hu; [|discriminate].
      cbn [bind] in H.
      destruct (update_at_spec _ _ _ _ Hu) as (x & Hx & Hs').
      assert (Hi : (length stations - 1 < length stations)%nat).
      { apply nth_error_Some. rewrite Hx. discriminate. }
      assert (Hl' : length stations' = length stations).
      { rewrite Hs', length_app, length_firstn. cbn [length]. rewrite length_skipn. lia. }
      rewrite <- Hl' in H. apply IH in H. rewrite Hl' in H.
      destruct H as (Hlen & Hpre & Hlast).
      split; [lia|]. split.
      * rewrite Hpre, Hs'. rewrite firstn_app, firstn_firstn, length_firstn.
        replace (length stations - 1 - Nat.min (length stations - 1) (length stations))%nat
          with 0%nat by lia.
        cbn [firstn]. rewrite app_nil_r. f_equal. lia.
      * intros st Hst. rewrite Hx in Hst. injection Hst as <-.
        destruct (Hlast (add_pick x t az z bp)) as (st' & Hst' & Hsame).
        { rewrite Hs'. rewrite nth_error_app2 by (rewrite length_firstn; lia).
          rewrite length_firstn.
          replace (length stations - 1 - Nat.min (length stations - 1) (length stations))%nat
            with 0%nat by lia.
          reflexivity. }
        exists st'. split; [exact Hst'|].
        eapply same_station_trans; [apply add_pick_same_station|exact Hsame].
Qed.

Lemma milig_pick_line_read (st : StationData) :
  exists st', read_lines [milig_pick_line] [st] 0 false = Ok [st'].
Proof.
  cbn [read_lines]. eval_text. cbn iota.
  unfold read_pick_line, py_float. eval_text.
  cbn [bind update_at app Z.eqb Pos.eqb]. eexists. reflexivity.
Qed.

Lemma read_lines_appends_to_last_station_witness :
  exists st',
    read_lines [milig_pick_line] [StationData_init "1" 0 0 0] 0 false = Ok [st'] /\
    same_station (StationData_init "1" 0 0 0) st'.
Proof.
  destruct (milig_pick_line_read (StationData_init "1" 0 0 0)) as (st' & H).
  exists st'. split; [exact H|].
  destruct (read_lines_appends_to_last_station _ [StationData_init "1" 0 0 0] false _ H)
    as (_ & _ & Hlast).
  destruct (Hlast _ eq_refl) as (st'' & Hnth & Hsame).
  cbn in Hnth. injection Hnth as <-. exact Hsame.
Defined.

(** ** loadPickle: the attributes after the fix-ups *)

Section LoadPickleProps.

Variable gravity_factor_default : pyval.
Variable v0z_default : pyval.
Variable fixMissingParameters : pyval -> result unit.

Lemma hasattr_setattr (p : attrs) (k name : string) (v : pyval) :
  hasattr (setattr p k v) name = String.eqb k name || hasattr p name.
Proof.
  unfold hasattr. rewrite getattr_setattr. now destruct (String.eqb k name).
Qed.

Lemma loadPickle_fixups_getattr (p p' : attrs) :
  loadPickle_fixups gravity_factor_default v0z_default fixMissingParameters p = Ok p' ->
  forall name,
    getattr p' name =
      if String.eqb "uncertainties" name || String.eqb "uncertanties" name
      then uncertainties_value p
      else if hasattr p "orbit" && hasattr p "observations"
              && String.eqb "gravity_factor" name
      then Some (match getattr p name with Some v => v | None => gravity_factor_default end)
      else if hasattr p "orbit" && hasattr p "observations" && String.eqb "v0z" name
      then Some (match getattr p name with Some v => v | None => v0z_default end)
      else getattr p name.
Proof.
  unfold loadPickle_fixups.
  set (p1 := match getattr p "uncertainties" with
             | Some v => setattr p "uncertanties" v
             | None => p
             end).
  assert (H1 : forall name, getattr p1 name =
                 if String.eqb "uncertanties" name then uncertainties_value p
                 else getattr p name).
  { intros name. unfold p1, uncertainties_value.
    destruct (getattr p "uncertainties") as [v|] eqn:Hu.
    - now rewrite getattr_setattr.
    - destruct (String.eqb_spec "uncertanties" name) as [<-|]; reflexivity. }
  set (p2 := match getattr p1 "uncertanties" with
             | Some v => setattr p1 "uncertainties" v
             | None => p1
             end).
  assert (H2 : forall name, getattr p2 name =
                 if String.eqb "uncertainties" name || String.eqb "uncertanties" name
                 then uncertainties_value p
                 else getattr p name).
  { intros name. unfold p2. rewrite (H1 "uncertanties"%string), String.eqb_refl.
    destruct (uncertainties_value p) as [w|] eqn:Hw.
    - rewrite getattr_setattr, H1.
      destruct (String.eqb "uncertainties" name); [reflexivity|].
      now destruct (String.eqb "uncertanties" name).
    - rewrite H1.
      destruct (String.eqb_spec "uncertainties" name) as [E|E]; cbn [orb]; [|reflexivity].
      subst name. cbn [String.eqb Ascii.eqb Bool.eqb].
      unfold uncertainties_value in Hw.
      destruct (getattr p "uncertainties"); [discriminate|reflexivity]. }
  clearbody p2. clear p1 H1.
  assert (Hh : forall name, String.eqb "uncertainties" name = false ->
                            String.eqb "uncertanties" name = false ->
                            hasattr p2 name = hasattr p name).
  { intros name E1 E2. unfold hasattr. now rewrite H2, E1, E2. }
  rewrite (Hh "orbit"%string), (Hh "observations"%string) by reflexivity.
  destruct (hasattr p "orbit" && hasattr p "observations") eqn:Htraj; cbn [andb].
  - destruct (match getattr p2 "orbit" with
              | Some PNone | None => Ok tt
              | Some orbit => fixMissingParameters orbit
              end) as [[]|e]; [|discriminate].
    cbn [bind]. intros H; injection H as <-. intros name.
    set (p3 := if hasattr p2 "gravity_factor" then p2
               else setattr p2 "gravity_factor" gravity_factor_default).
    assert (H3 : forall name, getattr p3 name =
                   if String.eqb "gravity_factor" name
                   then Some (match getattr p2 name with
                              | Some v => v | None => gravity_factor_default end)
                   else getattr p2 name).
    { intros n. unfold p3, hasattr.
      destruct (getattr p2 "gravity_factor") as [v|] eqn:Hg.
      - destruct (String.eqb_spec "gravity_factor" n) as [<-|]; [now rewrite Hg|reflexivity].
      - rewrite getattr_setattr.
        destruct (String.eqb_spec "gravity_factor" n) as [<-|]; [now rewrite Hg|reflexivity]. }
    assert (H4 : getattr (if hasattr p3 "v0z" then p3 else setattr p3 "v0z" v0z_default) name =
                   if String.eqb "v0z" name
                   then Some (match getattr p3 name with Some v => v | None => v0z_default end)
                   else getattr p3 name).
    { unfold hasattr.
      destruct (getattr p3 "v0z") as [v|] eqn:Hg.
      - destruct (String.eqb_spec "v0z" name) as [<-|]; [now rewrite Hg|reflexivity].
      - rewrite getattr_setattr.
        destruct (String.eqb_spec "v0z" name) as [<-|]; [now rewrite Hg|reflexivity]. }
    rewrite H4, !H3, !H2.
    destruct (String.eqb_spec "uncertainties" name) as [<-|N1];
      [reflexivity|].
    destruct (String.eqb_spec "uncertanties" name) as [<-|N2];
      [reflexivity|].
    cbn [orb].
    destruct (String.eqb_spec "gravity_factor" name) as [<-|N3]; [reflexivity|].
    destruct (String.eqb_spec "v0z" name) as [<-|N4]; reflexivity.
  - intros H; injection H as <-. intros name. rewrite H2.
    now destruct (String.eqb "uncertainties" name || String.eqb "uncertanties" name).
Qed.

End LoadPickleProps.

Section LoadPickleTheorems.

Variable gravity_factor_default : pyval.
Variable v0z_default : pyval.
Variable fixMissingParameters : pyval -> result unit.

(** After [loadPickle] the two spellings [uncertainties] and [uncertanties]
    are bound to one value, or both absent: the value of [uncertainties] when
    the pickle had it, else that of [uncertanties]. *)
Theorem loadPickle_aligns_uncertainties (p p' : attrs) :
  loadPickle_fixups gravity_factor_default v0z_default fixMissingParameters p = Ok p' ->
  getattr p' "uncertainties" = uncertainties_value p /\
  getattr p' "uncertanties" = uncertainties_value p /\
  (hasattr p' "uncertainties" = hasattr p "uncertainties" || hasattr p "uncertanties").
Proof.
  intros H. pose proof (loadPickle_fixups_getattr _ _ _ _ _ H) as Hg.
  assert (H1 := Hg "uncertainties"%string). assert (H2 := Hg "uncertanties"%string).
  cbn [String.eqb Ascii.eqb Bool.eqb orb] in H1, H2.
  split; [exact H1|]. split; [exact H2|].
  unfold hasattr. rewrite H1. unfold uncertainties_value.
  now destruct (getattr p "uncertainties").
Qed.

(** With the floats that lines 69 and 73 assign, an object with [orbit] and
    [observations] leaves [loadPickle] with a [gravity_factor] and a [v0z]:
    those it had, else 1.0 and 0.0.  On any other object these two are as
    pickled.  Every attribute besides these two and the two spellings of
    [uncertainties] is as pickled. *)
Theorem loadPickle_trajectory_defaults (p p' : attrs) :
  loadPickle_fixups (PFloat 1) (PFloat 0) fixMissingParameters p = Ok p' ->
  (hasattr p "orbit" && hasattr p "observations" = true ->
     getattr p' "gravity_factor" =
       Some (match getattr p "gravity_factor" with
             | Some v => v | None => PFloat 1 end) /\
     getattr p' "v0z" =
       Some (match getattr p "v0z" with Some v => v | None => PFloat 0 end)) /\
  (hasattr p "orbit" && hasattr p "observations" = false ->
     getattr p' "gravity_factor" = getattr p "gravity_factor" /\
     getattr p' "v0z" = getattr p "v0z") /\
  (forall name,
     name <> "uncertainties"%string -> name <> "uncertanties"%string ->
     name <> "gravity_factor"%string -> name <> "v0z"%string ->
     getattr p' name = getattr p name).
Proof.
  intros H. pose proof (loadPickle_fixups_getattr _ _ _ _ _ H) as Hg.
  assert (H1 := Hg "gravity_factor"%string). assert (H2 := Hg "v0z"%string).
  cbn [String.eqb Ascii.eqb Bool.eqb orb] in H1, H2.
  split; [|split].
  - intros Ht. rewrite Ht in H1, H2. cbn [andb] in H1, H2. now split.
  - intros Ht. rewrite Ht in H1, H2. cbn [andb] in H1, H2. now split.
  - intros name N1 N2 N3 N4. rewrite Hg.
    destruct (String.eqb_spec "uncertainties" name); [congruence|].
    destruct (String.eqb_spec "uncertanties" name); [congruence|].
    destruct (String.eqb_spec "gravity_factor" name); [congruence|].
    destruct (String.eqb_spec "v0z" name); [congruence|].
    cbn [orb]. rewrite !andb_false_r. reflexivity.
Qed.

(** Loading is idempotent on the attributes: fixing up an object that has
    been fixed up changes no binding. *)
Theorem loadPickle_fixups_idempotent (p p' p'' : attrs) :
  loadPickle_fixups gravity_factor_default v0z_default fixMissingParameters p = Ok p' ->
  loadPickle_fixups gravity_factor_default v0z_default fixMissingParameters p' = Ok p'' ->
  forall name, getattr p'' name = getattr p' name.
Proof.
  intros H H'.
  pose proof (loadPickle_fixups_getattr _ _ _ _ _ H) as Hg.
  pose proof (loadPickle_fixups_getattr _ _ _ _ _ H') as Hg'.
  assert (Hu : uncertainties_value p' = uncertainties_value p).
  { unfold uncertainties_value at 1.
    rewrite (Hg "uncertainties"%string), (Hg "uncertanties"%string).
    cbn [String.eqb Ascii.eqb Bool.eqb orb].
    now destruct (uncertainties_value p). }
  assert (Ho : hasattr p' "orbit" = hasattr p "orbit").
  { unfold hasattr. rewrite (Hg "orbit"%string).
    cbn [String.eqb Ascii.eqb Bool.eqb orb]. rewrite !andb_false_r. reflexivity. }
  assert (Hb : hasattr p' "observations" = hasattr p "observations").
  { unfold hasattr. rewrite (Hg "observations"%string).
    cbn [String.eqb Ascii.eqb Bool.eqb orb]. rewrite !andb_false_r. reflexivity. }
  intros name. rewrite Hg', Hu, Ho, Hb, Hg.
  destruct (String.eqb "uncertainties" name || String.eqb "uncertanties" name);
    [reflexivity|].
  destruct (hasattr p "orbit" && hasattr p "observations"); cbn [andb]; [|reflexivity].
  destruct (String.eqb "gravity_factor" name); [reflexivity|].
  destruct (String.eqb "v0z" name); reflexivity.
Qed.

End LoadPickleTheorems.

Lemma old_trajectory_pickle_fixed :
  exists p', loadPickle_fixups (PRef 10) (PRef 11) (fun _ => Ok tt) old_trajectory_pickle
             = Ok p'.
Proof. eexists. reflexivity. Qed.

Lemma loadPickle_aligns_uncertainties_witness :
  exists p',
    loadPickle_fixups (PRef 10) (PRef 11) (fun _ => Ok tt) old_trajectory_pickle = Ok p' /\
    getattr p' "uncertainties" = Some (PRef 3) /\
    getattr p' "uncertanties" = Some (PRef 3).
Proof.
  destruct old_trajectory_pickle_fixed as (p' & H). exists p'. split; [exact H|].
  destruct (loadPickle_aligns_uncertainties _ _ _ _ _ H) as (H1 & H2 & _).
  split; [exact H1|exact H2].
Defined.

Lemma old_trajectory_pickle_loaded :
  exists p', loadPickle_fixups (PFloat 1) (PFloat 0) (fun _ => Ok tt) old_trajectory_pickle
             = Ok p'.
Proof. eexists. reflexivity. Qed.

Lemma loadPickle_trajectory_defaults_witness :
  exists p',
    loadPickle_fixups (PFloat 1) (PFloat 0) (fun _ => Ok tt) old_trajectory_pickle = Ok p' /\
    getattr p' "gravity_factor" = Some (PFloat 1) /\
    getattr p' "v0z" = Some (PFloat 0).
Proof.
  destruct old_trajectory_pickle_loaded as (p' & H). exists p'. split; [exact H|].
  destruct (loadPickle_trajectory_defaults _ _ _ H) as (H1 & _ & _).
  exact (H1 eq_refl).
Defined.

Lemma loadPickle_fixups_idempotent_witness :
  exists p' p'',
    loadPickle_fixups (PRef 10) (PRef 11) (fun _ => Ok tt) old_trajectory_pickle = Ok p' /\
    loadPickle_fixups (PRef 10) (PRef 11) (fun _ => Ok tt) p' = Ok p'' /\
    forall name, getattr p'' name = getattr p' name.
Proof.
  eexists; eexists. split; [reflexivity|]. split; [reflexivity|].
  apply (loadPickle_fixups_idempotent (PRef 10) (PRef 11) (fun _ => Ok tt)
           old_trajectory_pickle); reflexivity.
Defined.

(** ** savePickle when the pickle cannot be written *)

Section SavePickleFailure.

Variable FS : Type.
Variable mkdirP : string -> FS -> result FS.
Variable path_join : string -> string -> string.
Variable dump_to_file : string -> attrs -> FS -> result FS.

(** The two descriptions of the method agree on what the call returns or
    raises. *)
Lemma savePickle_outcome_agrees (self : attrs) (dir_path file_name : string) (fs : FS) :
  match GuralTrajectory_savePickle FS mkdirP path_join dump_to_file self dir_path file_name fs
  with
  | Ok (self', fs') =>
      GuralTrajectory_savePickle_outcome FS mkdirP path_join dump_to_file
        self dir_path file_name fs = (self', Ok fs')
  | Raise e =>
      snd (GuralTrajectory_savePickle_outcome FS mkdirP path_join dump_to_file
             self dir_path file_name fs) = Raise e
  end.
Proof.
  unfold GuralTrajectory_savePickle, GuralTrajectory_savePickle_outcome.
  destruct (backup_and_remove self "traj_lib") as [b1 s1].
  destruct (backup_and_remove s1 "traj") as [b2 s2].
  destruct (Pickling_savePickle FS mkdirP path_join dump_to_file s2 dir_path file_name fs);
    reflexivity.
Qed.

(** When creating the directory or writing the file raises, [savePickle]
    raises the same exception and leaves the object without [traj_lib] and
    [traj], also where it had them: they are not put back.  The other
    attributes are as before. *)
Theorem savePickle_failure_leaves_handles_removed (self : attrs)
  (dir_path file_name : string) (fs : FS) (e : exn) :
  NoDup (map fst self) ->
  Pickling_savePickle FS mkdirP path_join dump_to_file
    (without_solver_handles self) dir_path file_name fs = Raise e ->
  GuralTrajectory_savePickle FS mkdirP path_join dump_to_file self dir_path file_name fs
    = Raise e /\
  exists self',
    GuralTrajectory_savePickle_outcome FS mkdirP path_join dump_to_file
      self dir_path file_name fs = (self', Raise e) /\
    getattr self' "traj_lib" = None /\
    getattr self' "traj" = None /\
    forall name, name <> "traj_lib"%string -> name <> "traj"%string ->
                 getattr self' name = getattr self name.
Proof.
  intros Hnd.
  unfold GuralTrajectory_savePickle, GuralTrajectory_savePickle_outcome,
    without_solver_handles.
  destruct (backup_and_remove self "traj_lib") as [b1 s1] eqn:H1. cbn [snd].
  destruct (backup_and_remove s1 "traj") as [b2 s2] eqn:H2. cbn [snd].
  destruct (backup_and_remove_spec _ _ Hnd _ _ H1) as (Hnd1 & Hg1 & _).
  destruct (backup_and_remove_spec _ _ Hnd1 _ _ H2) as (_ & Hg2 & _).
  intros Hp. rewrite Hp. cbn [bind]. split; [reflexivity|].
  exists s2. split; [reflexivity|].
  split; [rewrite Hg2, Hg1; reflexivity|]. split; [rewrite Hg2; reflexivity|].
  intros name N1 N2. rewrite Hg2, Hg1.
  destruct (String.eqb_spec "traj" name); [congruence|].
  destruct (String.eqb_spec "traj_lib" name); [congruence|]. reflexivity.
Qed.

End SavePickleFailure.

Lemma savePickle_failure_leaves_handles_removed_witness :
  exists self',
    GuralTrajectory_savePickle_outcome mem_fs mem_mkdirP mem_path_join failing_dump
      loaded_trajectory "out" "traj.pickle" [] = (self', Raise TypeError) /\
    getattr loaded_trajectory "traj_lib" = Some (PRef 1) /\
    getattr self' "traj_lib" = None /\
    getattr self' "traj" = None.
Proof.
  destruct (savePickle_failure_leaves_handles_removed mem_fs mem_mkdirP mem_path_join
              failing_dump loaded_trajectory "out" "traj.pickle" [] TypeError)
    as (_ & self' & Hout & Hlib & Htraj & _).
  - repeat constructor; cbn [map fst In]; intuition discriminate.
  - reflexivity.
  - exists self'. repeat split; assumption.
Defined.

(** ** More on the first-half-average begin velocity *)

Section FirstHalfAverageMore.

Variable curve_fit_line : list R -> list R -> result ((R * R) * (npfloat * npfloat)).
Variable argsort_rows : list (R * R) -> list (R * R).

(** With no station the first-half-average mode raises [TypeError] (no
    candidate is fitted, and [best_solution] is still [None] when it is
    indexed).  With one station the one candidate excludes nothing: the
    begin velocity is the slope over 1000 of [curve_fit] on the earliest
    half of that station's own (time, distance) pairs in the order of their
    times, provided the deviation of its intercept is below infinity, and
    [TypeError] otherwise; a station with more times than distances, or
    fewer, raises [ValueError]. *)
Theorem first_half_average_few_stations :
  (forall times svd,
      fha_vbegin curve_fit_line argsort_rows 0 times svd = Raise TypeError) /\
  (forall t0 s0 : list R,
      fha_vbegin curve_fit_line argsort_rows 1 [t0] [s0] =
        if Nat.eqb (length t0) (length s0) then
          '(popt, pcov_diag) <-
            fit_earliest_half curve_fit_line argsort_rows (combine t0 s0) ;;
          if np_lt (np_sqrt (snd pcov_diag)) PInf
          then Ok (fst popt / 1000) else Raise TypeError
        else Raise ValueError).
Proof.
  split; [reflexivity|].
  intros t0 s0. unfold fha_vbegin. cbn [seq fha_loop].
  unfold candidate_fit. change (use_indices_of 1 1) with (Ok [0%nat]). cbn [bind].
  unfold candidate_half. cbn [filter_indices existsb Nat.eqb orb concat].
  rewrite !app_nil_r. unfold np_c_.
  destruct (Nat.eqb (length t0) (length s0)); [|reflexivity]. cbn [bind].
  unfold fit_earliest_half, earliest_half. rewrite length_map, !firstn_map.
  destruct (curve_fit_line _ _) as [[popt pcov]|e]; [|reflexivity].
  cbn [bind Nat.eqb]. now destruct (np_lt (np_sqrt (snd pcov)) PInf).
Qed.

Lemma np_lt_below_inf (x y : npfloat) :
  np_lt x y = true -> np_lt y PInf = true \/ y = PInf -> np_lt x PInf = true.
Proof.
  intros Hxy [Hy| ->]; [|exact Hxy]. exact (np_lt_trans _ _ _ Hxy Hy).
Qed.

Lemma fha_loop_result (N : nat) (times svd : list (list R)) (i_values : list nat) :
  forall sd sol res,
    np_lt sd PInf = true \/ sd = PInf ->
    fha_loop curve_fit_line argsort_rows N times svd i_values sd sol = Ok res ->
    res = sol \/
    exists i f, In i i_values /\
      candidate_fit curve_fit_line argsort_rows N times svd i = Ok f /\
      res = Some (fst f) /\ np_lt (stddev_of f) PInf = true.
Proof.
  induction i_values as [|i rest IH]; intros sd sol res Hsd H; cbn [fha_loop] in H.
  - injection H as <-. now left.
  - destruct (candidate_fit curve_fit_line argsort_rows N times svd i)
      as [[popt pcov]|e] eqn:Hfit; [|discriminate].
    cbn [bind] in H.
    change (np_sqrt (snd pcov)) with (stddev_of (popt, pcov)) in H.
    destruct (np_lt (stddev_of (popt, pcov)) sd) eqn:Hlt.
    + assert (Hfin : np_lt (stddev_of (popt, pcov)) PInf = true)
        by exact (np_lt_below_inf _ _ Hlt Hsd).
      assert (Hhere : exists i0 f, In i0 (i :: rest) /\
                 candidate_fit curve_fit_line argsort_rows N times svd i0 = Ok f /\
                 Some popt = Some (fst f) /\ np_lt (stddev_of f) PInf = true).
      { exists i, (popt, pcov). repeat split; [now left|assumption..]. }
      destruct (Nat.eqb N 2).
      * injection H as <-. now right.
      * apply IH in H; [|now left].
        destruct H as [->|(i0 & f & Hin & Hf & Hres & Hlow)]; [now right|].
        right. exists i0, f. repeat split; [now right|assumption..].
    + destruct (Nat.eqb N 2).
      * injection H as <-. now left.
      * apply IH in H; [|exact Hsd].
        destruct H as [->|(i0 & f & Hin & Hf & Hres & Hlow)]; [now left|].
        right. exists i0, f. repeat split; [now right|assumption..].
Qed.

(** Whatever the number of stations, a begin velocity that the
    first-half-average mode returns is the slope over 1000 of a candidate
    that was fitted and whose intercept deviation is a number: a fit whose
    covariance could not be estimated (infinite or not-a-number deviation)
    never sets the begin velocity. *)
Theorem first_half_average_needs_finite_deviation (N : nat)
  (times svd : list (list R)) (v : R) :
  fha_vbegin curve_fit_line argsort_rows N times svd = Ok v ->
  exists i f dev,
    (1 <= i <= N)%nat /\
    candidate_fit curve_fit_line argsort_rows N times svd i = Ok f /\
    v = fst (fst f) / 1000 /\
    stddev_of f = Fin dev.
Proof.
  unfold fha_vbegin.
  destruct (fha_loop curve_fit_line argsort_rows N times svd (seq 1 N) PInf None)
    as [res|e] eqn:Hloop; [|discriminate].
  cbn [bind]. destruct res as [popt|]; [|discriminate].
  intros H; injection H as <-.
  apply fha_loop_result in Hloop; [|now right].
  destruct Hloop as [Hnone|(i & f & Hin & Hfit & Hres & Hlow)]; [discriminate|].
  injection Hres as ->. apply in_seq in Hin.
  assert (Hdev : exists dev, stddev_of f = Fin dev).
  { unfold stddev_of in *. destruct (snd (snd f)) as [r| | |]; cbn [np_sqrt] in *;
      try discriminate.
    destruct (Rlt_dec r 0); [discriminate|]. now exists (sqrt r). }
  destruct Hdev as (dev & Hdev).
  exists i, f, dev. repeat split; [lia|lia|assumption..].
Qed.

End FirstHalfAverageMore.

Lemma two_stations_constant_fit :
  fha_vbegin constant_line_fit sort_rows 2 [[0; 1]; [0; 1]] [[0; 10]; [0; 10]]
    = Ok (20000 / 1000).
Proof.
  unfold fha_vbegin. cbn [seq fha_loop].
  unfold candidate_fit, use_indices_of, candidate_half, np_c_.
  cbn [Nat.ltb Nat.leb andb seq bind filter_indices existsb Nat.eqb orb concat app length].
  unfold constant_line_fit. cbn [bind snd fst np_sqrt].
  destruct (Rlt_dec 4 0); [lra|]. reflexivity.
Qed.

Lemma first_half_average_needs_finite_deviation_witness :
  exists i f dev,
    (1 <= i <= 2)%nat /\
    candidate_fit constant_line_fit sort_rows 2 [[0; 1]; [0; 1]] [[0; 10]; [0; 10]] i = Ok f /\
    20000 / 1000 = fst (fst f) / 1000 /\
    stddev_of f = Fin dev.
Proof.
  exact (first_half_average_needs_finite_deviation constant_line_fit sort_rows 2
           [[0; 1]; [0; 1]] [[0; 10]; [0; 10]] (20000 / 1000) two_stations_constant_fit).
Defined.

Section CandidateHalf.

Variable argsort_rows : list (R * R) -> list (R * R).
Hypothesis argsort_rows_perm : forall rows, Permutation (argsort_rows rows) rows.
Hypothesis argsort_rows_sorted : forall rows, Sorted by_time (argsort_rows rows).

(** A candidate whose stations have as many times as distances is fitted to
    half of its pooled points, rounded down, and no point it is fitted to is
    later than a point it leaves out; the points kept and left out are
    together the pooled points.  A candidate with more times than distances,
    or fewer, raises [ValueError]. *)
Theorem candidate_half_is_earliest_half (use_indices : list nat)
  (times svd : list (list R)) :
  let pooled_times := concat (filter_indices use_indices 0 times) in
  let pooled_svs := concat (filter_indices use_indices 0 svd) in
  (length pooled_times <> length pooled_svs ->
   candidate_half argsort_rows use_indices times svd = Raise ValueError) /\
  (length pooled_times = length pooled_svs ->
   exists ts ds later,
     candidate_half argsort_rows use_indices times svd = Ok (ts, ds) /\
     length ts = Nat.div (length pooled_times) 2 /\
     length ds = Nat.div (length pooled_times) 2 /\
     Permutation (combine ts ds ++ later) (combine pooled_times pooled_svs) /\
     forall t row, In t ts -> In row later -> t <= fst row).
Proof.
  intros pt ps. unfold candidate_half, np_c_. fold pt ps. split.
  - intros Hne. destruct (Nat.eqb_spec (length pt) (length ps)); [contradiction|reflexivity].
  - intros Heq. destruct (Nat.eqb_spec (length pt) (length ps)); [|contradiction].
    cbn [bind].
    set (rows := argsort_rows (combine pt ps)).
    assert (Hlen : length rows = length pt).
    { unfold rows. rewrite (Permutation_length (argsort_rows_perm _)), length_combine. lia. }
    rewrite length_map, Hlen, !firstn_map.
    set (h := Nat.div (length pt) 2).
    assert (Hh : (h <= length rows)%nat).
    { rewrite Hlen. unfold h. apply Nat.Div0.div_le_upper_bound. lia. }
    exists (map fst (firstn h rows)), (map snd (firstn h rows)), (skipn h rows).
    split; [reflexivity|].
    split; [rewrite length_map, length_firstn; lia|].
    split; [rewrite length_map, length_firstn; lia|].
    split.
    + rewrite combine_fst_snd, firstn_skipn. apply argsort_rows_perm.
    + intros t row Ht Hrow. apply in_map_iff in Ht as (r & <- & Hr).
      assert (Hss : StronglySorted by_time (firstn h rows ++ skipn h rows)).
      { rewrite firstn_skipn. apply Sorted_StronglySorted; [|apply argsort_rows_sorted].
        intros a b c Hab Hbc. unfold by_time in *. lra. }
      exact (StronglySorted_app_le by_time _ _ Hss r row Hr Hrow).
Qed.

End CandidateHalf.

Lemma candidate_half_is_earliest_half_witness :
  exists ts ds later,
    candidate_half sort_rows [0; 1]%nat [[3; 1]; [2]] [[30; 10]; [20]] = Ok (ts, ds) /\
    length ts = 1%nat /\
    forall (t : R) (row : R * R), In t ts -> In row later -> t <= fst row.
Proof.
  destruct (candidate_half_is_earliest_half sort_rows sort_rows_perm sort_rows_sorted
              [0; 1]%nat [[3; 1]; [2]] [[30; 10]; [20]]) as (_ & Hok).
  destruct (Hok eq_refl) as (ts & ds & later & Hc & Hl & _ & _ & Hle).
  exists ts, ds, later. split; [exact Hc|]. split; [exact Hl|exact Hle].
Defined.

(** ** The begin point of the trajectory *)

Lemma project_points_invariant (epsilon : R) (state_vect radiant_eci : vec3)
  (prev : list vec3) (pts : list (vec3 * vec3)) :
  forall max_ht beg_cpa acc l' m' b',
    begin_point_invariant (prev ++ acc) max_ht beg_cpa ->
    project_points epsilon state_vect radiant_eci pts max_ht beg_cpa acc = Ok (l', m', b') ->
    begin_point_invariant (prev ++ l') m' b' /\
    length l' = (length acc + length pts)%nat.
Proof.
  induction pts as [|[stat meas] rest IH]; intros max_ht beg acc l' m' b' Hinv H;
    cbn [project_points] in H.
  - injection H as <- <- <-. split; [exact Hinv|]. cbn [length]. lia.
  - destruct (findClosestPoints epsilon stat meas state_vect radiant_eci)
      as [[[obs rad_cpa] d]|e]; [|discriminate].
    cbn [bind] in H. destruct Hinv as (Hall & Hbeg).
    destruct (Rlt_dec max_ht (vectMag rad_cpa)) as [Hlt|Hge].
    + apply IH in H.
      * destruct H as (Hinv' & Hlen). split; [exact Hinv'|].
        rewrite Hlen, length_app. cbn [length]. lia.
      * split.
        -- intros c Hc. rewrite app_assoc in Hc. apply in_app_or in Hc as [Hc|[<-|[]]].
           ++ apply Hall in Hc. lra.
           ++ lra.
        -- split; [|reflexivity]. rewrite app_assoc. apply in_or_app. right. now left.
    + apply IH in H.
      * destruct H as (Hinv' & Hlen). split; [exact Hinv'|].
        rewrite Hlen, length_app. cbn [length]. lia.
      * split.
        -- intros c Hc. rewrite app_assoc in Hc. apply in_app_or in Hc as [Hc|[<-|[]]].
           ++ now apply Hall.
           ++ lra.
        -- destruct beg as [b|]; [|exact Hbeg].
           destruct Hbeg as (Hin & Hmag). split; [|exact Hmag].
           rewrite app_assoc. apply in_or_app. now left.
Qed.

Lemma project_stations_invariant (epsilon : R) (state_vect radiant_eci : vec3)
  (stations : list (list vec3 * list vec3)) :
  forall max_ht beg_cpa acc all b',
    begin_point_invariant (concat acc) max_ht beg_cpa ->
    project_stations epsilon state_vect radiant_eci stations max_ht beg_cpa acc
      = Ok (all, b') ->
    (exists m', begin_point_invariant (concat all) m' b') /\
    length all = (length acc + length stations)%nat.
Proof.
  induction stations as [|[stat_eci meas_eci] rest IH]; intros max_ht beg acc all b' Hinv H;
    cbn [project_stations] in H.
  - injection H as <- <-. split; [now exists max_ht|]. cbn [length]. lia.
  - destruct (project_points epsilon state_vect radiant_eci (combine stat_eci meas_eci)
                max_ht beg []) as [[[l m] b]|e] eqn:Hp; [|discriminate].
    cbn [bind] in H.
    apply (project_points_invariant _ _ _ (concat acc)) in Hp;
      [|now rewrite app_nil_r].
    destruct Hp as (Hinv' & _).
    apply IH in H.
    + destruct H as (Hex & Hlen). split; [exact Hex|].
      rewrite Hlen, length_app. cbn [length]. lia.
    + now rewrite concat_app, concat_cons, concat_nil, app_nil_r.
Qed.

(** The begin point that the projection loop keeps is one of the projected
    points and no projected point is farther from the centre of the Earth;
    there is none only where every projected point is at the centre.  One
    list of points is returned for each station. *)
Theorem begin_point_is_highest (epsilon : R) (state_vect radiant_eci : vec3)
  (stations : list (list vec3 * list vec3))
  (rad_cpa_all_stations : list (list vec3)) (beg_cpa : option vec3) :
  project_stations epsilon state_vect radiant_eci stations 0 None []
    = Ok (rad_cpa_all_stations, beg_cpa) ->
  length rad_cpa_all_stations = length stations /\
  match beg_cpa with
  | Some b =>
      In b (concat rad_cpa_all_stations) /\
      forall c, In c (concat rad_cpa_all_stations) -> vectMag c <= vectMag b
  | None => forall c, In c (concat rad_cpa_all_stations) -> vectMag c = 0
  end.
Proof.
  intros H. apply project_stations_invariant in H.
  - destruct H as ((m & Hall & Hbeg) & Hlen). split; [exact Hlen|].
    destruct beg_cpa as [b|].
    + destruct Hbeg as (Hin & Hmag). split; [exact Hin|].
      intros c Hc. rewrite Hmag. now apply Hall.
    + intros c Hc. subst m. apply Hall in Hc.
      pose proof (vectMag_nonneg c). lra.
  - split; [intros c []|reflexivity].
Qed.

Lemma one_point_projected :
  exists obs d,
    findClosestPoints 0 (5, 0, 0) (0, 1, 0) (2, 0, 0) (1, 0, 0) = Ok (obs, (5, 0, 0), d).
Proof.
  unfold findClosestPoints. cbv zeta.
  assert (Hd : vdot (0, 1, 0) (0, 1, 0) * vdot (1, 0, 0) (1, 0, 0)
               - vdot (0, 1, 0) (1, 0, 0) * vdot (0, 1, 0) (1, 0, 0) = 1).
  { unfold vdot. ring. }
  rewrite Hd.
  destruct (Rle_dec (Rabs 1) 0) as [Hle|_].
  { rewrite Rabs_pos_eq in Hle by lra. lra. }
  eexists; eexists. do 2 f_equal.
  unfold vadd, vscale, vsub, vdot. repeat f_equal; field.
Qed.

Lemma one_point_projection :
  project_stations 0 (2, 0, 0) (1, 0, 0) [([(5, 0, 0)], [(0, 1, 0)])] 0 None []
    = Ok ([[(5, 0, 0)]], Some (5, 0, 0)).
Proof.
  cbn [project_stations combine project_points].
  destruct one_point_projected as (obs & d & ->). cbn [bind].
  destruct (Rlt_dec 0 (vectMag (5, 0, 0))) as [_|Hn]; [reflexivity|].
  exfalso. apply Hn. unfold vectMag, vdot. apply sqrt_lt_R0. lra.
Qed.

Lemma begin_point_is_highest_witness :
  In (5, 0, 0) (concat [[(5, 0, 0)]]) /\
  forall c, In c (concat [[(5, 0, 0)]]) -> vectMag c <= vectMag (5, 0, 0).
Proof.
  exact (proj2 (begin_point_is_highest 0 (2, 0, 0) (1, 0, 0) [([(5, 0, 0)], [(0, 1, 0)])]
                  [[(5, 0, 0)]] (Some (5, 0, 0)) one_point_projection)).
Defined.

(** ** Lengths, distances and velocities of every station *)

Lemma station_lengths_maps (b : vec3) (cpas : list vec3) :
  station_lengths (Some b) cpas =
    Ok (map (fun c => vectMag (vsub (hd b cpas) c)) cpas,
        map (fun c => vectMag (vsub b c)) cpas).
Proof.
  destruct cpas as [|c0 rest]; [reflexivity|]. apply station_lengths_ok.
Qed.

Lemma stations_kinematics_distances (times : list (list R)) (b : vec3)
  (all : list (list vec3)) :
  forall kmeas ls svs vs,
    stations_kinematics times (Some b) kmeas all = Ok (ls, svs, vs) ->
    ls = map (fun cpas => map (fun c => vectMag (vsub (hd b cpas) c)) cpas) all /\
    svs = map (map (fun c => vectMag (vsub b c))) all.
Proof.
  induction all as [|cpas rest IH]; intros k ls svs vs H; cbn [stations_kinematics] in H.
  - injection H as <- <- <-. split; reflexivity.
  - destruct (getitem times k) as [time_data|e]; [|discriminate]. cbn [bind] in H.
    rewrite station_lengths_maps in H. cbn [bind] in H.
    destruct (station_velocity time_data _) as [v|e]; [|discriminate]. cbn [bind] in H.
    destruct (stations_kinematics times (Some b) (S k) rest) as [[[ls' svs'] vs']|e] eqn:Hr;
      [|discriminate].
    cbn [bind] in H. injection H as <- <- <-.
    destruct (IH _ _ _ _ Hr) as (-> & ->). split; reflexivity.
Qed.

Lemma stations_kinematics_without_begin (times : list (list R))
  (all : list (list vec3)) :
  forall kmeas res,
    stations_kinematics times None kmeas all = Ok res -> concat all = [].
Proof.
  induction all as [|cpas rest IH]; intros k res H; [reflexivity|].
  cbn [stations_kinematics] in H.
  destruct (getitem times k) as [time_data|e]; [|discriminate]. cbn [bind] in H.
  destruct cpas as [|c0 cs]; [|discriminate].
  cbn [station_lengths lengths_loop bind] in H.
  destruct (station_velocity time_data []) as [v|e]; [|discriminate]. cbn [bind] in H.
  destruct (stations_kinematics times None (S k) rest) as [res'|e] eqn:Hr;
    [|discriminate].
  cbn [concat app]. exact (IH _ _ Hr).
Qed.

(** When the projection and the kinematics of the stations both return, and
    some point was projected, a begin point exists, every along-track length
    and every state-vector distance is non-negative, and the state-vector
    distance of one measurement at least is exactly zero: the begin point is
    itself a projected point. *)
Theorem state_vector_distance_is_zero_at_begin_point (epsilon : R)
  (state_vect radiant_eci : vec3) (stations : list (list vec3 * list vec3))
  (times : list (list R)) (rad_cpa_all_stations : list (list vec3))
  (beg_cpa : option vec3) (ls svs : list (list R)) (vs : list (list npfloat)) :
  project_stations epsilon state_vect radiant_eci stations 0 None []
    = Ok (rad_cpa_all_stations, beg_cpa) ->
  stations_kinematics times beg_cpa 0 rad_cpa_all_stations = Ok (ls, svs, vs) ->
  concat rad_cpa_all_stations <> [] ->
  beg_cpa <> None /\
  (forall x, In x (concat ls) -> 0 <= x) /\
  (forall x, In x (concat svs) -> 0 <= x) /\
  In 0 (concat svs).
Proof.
  intros Hp Hk Hne.
  assert (Hbeg : exists b, beg_cpa = Some b).
  { destruct beg_cpa as [b|]; [now exists b|]. exfalso.
    apply Hne. exact (stations_kinematics_without_begin _ _ _ _ Hk). }
  destruct Hbeg as (b & ->). split; [discriminate|].
  assert (Hin : In b (concat rad_cpa_all_stations)).
  { apply project_stations_invariant in Hp; [|split; [intros c []|reflexivity]].
    destruct Hp as ((m & _ & Hb & _) & _). exact Hb. }
  destruct (stations_kinematics_distances _ _ _ _ _ _ _ Hk) as (-> & ->).
  split; [|split].
  - intros x Hx. apply in_concat in Hx as (l & Hl & Hx).
    apply in_map_iff in Hl as (cpas & <- & _).
    apply in_map_iff in Hx as (c & <- & _). apply vectMag_nonneg.
  - intros x Hx. apply in_concat in Hx as (l & Hl & Hx).
    apply in_map_iff in Hl as (cpas & <- & _).
    apply in_map_iff in Hx as (c & <- & _). apply vectMag_nonneg.
  - apply in_concat in Hin as (cpas & Hcpas & Hb).
    apply in_concat. exists (map (fun c => vectMag (vsub b c)) cpas).
    split; [now apply in_map|].
    rewrite <- (vectMag_self b). now apply (in_map (fun c => vectMag (vsub b c))).
Qed.

Lemma state_vector_distance_is_zero_at_begin_point_witness :
  In 0 (concat [[vectMag (vsub (5, 0, 0) (5, 0, 0))]]).
Proof.
  apply (state_vector_distance_is_zero_at_begin_point 0 (2, 0, 0) (1, 0, 0)
           [([(5, 0, 0)], [(0, 1, 0)])] [[1]] [[(5, 0, 0)]] (Some (5, 0, 0))
           [[0]] [[vectMag (vsub (5, 0, 0) (5, 0, 0))]] [[Fin 0]]).
  - exact one_point_projection.
  - exact (single_point_kinematics 1 (5, 0, 0) (5, 0, 0)).
  - discriminate.
Defined.

Lemma replace_zeros_nonzero (a : list R) :
  Forall (fun d => d <> 0) (replace_zeros float64_eps a).
Proof.
  unfold replace_zeros. apply Forall_forall. intros d Hd.
  apply in_map_iff in Hd as (x & <- & _). apply (guarded_nonzero x).
Qed.

Lemma np_div_zero_numerator (y : R) : y <> 0 -> np_div (0 - 0) y = Fin 0.
Proof.
  intros Hy. rewrite np_div_nonzero by exact Hy. f_equal. unfold Rdiv. ring.
Qed.

Lemma station_velocity_head (time_data lrest : list R) (v : list npfloat) :
  station_velocity time_data (0 :: lrest) = Ok v -> v = [] \/ hd NaN v = Fin 0.
Proof.
  unfold station_velocity.
  rewrite np_zipwith_same by (now rewrite shift_down_length).
  rewrite time_diffs_of_ok. cbn [bind].
  pose proof (replace_zeros_nonzero
                (map (fun p => fst p - snd p) (combine time_data (shift_down time_data))))
    as Hnz.
  set (td := replace_zeros float64_eps _) in *.
  unfold shift_down at 1.
  change (removelast (0 :: 0 :: lrest)) with (0 :: removelast (0 :: lrest)).
  cbn [combine map fst snd].
  set (dd' := map (fun p => fst p - snd p) (combine lrest (removelast (0 :: lrest)))).
  unfold np_zipwith.
  destruct (Nat.eqb (length (0 - 0 :: dd')) (length td)).
  - intros H; injection H as <-.
    destruct td as [|y td']; [now left|]. right. cbn [combine map hd fst snd].
    apply np_div_zero_numerator. now inversion Hnz.
  - destruct dd' as [|d1 dd''].
    + intros H; injection H as <-.
      destruct td as [|y td']; [now left|]. right. cbn [map hd].
      apply np_div_zero_numerator. now inversion Hnz.
    + destruct td as [|y [|y' td']]; try discriminate.
      intros H; injection H as <-. right. cbn [map hd].
      apply np_div_zero_numerator. now inversion Hnz.
Qed.

Lemma station_velocity_empty (time_data : list R) (v : list npfloat) :
  station_velocity time_data [] = Ok v -> v = [].
Proof.
  unfold station_velocity. cbn [shift_down removelast np_zipwith length Nat.eqb combine map bind].
  rewrite time_diffs_of_ok. cbn [bind].
  set (td := replace_zeros float64_eps _). unfold np_zipwith.
  destruct (Nat.eqb (length (@nil R)) (length td)).
  - intros H; injection H as <-. reflexivity.
  - destruct td as [|y [|y' td']]; try discriminate.
    intros H; injection H as <-. reflexivity.
Qed.

Lemma station_velocity_length (time_data length_data : list R) (v : list npfloat) :
  length length_data = length time_data ->
  station_velocity time_data length_data = Ok v -> length v = length time_data.
Proof.
  intros Hlen. unfold station_velocity.
  rewrite np_zipwith_same by (now rewrite shift_down_length).
  rewrite time_diffs_of_ok. cbn [bind].
  rewrite np_zipwith_same.
  - intros H; injection H as <-.
    rewrite zip_length; rewrite zip_length by (now rewrite shift_down_length);
      [exact Hlen|].
    unfold replace_zeros. rewrite length_map.
    rewrite zip_length by (now rewrite shift_down_length). exact Hlen.
  - rewrite zip_length by (now rewrite shift_down_length).
    unfold replace_zeros. rewrite length_map.
    rewrite zip_length by (now rewrite shift_down_length). exact Hlen.
Qed.

Lemma station_velocity_returns (time_data length_data : list R) :
  length length_data = length time_data ->
  exists v, station_velocity time_data length_data = Ok v.
Proof.
  intros Hlen. unfold station_velocity.
  rewrite np_zipwith_same by (now rewrite shift_down_length).
  rewrite time_diffs_of_ok. cbn [bind].
  rewrite np_zipwith_same; [eexists; reflexivity|].
  rewrite zip_length by (now rewrite shift_down_length).
  unfold replace_zeros. rewrite length_map.
  rewrite zip_length by (now rewrite shift_down_length). exact Hlen.
Qed.

Lemma skipn_cons_nth_error {A : Type} (l : list A) :
  forall k x rest, skipn k l = x :: rest ->
    nth_error l k = Some x /\ skipn (S k) l = rest.
Proof.
  induction l as [|y l IH]; intros k x rest H.
  - destruct k; discriminate.
  - destruct k as [|k]; [injection H as -> ->; split; reflexivity|].
    cbn [skipn] in H. destruct (IH _ _ _ H) as [H1 H2].
    split; [exact H1|exact H2].
Qed.

Lemma stations_kinematics_velocities (times : list (list R)) (b : vec3)
  (rad_cpa_all_stations : list (list vec3)) :
  forall kmeas,
    Forall2 (fun time_data rad_cpa_list => length time_data = length rad_cpa_list)
      (skipn kmeas times) rad_cpa_all_stations ->
    exists ls svs vs,
      stations_kinematics times (Some b) kmeas rad_cpa_all_stations = Ok (ls, svs, vs) /\
      Forall2 (fun rad_cpa_list velocity =>
                 length velocity = length rad_cpa_list /\
                 forall v0 rest, velocity = v0 :: rest -> v0 = Fin 0)
        rad_cpa_all_stations vs.
Proof.
  induction rad_cpa_all_stations as [|cpas rest IH]; intros k Hall.
  - exists [], [], []. split; [reflexivity|constructor].
  - inversion Hall as [|time_data ? ts ? Hlen Hrest Hskip]; subst.
    symmetry in Hskip. destruct (skipn_cons_nth_error _ _ _ _ Hskip) as [Hnth Hnext].
    rewrite <- Hnext in Hrest.
    destruct (IH (S k) Hrest) as (ls & svs & vs & Hk & Hvs).
    cbn [stations_kinematics]. unfold getitem. rewrite Hnth. cbn [bind].
    rewrite station_lengths_maps. cbn [bind].
    set (len := map (fun c => vectMag (vsub (hd b cpas) c)) cpas).
    assert (Hl : length len = length time_data).
    { unfold len. rewrite length_map. now symmetry. }
    destruct (station_velocity_returns time_data len Hl) as (v & Hv).
    rewrite Hv, Hk. cbn [bind].
    eexists; eexists; eexists. split; [reflexivity|].
    constructor; [|exact Hvs]. split.
    + rewrite (station_velocity_length _ _ _ Hl Hv). exact Hlen.
    + intros v0 vrest Ev. subst v.
      destruct cpas as [|c0 cs].
      * apply station_velocity_length in Hv; [|exact Hl].
        cbn in Hlen. rewrite Hlen in Hv. discriminate.
      * unfold len in Hv. cbn [map hd] in Hv. rewrite vectMag_self in Hv.
        destruct (station_velocity_head _ _ _ Hv) as [E|E]; [discriminate|].
        exact E.
Qed.

(** Where every station has one time for each projected point and a begin
    point was found, the kinematics of the stations are computed, the
    velocity array of every station has one entry for each of its points (it
    is empty for a station without points), and the first entry of a station
    with points is zero, whatever the measurements: the first length is zero
    and the first time difference is measured from zero, or is the machine
    epsilon.  That entry is not a velocity of the meteor. *)
Theorem first_velocity_entry_is_zero (times : list (list R)) (b : vec3)
  (rad_cpa_all_stations : list (list vec3)) :
  Forall2 (fun time_data rad_cpa_list => length time_data = length rad_cpa_list)
    times rad_cpa_all_stations ->
  exists ls svs vs,
    stations_kinematics times (Some b) 0 rad_cpa_all_stations = Ok (ls, svs, vs) /\
    Forall2 (fun rad_cpa_list velocity =>
               length velocity = length rad_cpa_list /\
               forall v0 rest, velocity = v0 :: rest -> v0 = Fin 0)
      rad_cpa_all_stations vs.
Proof.
  intros Hall. now apply stations_kinematics_velocities.
Qed.

Lemma first_velocity_entry_is_zero_witness :
  exists ls svs vs,
    stations_kinematics [[1]; []] (Some (5, 0, 0)) 0 [[(5, 0, 0)]; []] = Ok (ls, svs, vs) /\
    Forall2 (fun rad_cpa_list velocity =>
               length velocity = length rad_cpa_list /\
               forall v0 rest, velocity = v0 :: rest -> v0 = Fin 0)
      [[(5, 0, 0)]; []] vs.
Proof.
  apply (first_velocity_entry_is_zero [[1]; []] (5, 0, 0) [[(5, 0, 0)]; []]).
  repeat constructor.
Defined.

(** ** The number of points of the lag fit *)

(** The intercept of the lag line is fitted to one point at least and to no
    more than the station has, to four points at least when the station has
    four, and to at most a quarter of the points once that quarter holds
    four: a station of fifteen points is fitted on all fifteen, one of
    sixteen on four. *)
Theorem quart_size_of_bounds (n : nat) :
  ((0 < n)%nat -> (0 < quart_size_of n <= n)%nat) /\
  ((4 <= n)%nat -> (4 <= quart_size_of n)%nat) /\
  ((16 <= n)%nat -> (4 * quart_size_of n <= n)%nat) /\
  quart_size_of 15 = 15%nat /\ quart_size_of 16 = 4%nat.
Proof.
  split; [apply quart_size_of_pos|]. split; [|split; [|split; reflexivity]].
  - intros H4. unfold quart_size_of.
    destruct (Nat.ltb_spec (n / 4) 4); lia.
  - intros H16. destruct (quart_size_of_cases n) as (Hbig & _). rewrite (Hbig H16).
    apply Nat.Div0.mul_div_le.
Qed.

(** ** calcAverages *)

Lemma np_add_nan_l (x : npfloat) : np_add NaN x = NaN.
Proof. reflexivity. Qed.

Lemma np_add_nan_r (x : npfloat) : np_add x NaN = NaN.
Proof. now destruct x. Qed.

Lemma fold_np_add_nan (l : list npfloat) : fold_left np_add l NaN = NaN.
Proof. induction l as [|x l IH]; [reflexivity|]. cbn [fold_left]. exact IH. Qed.

Lemma fold_np_add_in_nan (l : list npfloat) :
  forall acc, In NaN l -> fold_left np_add l acc = NaN.
Proof.
  induction l as [|x l IH]; intros acc Hin; [contradiction|].
  cbn [fold_left]. destruct Hin as [->|Hin].
  - rewrite np_add_nan_r. apply fold_np_add_nan.
  - now apply IH.
Qed.

Lemma np_mean_in_nan (l : list npfloat) : In NaN l -> np_mean l = NaN.
Proof.
  intros Hin. unfold np_mean. destruct l as [|x l]; [reflexivity|].
  now rewrite fold_np_add_in_nan.
Qed.

Section CalcAveragesProps.

Variable geo2Cartesian : R -> R -> R -> R -> vec3.

Lemma averages_loop_single_measurement (m : ModelArrays)
  (lengths times JD_data_cameras : list (list R)) (k : nat) (x t : R)
  (kmeas_values : list nat) :
  nth_error lengths k = Some [x] -> nth_error times k = Some [t] ->
  forall vs ecis,
    averages_loop geo2Cartesian m lengths times JD_data_cameras kmeas_values = Ok (vs, ecis) ->
    In k kmeas_values -> In NaN vs.
Proof.
  intros Hl Ht. induction kmeas_values as [|k0 rest IH]; intros vs ecis H Hin;
    [contradiction|].
  cbn [averages_loop] in H.
  destruct (getitem lengths k0) as [len|e] eqn:Hgl; [|discriminate]. cbn [bind] in H.
  destruct (getitem times k0) as [td|e] eqn:Hgt; [|discriminate]. cbn [bind] in H.
  destruct (station_average_velocity len td) as [v|e] eqn:Hv; [|discriminate].
  cbn [bind] in H.
  destruct (getitem (nummeas_lst m) k0) as [n|e]; [|discriminate]. cbn [bind] in H.
  destruct (model_eci_list geo2Cartesian m JD_data_cameras k0 (seq 0 n)) as [eci|e];
    [|discriminate].
  cbn [bind] in H.
  destruct (averages_loop geo2Cartesian m lengths times JD_data_cameras rest)
    as [[vs' ecis']|e] eqn:Hr; [|discriminate].
  cbn [bind] in H. injection H as <- <-.
  destruct Hin as [->|Hin]; [|right; exact (IH _ _ eq_refl Hin)].
  left. unfold getitem in Hgl, Hgt. rewrite Hl in Hgl. rewrite Ht in Hgt.
  injection Hgl as <-. injection Hgt as <-.
  unfold station_average_velocity, getlast, getitem in Hv.
  cbn [rev app nth_error bind] in Hv. injection Hv as <-.
  unfold np_div.
  destruct (Req_dec_T (t - t) 0) as [_|Hn]; [|exfalso; apply Hn; ring].
  destruct (Req_dec_T (x - x) 0) as [_|Hn]; [reflexivity|exfalso; apply Hn; ring].
Qed.

(** A station with a single measurement makes the average velocity of
    [calcAverages] not-a-number: its own average is 0/0, and the mean over
    the stations keeps the not-a-number. *)
Theorem single_measurement_station_makes_average_nan (maxcameras : nat)
  (m : ModelArrays) (lengths times JD_data_cameras : list (list R))
  (k : nat) (x t : R) (v_avg : npfloat) (eci_avg : npfloat * npfloat * npfloat)
  (jd_avg : npfloat) :
  calcAverages geo2Cartesian maxcameras m lengths times JD_data_cameras
    = Ok (v_avg, eci_avg, jd_avg) ->
  (k < maxcameras)%nat ->
  nth_error lengths k = Some [x] -> nth_error times k = Some [t] ->
  v_avg = NaN.
Proof.
  unfold calcAverages. intros H Hk Hl Ht.
  destruct (averages_loop geo2Cartesian m lengths times JD_data_cameras (seq 0 maxcameras))
    as [[vs ecis]|e] eqn:Hloop; [|discriminate].
  cbn [bind] in H. injection H as <- _ _.
  apply np_mean_in_nan.
  apply (averages_loop_single_measurement _ _ _ _ k x t _ Hl Ht _ _ Hloop).
  apply in_seq. lia.
Qed.

End CalcAveragesProps.

Lemma one_station_averages :
  exists eci_avg jd_avg,
    calcAverages (fun _ _ _ _ => (0, 0, 0)) 1
      {| nummeas_lst := [1%nat]; model_lat := [[0]]; model_lon := [[0]]; model_hkm := [[0]] |}
      [[0]] [[1]] [[0]] = Ok (NaN, eci_avg, jd_avg).
Proof.
  unfold calcAverages. cbn [seq averages_loop getitem nth_error bind].
  rewrite single_point_average_velocity.
  cbn [bind nummeas_lst model_lat model_lon model_hkm seq model_eci_list getitem
       nth_error].
  eexists; eexists. reflexivity.
Qed.

Lemma single_measurement_station_makes_average_nan_witness :
  exists v_avg eci_avg jd_avg,
    calcAverages (fun _ _ _ _ => (0, 0, 0)) 1
      {| nummeas_lst := [1%nat]; model_lat := [[0]]; model_lon := [[0]]; model_hkm := [[0]] |}
      [[0]] [[1]] [[0]] = Ok (v_avg, eci_avg, jd_avg) /\
    v_avg = NaN.
Proof.
  destruct one_station_averages as (eci_avg & jd_avg & H).
  exists NaN, eci_avg, jd_avg. split; [exact H|].
  exact (single_measurement_station_makes_average_nan (fun _ _ _ _ => (0, 0, 0)) 1
           _ [[0]] [[1]] [[0]] 0 0 1 NaN eci_avg jd_avg H (le_n 1) eq_refl eq_refl).
Defined.

(** ** The measurement conventions 2 and 4 *)

(** Under convention 4 (azimuth north of east, zenith angle) the azimuth
    east of north is [(pi/2 - meas1) mod 2 pi], between 0 and [2 pi], and
    the elevation is [pi/2 - meas2], within [[-pi/2, pi/2]] for a zenith
    angle in [[0, pi]]: due east (0) becomes [pi/2] and due north ([pi/2])
    becomes 0.  Under convention 2 the measurements are passed on as they
    are. *)
Theorem azimuth_north_of_east_zenith
  (raDec2AltAz_vect : list R -> list R -> R -> R -> R -> list R * list R)
  (jdt_ref : R) (prev : option (list R * list R)) (lat lon : R) :
  (forall meas1 meas2,
      convert_measurements raDec2AltAz_vect 4 jdt_ref prev meas1 meas2 lat lon =
        Some (map (fun a => pymod (PI / 2 - a) (2 * PI)) meas1,
              map (fun z => PI / 2 - z) meas2)) /\
  (forall a, 0 <= pymod (PI / 2 - a) (2 * PI) <= 2 * PI) /\
  (forall z, 0 <= z <= PI -> - PI / 2 <= PI / 2 - z <= PI / 2) /\
  convert_measurements raDec2AltAz_vect 4 jdt_ref prev [0; PI / 2] [0; PI / 2] lat lon =
    Some ([PI / 2; 0], [PI / 2; 0]) /\
  (forall meas1 meas2,
      convert_measurements raDec2AltAz_vect 2 jdt_ref prev meas1 meas2 lat lon =
        Some (meas1, meas2)).
Proof.
  pose proof PI_RGT_0 as Hpi.
  split; [reflexivity|]. split.
  { intros a. pose proof (pymod_range (PI / 2 - a) (2 * PI) ltac:(lra)). lra. }
  split; [intros z Hz; lra|]. split; [|reflexivity].
  cbn [convert_measurements Z.eqb Pos.eqb map].
  rewrite (pymod_small (PI / 2 - 0)) by lra.
  rewrite (pymod_small (PI / 2 - PI / 2)) by lra.
  replace (PI / 2 - 0) with (PI / 2) by lra.
  replace (PI / 2 - PI / 2) with 0 by lra. reflexivity.
Qed.

(** ** The arrays read back from the solver *)

Lemma np_setitem_middle (a b : list R) (x v : R) :
  np_setitem (a ++ x :: b) (length a) v = Ok (a ++ v :: b).
Proof.
  induction a as [|y a IH]; [reflexivity|].
  cbn [app length np_setitem]. now rewrite IH.
Qed.

Lemma copy_from_pointer_fills (ptr : nat -> R) (k : nat) :
  forall i,
    copy_from_pointer ptr (seq i k) (map ptr (seq 0 i) ++ repeat 0 k)
      = Ok (map ptr (seq 0 (i + k))).
Proof.
  induction k as [|k IH]; intros i.
  - cbn [seq copy_from_pointer repeat]. now rewrite app_nil_r, Nat.add_0_r.
  - cbn [seq copy_from_pointer repeat].
    assert (Hl : length (map ptr (seq 0 i)) = i) by now rewrite length_map, length_seq.
    rewrite <- Hl at 2. rewrite np_setitem_middle. cbn [bind].
    replace (map ptr (seq 0 i) ++ ptr i :: repeat 0 k)
      with (map ptr (seq 0 (S i)) ++ repeat 0 k)
      by (rewrite seq_S, map_app, <- app_assoc; reflexivity).
    rewrite IH. f_equal. f_equal. f_equal. lia.
Qed.


Lemma double1pointerToArray_ok (ptr : nat -> R) (n : nat) :
  double1pointerToArray ptr n = Ok (map ptr (seq 0 n)).
Proof. unfold double1pointerToArray. exact (copy_from_pointer_fills ptr n 0). Qed.




(** ** The velocity model given as text *)

Lemma list_ascii_of_string_append (a b : string) :
  list_ascii_of_string (String.append a b) =
  list_ascii_of_string a ++ list_ascii_of_string b.
Proof.
  induction a as [|c a IH]; cbn [String.append list_ascii_of_string app];
    [reflexivity | now rewrite IH].
Qed.













Lemma py_int_single_char (c : ascii) :
  match py_int (String c EmptyString) with
  | Ok velmodel => velmodel
  | Raise _ => 3%Z
  end = if is_digit c then Z.of_nat (nat_of_ascii c - 48) else 3%Z.
Proof.
  destruct c as [b0 b1 b2 b3 b4 b5 b6 b7].
  destruct b0, b1, b2, b3, b4, b5, b6, b7; vm_compute; reflexivity.
Qed.

Lemma prefix_gural_not_original (solver : string) :
  prefix "gural" solver = true -> String.eqb solver "original" = false.
Proof.
  destruct solver as [|a rest]; [discriminate|].
  cbn [prefix]. destruct (ascii_dec "g" a) as [<-|]; [|discriminate].
  intros _. reflexivity.
Qed.

(** [solveTrajectoryMILIG], lines 200-214 and 258.  For a solver name that
    starts with [gural] and ends in an ASCII character, the solver is the
    Gural one and its velocity model is the value of that last character
    when it is a digit and 3 in every other case ([gural] alone gets 3): a
    number from 0 to 9, whatever stands between.  The name [original] gets
    the other solver.  For a name that is neither [original] nor starts with
    [gural], no solver is bound and the function raises
    [UnboundLocalError]. *)
Theorem gural_solver_velocity_model (solver s : string) (c : ascii)
  (Hlast : solver = String.append s (String c EmptyString))
  (Hascii : (nat_of_ascii c < 128)%nat) :
  (prefix "gural" solver = true ->
   exists velmodel,
     solveTrajectoryMILIG_solver solver = Ok (GuralSolver velmodel) /\
     velmodel = (if is_digit c then Z.of_nat (nat_of_ascii c - 48) else 3%Z) /\
     (0 <= velmodel <= 9)%Z) /\
  solveTrajectoryMILIG_solver "original" = Ok OriginalSolver /\
  (prefix "gural" solver = false -> solver <> "original"%string ->
   solveTrajectoryMILIG_solver solver = Raise (UnboundLocalError "traj")).
Proof.
  split; [|split; [reflexivity|]].
  - intros Hg. unfold solveTrajectoryMILIG_solver, solveTrajectoryMILIG_traj.
    rewrite (prefix_gural_not_original _ Hg), Hg.
    eexists. split; [reflexivity|].
    assert (Heq : match (c0 <- last_char solver ;; py_int c0) with
                  | Ok velmodel => velmodel
                  | Raise _ => 3%Z
                  end = if is_digit c then Z.of_nat (nat_of_ascii c - 48) else 3%Z).
    { subst solver. unfold last_char.
      rewrite list_ascii_of_string_append, rev_app_distr.
      cbn [list_ascii_of_string rev app bind].
      apply py_int_single_char. }
    split; [exact Heq|]. rewrite Heq.
    destruct (is_digit c) eqn:Hd; [|lia].
    unfold is_digit in Hd. cbv zeta in Hd.
    apply andb_prop in Hd. destruct Hd as [_ Hd]. apply Nat.leb_le in Hd. lia.
  - intros Hg Hne. unfold solveTrajectoryMILIG_solver, solveTrajectoryMILIG_traj.
    rewrite Hg. destruct (String.eqb_spec solver "original"); [contradiction|reflexivity].
Qed.

Lemma gural_solver_velocity_model_witness :
  exists velmodel,
    solveTrajectoryMILIG_solver "gural2" = Ok (GuralSolver velmodel) /\
    velmodel = 2%Z /\ (0 <= velmodel <= 9)%Z.
Proof.
  destruct (gural_solver_velocity_model "gural2" "gural" "2" eq_refl) as (Hg & _ & _).
  - vm_compute. lia.
  - exact (Hg eq_refl).
Defined.
